(** * Version handling of [ci_cd/utils/versions.py]

    A shallow embedding of the version-constraint engine: the
    [SemanticVersion] value type with its grammar check, rendering and rich
    comparisons, the specifier-set updater [update_specifier_set], the ignore
    evaluator [ignore_version] and the search loop of
    [find_minimum_py_version], followed by the properties proved about them. *)

From Stdlib Require Import ZArith NArith List String Ascii Bool Lia.
From Stdlib Require Import DecimalString DecimalN DecimalZ DecimalFacts.
Import ListNotations.

(** ** Exceptions and results

    Python exceptions raised by the module are the constructors of [exn];
    a call either returns a value or raises. *)

Inductive exn : Set :=
| ValueError
| IndexError
| InputError
| InputParserError
| InvalidSpecifier
| UnableToResolve.

Inductive result (A : Type) : Type :=
| Ok (a : A)
| Raise (e : exn).

Arguments Ok {A} a.
Arguments Raise {A} e.

Definition bind {A B : Type} (r : result A) (k : A -> result B) : result B :=
  match r with
  | Ok a => k a
  | Raise e => Raise e
  end.

Notation "x <- r ;; k" := (bind r (fun x => k))
  (at level 61, r at next level, right associativity).

(** ** Text helpers *)

Module Text.

(** Texts are sequences of characters with a code below 256.  Among these
    the digits of the grammar and of [int] are the characters 0 to 9;
    decimal digits of other scripts are outside the texts modelled. *)
Definition is_digit (c : ascii) : bool :=
  ((48 <=? N_of_ascii c) && (N_of_ascii c <=? 57))%N.

Definition is_letter (c : ascii) : bool :=
  (((65 <=? N_of_ascii c) && (N_of_ascii c <=? 90))
   || ((97 <=? N_of_ascii c) && (N_of_ascii c <=? 122)))%N.

(** [[0-9a-zA-Z-]] *)
Definition is_ident_char (c : ascii) : bool :=
  is_digit c || is_letter c || Ascii.eqb c "-".

(** The longest prefix whose characters satisfy [p], and what follows it. *)
Fixpoint span (p : ascii -> bool) (s : string) : string * string :=
  match s with
  | EmptyString => (EmptyString, EmptyString)
  | String c s' =>
      if p c then let (a, b) := span p s' in (String c a, b)
      else (EmptyString, s)
  end.

Fixpoint all_chars (p : ascii -> bool) (s : string) : bool :=
  match s with
  | EmptyString => true
  | String c s' => p c && all_chars p s'
  end.

(** [str.split(sep)] for a one-character separator. *)
Fixpoint split (sep : ascii) (s : string) : list string :=
  match s with
  | EmptyString => [EmptyString]
  | String c s' =>
      if Ascii.eqb c sep then EmptyString :: split sep s'
      else match split sep s' with
           | [] => [String c EmptyString]
           | h :: t => String c h :: t
           end
  end.

(** [sep.join(parts)] *)
Fixpoint join (sep : string) (parts : list string) : string :=
  match parts with
  | [] => EmptyString
  | [p] => p
  | p :: ps => (p ++ sep ++ join sep ps)%string
  end.

(** A text without a dot: one part of a dotted text. *)
Definition dot_free (s : string) : bool :=
  all_chars (fun c => negb (Ascii.eqb c ".")) s.

(** [str(n)] for a Python [int]. *)
Definition str_of_int (z : Z) : string :=
  NilZero.string_of_int (Z.to_int z).

Definition str_of_nat (n : N) : string :=
  NilZero.string_of_uint (N.to_uint n).

(** [int(s)] for a run of ASCII digits. *)
Definition int_of_digits (s : string) : N :=
  match NilZero.uint_of_string s with
  | Some u => N.of_uint u
  | None => 0%N
  end.

End Text.

(** ** SemanticVersion *)

Module SemVer.
Import Text.

(** A [SemanticVersion] is a [str] (its [text], the version as it was
    given) that carries the parsed attributes. *)
Record SemanticVersion : Set := mkSemVer {
  text : string;
  major : N;
  minor : N;
  patch : N;
  pre_release : option string;
  build : option string
}.

(** *** The grammar [_REGEX]

    A numeric group (zero, or a digit run that starts with a non-zero
    digit): a non-empty run of digits without a leading zero. *)
Definition numeric_ok (d : string) : bool :=
  match d with
  | EmptyString => false
  | String c EmptyString => is_digit c
  | String c rest => is_digit c && negb (Ascii.eqb c "0") && all_chars is_digit rest
  end.

(** A pre-release identifier: a numeric group, or a run of letters, digits
    and hyphens with at least one non-digit. *)
Definition pre_ident_ok (i : string) : bool :=
  match i with
  | EmptyString => false
  | _ => all_chars is_ident_char i
         && (negb (all_chars is_digit i) || numeric_ok i)
  end.

(** A build identifier: a non-empty run of letters, digits and hyphens. *)
Definition build_ident_ok (i : string) : bool :=
  match i with
  | EmptyString => false
  | _ => all_chars is_ident_char i
  end.

Definition is_dotted_char (c : ascii) : bool :=
  is_ident_char c || Ascii.eqb c ".".

(** The optional minor and patch groups: absent when the text does not go
    on with a dot, since nothing else of the pattern consumes a dot there;
    after a dot a numeric group must follow. *)
Definition opt_number (s : string) : option (option string * string) :=
  match s with
  | String "." s' =>
      let (d, rest) := span is_digit s' in
      if numeric_ok d then Some (Some d, rest) else None
  | _ => Some (None, s)
  end.

(** The optional pre-release and build groups: the lead character, then
    identifiers separated by dots.  The group takes every following letter,
    digit, hyphen and dot, as the rest of the pattern consumes none. *)
Definition opt_dotted (lead : ascii) (ok : string -> bool) (s : string)
  : option (option string * string) :=
  match s with
  | String c s' =>
      if Ascii.eqb c lead then
        let (t, rest) := span is_dotted_char s' in
        if forallb ok (split "." t) then Some (Some t, rest) else None
      else Some (None, s)
  | EmptyString => Some (None, s)
  end.

(** [$] matches at the end of the text or before a final newline. *)
Definition at_end (s : string) : bool :=
  match s with
  | EmptyString => true
  | String c EmptyString => Ascii.eqb c "010"
  | _ => false
  end.

(** [re.match(_REGEX, version)]: the five groups on success. *)
Definition regex_match (version : string)
  : option (string * option string * option string
            * option string * option string) :=
  let (mj, r0) := span is_digit version in
  if numeric_ok mj then
    match opt_number r0 with
    | Some (mn, r1) =>
        match (match mn with
               | Some _ => opt_number r1
               | None => Some (None, r1)
               end) with
        | Some (pt, r2) =>
            match opt_dotted "-" pre_ident_ok r2 with
            | Some (pre, r3) =>
                match opt_dotted "+" build_ident_ok r3 with
                | Some (bld, r4) =>
                    if at_end r4 then Some (mj, mn, pt, pre, bld) else None
                | None => None
                end
            | None => None
            end
        | None => None
        end
    | None => None
    end
  else None.

Definition int_or_zero (g : option string) : N :=
  match g with
  | Some d => int_of_digits d
  | None => 0%N
  end.

(** [SemanticVersion(version)]: [__init__] with a version text. *)
Definition __init__ (version : string) : result SemanticVersion :=
  match regex_match version with
  | None => Raise ValueError
  | Some (mj, mn, pt, pre, bld) =>
      Ok {| text := version;
            major := int_of_digits mj;
            minor := int_or_zero mn;
            patch := int_or_zero pt;
            pre_release := pre;
            build := bld |}
  end.

(** [__str__] *)
Definition __str__ (v : SemanticVersion) : string :=
  (str_of_nat (major v) ++ "." ++ str_of_nat (minor v) ++ "."
   ++ str_of_nat (patch v)
   ++ match pre_release v with Some p => "-" ++ p | None => "" end
   ++ match build v with Some b => "+" ++ b | None => "" end)%string.

(** *** Rich comparisons *)

Definition opt_str_eqb (a b : option string) : bool :=
  match a, b with
  | None, None => true
  | Some x, Some y => String.eqb x y
  | _, _ => false
  end.

(** [__lt__] *)
Definition __lt__ (self other : SemanticVersion) : bool :=
  if (major self <? major other)%N then true
  else if (major self =? major other)%N then
    if (minor self <? minor other)%N then true
    else if (minor self =? minor other)%N then
      if (patch self <? patch other)%N then true
      else if (patch self =? patch other)%N then
        match pre_release self with
        | None => false
        | Some p =>
            match pre_release other with
            | None => true
            | Some q => String.ltb p q
            end
        end
      else false
    else false
  else false.

(** [__eq__] *)
Definition __eq__ (self other : SemanticVersion) : bool :=
  (major self =? major other)%N
  && (minor self =? minor other)%N
  && (patch self =? patch other)%N
  && opt_str_eqb (pre_release self) (pre_release other).

(** [__le__], [__ne__], [__ge__], [__gt__] *)
Definition __le__ (self other : SemanticVersion) : bool :=
  __lt__ self other || __eq__ self other.
Definition __ne__ (self other : SemanticVersion) : bool :=
  negb (__eq__ self other).
Definition __ge__ (self other : SemanticVersion) : bool :=
  negb (__lt__ self other).
Definition __gt__ (self other : SemanticVersion) : bool :=
  negb (__le__ self other).

(** *** Neighbouring versions *)

Definition valid_part (version_part : string) : bool :=
  String.eqb version_part "major"
  || String.eqb version_part "minor"
  || String.eqb version_part "patch".

Definition render3 (a b c : Z) : string :=
  (str_of_int a ++ "." ++ str_of_int b ++ "." ++ str_of_int c)%string.

(** [next_version] *)
Definition next_version (self : SemanticVersion) (version_part : string)
  : result SemanticVersion :=
  if negb (valid_part version_part) then Raise ValueError
  else
    let next :=
      if String.eqb version_part "major" then
        render3 (Z.of_N (major self) + 1) 0 0
      else if String.eqb version_part "minor" then
        render3 (Z.of_N (major self)) (Z.of_N (minor self) + 1) 0
      else
        render3 (Z.of_N (major self)) (Z.of_N (minor self))
                (Z.of_N (patch self) + 1)
    in __init__ next.

(** [previous_version]; [max_filler] is an [int] or [None]. *)
Definition previous_version (self : SemanticVersion) (version_part : string)
           (max_filler : option Z) : result SemanticVersion :=
  if negb (valid_part version_part) then Raise ValueError
  else
    let filler := match max_filler with Some f => f | None => 99%Z end in
    let borrow_major :=
      render3 (Z.of_N (major self) - 1) filler filler in
    let borrow_minor :=
      render3 (Z.of_N (major self)) (Z.of_N (minor self) - 1) filler in
    let prev :=
      if String.eqb version_part "major" then borrow_major
      else if String.eqb version_part "minor" then
        if (minor self =? 0)%N then borrow_major else borrow_minor
      else
        if (patch self =? 0)%N then
          if (minor self =? 0)%N then borrow_major else borrow_minor
        else
          render3 (Z.of_N (major self)) (Z.of_N (minor self))
                  (Z.of_N (patch self) - 1)
    in __init__ prev.

(** [shortened] *)
Definition shortened (self : SemanticVersion) : string :=
  if (patch self =? 0)%N then
    if (minor self =? 0)%N then str_of_nat (major self)
    else (str_of_nat (major self) ++ "." ++ str_of_nat (minor self))%string
  else (str_of_nat (major self) ++ "." ++ str_of_nat (minor self) ++ "."
        ++ str_of_nat (patch self))%string.

(** The version that [next_version] builds for a valid part. *)
Definition next_triple (self : SemanticVersion) (version_part : string)
  : N * N * N :=
  if String.eqb version_part "major" then (major self + 1, 0, 0)%N
  else if String.eqb version_part "minor" then
    (major self, minor self + 1, 0)%N
  else (major self, minor self, patch self + 1)%N.

Definition of_triple (t : N * N * N) : SemanticVersion :=
  let '(a, b, c) := t in
  {| text := render3 (Z.of_N a) (Z.of_N b) (Z.of_N c);
     major := a; minor := b; patch := c;
     pre_release := None; build := None |}.

(** *** The order in words

    The comparison that the rich comparisons are meant to implement. *)

(** The numeric triples of two versions, compared as tuples. *)
Definition triple_compare (a b : SemanticVersion) : comparison :=
  match (major a ?= major b)%N with
  | Eq => match (minor a ?= minor b)%N with
          | Eq => (patch a ?= patch b)%N
          | c => c
          end
  | c => c
  end.

(** The precedence of pre-releases: a version without one is above any
    version with one; two pre-releases compare as texts. *)
Definition pre_release_lt (p q : option string) : bool :=
  match p, q with
  | None, _ => false
  | Some _, None => true
  | Some x, Some y => String.ltb x y
  end.

Definition with_build (v : SemanticVersion) (b : option string)
  : SemanticVersion :=
  {| text := text v; major := major v; minor := minor v; patch := patch v;
     pre_release := pre_release v; build := b |}.

End SemVer.

Import Text SemVer.

(** ** Specifiers

    [Specifier] and [SpecifierSet] come from the [packaging] library.  They
    are modelled on final releases: a version is a dotted sequence of
    numbers, compared segment by segment after padding with zeros.  Texts
    with pre-release, post-release, local or wildcard parts are outside
    this model and are rejected by it, although the library itself reads
    them (it matches a wildcard by prefix and parses a pre-release or a
    build part).  What is proved of membership and of the validity of a
    specifier is therefore stated for release versions: the statements
    say so through [well_formed], [release_of_text] and a membership that
    returns an answer. *)

Module Specifiers.

Inductive Operator : Set :=
| OpCompatible      (* ~= *)
| OpEqual           (* == *)
| OpNotEqual        (* != *)
| OpLessEqual       (* <= *)
| OpGreaterEqual    (* >= *)
| OpLess            (* <  *)
| OpGreater.        (* >  *)

Definition Operator_eqb (a b : Operator) : bool :=
  match a, b with
  | OpCompatible, OpCompatible | OpEqual, OpEqual
  | OpNotEqual, OpNotEqual | OpLessEqual, OpLessEqual
  | OpGreaterEqual, OpGreaterEqual | OpLess, OpLess
  | OpGreater, OpGreater => true
  | _, _ => false
  end.

Record Specifier : Set := mkSpecifier {
  operator : Operator;
  version : string
}.

(** The release segments of a version text: every part between dots is a
    non-empty run of digits. *)
Definition segment_value (part : string) : option N :=
  match part with
  | EmptyString => None
  | _ => if all_chars is_digit part then Some (int_of_digits part) else None
  end.

Fixpoint segment_values (parts : list string) : option (list N) :=
  match parts with
  | [] => Some []
  | p :: ps =>
      match segment_value p, segment_values ps with
      | Some n, Some ns => Some (n :: ns)
      | _, _ => None
      end
  end.

Definition release_of_text (t : string) : option (list N) :=
  segment_values (split "." t).

(** [Specifier(f"{operator}{version}")] on release versions: the version
    must be a release, and the compatible operator needs at least two
    segments.  A version that is not a release (a wildcard, a pre-release)
    is rejected here although the library may accept it. *)
Definition Specifier_init (op : Operator) (v : string) : result Specifier :=
  match release_of_text v with
  | None => Raise InvalidSpecifier
  | Some r =>
      if Operator_eqb op OpCompatible && (List.length r <? 2)%nat
      then Raise InvalidSpecifier
      else Ok {| operator := op; version := v |}
  end.

(** *** Order of releases *)

Fixpoint lex_compare (a b : list N) : comparison :=
  match a, b with
  | [], [] => Eq
  | [], _ :: _ => Lt
  | _ :: _, [] => Gt
  | x :: a', y :: b' =>
      match (x ?= y)%N with
      | Eq => lex_compare a' b'
      | c => c
      end
  end.

Definition pad (n : nat) (r : list N) : list N :=
  r ++ repeat 0%N (n - List.length r).

Definition release_compare (a b : list N) : comparison :=
  let n := Nat.max (List.length a) (List.length b) in
  lex_compare (pad n a) (pad n b).

Definition release_eqb (a b : list N) : bool :=
  match lex_compare a b with Eq => true | _ => false end.

(** Whether release [r] satisfies one specifier whose version is a
    release.  [~=V] is [>=V] together with a match of all but the last
    segment of [V].  For a version that is not a release the answer
    [false] is not the library's: see [well_formed]. *)
Definition Specifier_contains (r : list N) (s : Specifier) : bool :=
  match release_of_text (version s) with
  | None => false
  | Some v =>
      match operator s with
      | OpEqual => match release_compare r v with Eq => true | _ => false end
      | OpNotEqual => match release_compare r v with Eq => false | _ => true end
      | OpLessEqual => match release_compare r v with Gt => false | _ => true end
      | OpGreaterEqual => match release_compare r v with Lt => false | _ => true end
      | OpLess => match release_compare r v with Lt => true | _ => false end
      | OpGreater => match release_compare r v with Gt => true | _ => false end
      | OpCompatible =>
          let prefix := removelast v in
          match release_compare r v with Lt => false | _ => true end
          && release_eqb (firstn (List.length prefix) (pad (List.length prefix) r)) prefix
      end
  end.

(** A [SpecifierSet], as the sequence in which iterating it yields its
    specifiers. *)
Definition SpecifierSet : Set := list Specifier.

(** [item in specifier_set] for an item that is a release; other items
    are outside the model, which raises for them. *)
Definition SpecifierSet_contains (item : string) (set : SpecifierSet)
  : result bool :=
  match release_of_text item with
  | None => Raise ValueError
  | Some r => Ok (forallb (Specifier_contains r) set)
  end.

(** *** Sets of specifiers

    Two specifiers are the same element of a set when their operators
    agree and their versions agree once trailing zero segments are dropped
    (kept for the compatible operator). *)
Fixpoint strip_zeros (r : list N) : list N :=
  match r with
  | [] => []
  | x :: r' =>
      match strip_zeros r' with
      | [] => if (x =? 0)%N then [] else [x]
      | l => x :: l
      end
  end.

Definition canonical (s : Specifier) : option (list N) :=
  match release_of_text (version s) with
  | Some (x :: r) =>
      match operator s with
      | OpCompatible => Some (x :: r)
      | _ => Some (x :: strip_zeros r)
      end
  | _ => None
  end.

Definition Specifier_eqb (a b : Specifier) : bool :=
  Operator_eqb (operator a) (operator b)
  && match canonical a, canonical b with
     | Some x, Some y => release_eqb x y
     | _, _ => String.eqb (version a) (version b)
     end.

(** [set.remove(specifier)] *)
Definition set_remove (s : Specifier) (set : SpecifierSet) : SpecifierSet :=
  filter (fun x => negb (Specifier_eqb x s)) set.

(** [set |= {specifier}]: an element already there stays as it is. *)
Definition set_add (s : Specifier) (set : SpecifierSet) : SpecifierSet :=
  if existsb (Specifier_eqb s) set then set else set ++ [s].

Definition set_union (set news : SpecifierSet) : SpecifierSet :=
  fold_left (fun acc s => set_add s acc) news set.

(** Equality of specifier sets: the same elements. *)
Definition set_incl (a b : SpecifierSet) : bool :=
  forallb (fun x => existsb (Specifier_eqb x) b) a.
Definition set_eqb (a b : SpecifierSet) : bool :=
  set_incl a b && set_incl b a.

End Specifiers.

Import Specifiers.

(** ** update_specifier_set *)

Module Updater.

(** An entry of [updated_specifiers]: the text of a specifier, or the
    empty text that marks a set that needs no update. *)
Definition updated := option (Operator * string).

(** [".".join(split_latest_version[: len(split_specifier_version)])] *)
Definition truncated (split_latest_version : list string) (specifier : Specifier)
  : string :=
  join "." (firstn (List.length (split "." (version specifier))) split_latest_version).

(** The loop of the branch where the latest version is in the set: the
    result holds [updated_specifiers] and the specifier removed, if any. *)
Fixpoint scan_included (split_latest_version : list string)
         (specifiers : list Specifier) : list updated * option Specifier :=
  match specifiers with
  | [] => ([None], None)
  | specifier :: rest =>
      match operator specifier with
      | OpCompatible | OpEqual =>
          ([Some (operator specifier,
                  truncated split_latest_version specifier)],
           Some specifier)
      | _ => scan_included split_latest_version rest
      end
  end.

(** The loop of the branch where the latest version is not in the set. *)
Fixpoint scan_not_included (latest_version : SemanticVersion)
         (split_latest_version : list string) (specifiers : list Specifier)
  : result (list updated * option Specifier) :=
  match specifiers with
  | [] => Ok ([], None)
  | specifier :: rest =>
      match operator specifier with
      | OpLessEqual =>
          Ok ([Some (OpLessEqual, truncated split_latest_version specifier)],
              Some specifier)
      | OpLess =>
          let n := List.length (split "." (version specifier)) in
          updated_version <-
            (if (n =? 1)%nat then
               nv <- next_version latest_version "major" ;;
               Ok (str_of_nat (major nv))
             else if (n =? 2)%nat then
               nv <- next_version latest_version "minor" ;;
               Ok (join "." (firstn 2 (split "." (text nv))))
             else if (n =? 3)%nat then
               nv <- next_version latest_version "patch" ;;
               Ok (__str__ nv)
             else Raise UnableToResolve) ;;
          Ok ([Some (OpLess, updated_version)], Some specifier)
      | OpCompatible =>
          current_version <- __init__ (version specifier) ;;
          if (major current_version <? major latest_version)%N then
            nv <- next_version latest_version "major" ;;
            Ok ([Some (OpGreaterEqual, __str__ current_version);
                 Some (OpLess, str_of_nat (major nv))],
                Some specifier)
          else
            Ok ([Some (OpCompatible,
                       truncated split_latest_version specifier)],
                Some specifier)
      | _ => scan_not_included latest_version split_latest_version rest
      end
  end.

(** [set(Specifier(_) for _ in updated_specifiers)], in order. *)
Fixpoint new_specifiers (updated_specifiers : list updated)
  : result (list Specifier) :=
  match updated_specifiers with
  | [] => Ok []
  | None :: _ => Raise InvalidSpecifier
  | Some (op, v) :: rest =>
      s <- Specifier_init op v ;;
      ss <- new_specifiers rest ;;
      Ok (s :: ss)
  end.

Definition is_marker (updated_specifiers : list updated) : bool :=
  match updated_specifiers with
  | [None] => true
  | _ => false
  end.

Definition update_specifier_set (latest_version : string)
           (current_specifier_set : SpecifierSet) : result SpecifierSet :=
  latest <- __init__ latest_version ;;
  let split_latest_version := split "." latest_version in
  included <- SpecifierSet_contains latest_version current_specifier_set ;;
  scanned <-
    (if included : bool
     then Ok (scan_included split_latest_version current_specifier_set)
     else scan_not_included latest split_latest_version
                            current_specifier_set) ;;
  let (updated_specifiers, removed) := scanned in
  let new_specifier_set :=
    match removed with
    | Some specifier => set_remove specifier current_specifier_set
    | None => current_specifier_set
    end in
  match updated_specifiers with
  | [] => Raise UnableToResolve
  | _ =>
      if is_marker updated_specifiers then Ok new_specifier_set
      else
        news <- new_specifiers updated_specifiers ;;
        Ok (set_union new_specifier_set news)
  end.

(** The operators each loop looks for, and the sets the library can build. *)
Definition pinning (s : Specifier) : bool :=
  match operator s with
  | OpCompatible | OpEqual => true
  | _ => false
  end.

Definition bounding (s : Specifier) : bool :=
  match operator s with
  | OpLessEqual | OpLess | OpCompatible => true
  | _ => false
  end.

Definition rewritable (s : Specifier) : bool := pinning s || bounding s.

Definition well_formed (s : Specifier) : bool :=
  match Specifier_init (operator s) (version s) with
  | Ok _ => true
  | Raise _ => false
  end.

End Updater.

Import Updater.

Open Scope string_scope.

(** ** The ignore evaluator *)

Module Ignore.

(** A parsed [versions] rule: an operator and a version text. *)
Definition version_rule : Set := (Operator * string)%type.

Fixpoint rule_specifiers (version_rules : list version_rule)
  : result (list Specifier) :=
  match version_rules with
  | [] => Ok []
  | (op, v) :: rest =>
      s <- Specifier_init op v ;;
      ss <- rule_specifiers rest ;;
      Ok (s :: ss)
  end.

Definition _ignore_version_rules_specifier_set (latest : list string)
           (version_rules : list version_rule) : result bool :=
  match version_rules with
  | [] => Ok false
  | _ =>
      match rule_specifiers version_rules with
      | Raise _ => Raise InputError
      | Ok specifier_set =>
          v <- __init__ (join "." latest) ;;
          SpecifierSet_contains (text v) specifier_set
      end
  end.

Definition mem (x : string) (l : list string) : bool :=
  existsb (String.eqb x) l.

(** [l[i]] *)
Definition item (l : list string) (i : nat) : result string :=
  match nth_error l i with
  | Some x => Ok x
  | None => Raise IndexError
  end.

(** [a > b] on [str]. *)
Definition str_gt (a b : string) : bool := String.ltb b a.

(** [semver_rules] is the list under the key [version-update]. *)
Definition _ignore_semver_rules (current latest : list string)
           (semver_rules : list string) : result bool :=
  if existsb (fun x => negb (mem x ["major"; "minor"; "patch"]%string))
             semver_rules
  then Raise InputParserError
  else if mem "major" semver_rules then
    l0 <- item latest 0 ;;
    c0 <- item current 0 ;;
    if negb (String.eqb l0 c0) then Ok true else Ok false
  else if mem "minor" semver_rules then
    if (2 <=? List.length latest)%nat && (2 <=? List.length current)%nat
       && str_gt (nth 1 latest "") (nth 1 current "")
       && String.eqb (nth 0 latest "") (nth 0 current "")
    then Ok true else Ok false
  else if mem "patch" semver_rules then
    if (3 <=? List.length latest)%nat && (3 <=? List.length current)%nat
       && str_gt (nth 2 latest "") (nth 2 current "")
       && String.eqb (nth 0 latest "") (nth 0 current "")
       && String.eqb (nth 1 latest "") (nth 1 current "")
    then Ok true else Ok false
  else Ok false.

(** [semver_rules] is a dict that is empty ([None]) or holds the key
    [version-update]. *)
Definition ignore_version (current latest : list string)
           (version_rules : list version_rule)
           (semver_rules : option (list string)) : result bool :=
  match version_rules, semver_rules with
  | [], None => Ok true
  | _, _ =>
      by_version <- _ignore_version_rules_specifier_set latest version_rules ;;
      if by_version : bool then Ok true
      else
        match semver_rules with
        | Some rules =>
            by_semver <- _ignore_semver_rules current latest rules ;;
            if by_semver : bool then Ok true else Ok false
        | None => Ok false
        end
  end.

End Ignore.

Import Ignore.

(** ** find_minimum_py_version *)

Module MinPy.

Section Search.

(** [marker.evaluate] with [python_version] bound to the candidate. *)
Variable marker : SemanticVersion -> bool.
Variable split_py_version : list string.

Definition _next_version (_version : SemanticVersion)
  : result SemanticVersion :=
  if (List.length split_py_version =? 1)%nat then
    next_version _version "major"
  else if (List.length split_py_version =? 2)%nat then
    next_version _version "minor"
  else next_version _version "patch".

Definition _semi_valid_python_version (_version : SemanticVersion) : bool :=
  if negb ((1 <=? major _version)%N && (major _version <=? 3)%N) then false
  else if negb (minor _version <=? 12)%N then false
  else if negb (patch _version <=? 18)%N then false
  else true.

(** The [while] loop, run for at most [fuel] turns: [None] when the loop
    is still running after them. *)
Fixpoint search (fuel : nat) (min_py_version : SemanticVersion)
  : option (result string) :=
  if negb (_semi_valid_python_version min_py_version)
     || negb (marker min_py_version)
  then
    match fuel with
    | O => None
    | S fuel' =>
        match _next_version min_py_version with
        | Ok v => search fuel' v
        | Raise e => Some (Raise e)
        end
    end
  else Some (Ok (shortened min_py_version)).

End Search.

(** The candidates of the search: each is the version after the one before,
    at the granularity of the project version. *)
Definition advance (split_py_version : list string) (v : SemanticVersion)
  : SemanticVersion :=
  of_triple
    (next_triple v
       (if (List.length split_py_version =? 1)%nat then "major"
        else if (List.length split_py_version =? 2)%nat then "minor"
        else "patch")).

Fixpoint candidate (split_py_version : list string) (v : SemanticVersion)
         (k : nat) : SemanticVersion :=
  match k with
  | O => v
  | S k' => candidate split_py_version (advance split_py_version v) k'
  end.

Definition accepted (marker : SemanticVersion -> bool) (v : SemanticVersion)
  : bool :=
  _semi_valid_python_version v && marker v.

Definition find_minimum_py_version (marker : SemanticVersion -> bool)
           (project_py_version : string) (fuel : nat)
  : option (result string) :=
  let split_py_version := split "." project_py_version in
  match __init__ project_py_version with
  | Raise e => Some (Raise e)
  | Ok min_py_version => search marker split_py_version fuel min_py_version
  end.

End MinPy.

Import MinPy.

(** * More of the module *)

(** ** The text of a parsed version *)

Module SemVerMore.

(** What the grammar guarantees of a pre-release or build group: dotted
    identifiers, each accepted by the check of its kind. *)
Definition group_ok (ok : string -> bool) (g : option string) : bool :=
  match g with
  | None => true
  | Some t => all_chars is_dotted_char t && forallb ok (split "." t)
  end.

Definition grammar_ok (v : SemanticVersion) : bool :=
  group_ok pre_ident_ok (pre_release v)
  && group_ok build_ident_ok (build v).

Definition with_text (v : SemanticVersion) (t : string) : SemanticVersion :=
  {| text := t; major := major v; minor := minor v; patch := patch v;
     pre_release := pre_release v; build := build v |}.

End SemVerMore.

Import SemVerMore.

(** ** Releases of versions *)

Module ReleaseMore.

(** The numbers of a version, as a release of three segments. *)
Definition triple (v : SemanticVersion) : list N :=
  [major v; minor v; patch v].


End ReleaseMore.

Import ReleaseMore.

(** ** Starting points of the search *)

Module SearchMore.

(** Versions from which no semi-valid version is reached: the major is
    above 3, or it is 0 and the steps do not change it. *)
Definition stuck (sp : list string) (v : SemanticVersion) : Prop :=
  (3 < major v)%N \/ (major v = 0%N /\ List.length sp <> 1%nat).

End SearchMore.

Import SearchMore.

(** ** get_min_max_py_version *)

Module MinMax.

(** The loop of [get_min_max_py_version] over the specifier set built from
    [requires_python], in the order in which iterating it yields its
    specifiers.  The first specifier with an operator other than [!=]
    decides; the [else] of the loop raises. *)
Fixpoint get_min_max_py_version (specifier_set : SpecifierSet)
  : result string :=
  match specifier_set with
  | [] => Raise UnableToResolve
  | specifier :: rest =>
      match operator specifier with
      | OpGreaterEqual | OpEqual | OpCompatible => Ok (version specifier)
      | OpGreater =>
          let split_version := split "." (version specifier) in
          parsed_version <- __init__ (version specifier) ;;
          if (List.length split_version =? 1)%nat then
            nv <- next_version parsed_version "major" ;;
            Ok (str_of_nat (major nv))
          else if (List.length split_version =? 2)%nat then
            nv <- next_version parsed_version "minor" ;;
            Ok (join "." (firstn 2 (split "." (text nv))))
          else if (List.length split_version =? 3)%nat then
            nv <- next_version parsed_version "patch" ;;
            Ok (__str__ nv)
          else Ok ""
      | OpLessEqual => Ok (version specifier)
      | OpLess =>
          let split_version := split "." (version specifier) in
          parsed_version <- __init__ (version specifier) ;;
          zero <- __init__ "0" ;;
          if __eq__ parsed_version zero then Raise UnableToResolve
          else if (List.length split_version =? 1)%nat then
            pv <- previous_version parsed_version "major" None ;;
            Ok (__str__ pv)
          else if (List.length split_version =? 2)%nat then
            pv <- previous_version parsed_version "minor" None ;;
            Ok (__str__ pv)
          else if (List.length split_version =? 3)%nat then
            pv <- previous_version parsed_version "patch" None ;;
            Ok (__str__ pv)
          else Ok ""
      | OpNotEqual => get_min_max_py_version rest
      end
  end.

Definition decisive (s : Specifier) : bool :=
  negb (Operator_eqb (operator s) OpNotEqual).

End MinMax.

Import MinMax.

(** ** The version rules, evaluated on semantic versions *)

Module IgnoreSemver.







(** A rule with the operator [~=] on a version of a single segment. *)
Definition single_segment_compatible (rule : version_rule) : bool :=
  Operator_eqb (fst rule) OpCompatible
  && match release_of_text (snd rule) with
     | Some rv => (List.length rv <? 2)%nat
     | None => false
     end.

Definition rule_specifier (rule : version_rule) : Specifier :=
  {| operator := fst rule; version := snd rule |}.

End IgnoreSemver.

Import IgnoreSemver.

(** ** Parsing and creating ignore rules *)

Module ParseRules.

(** The ignore rules of one package: a dict that may hold the keys
    [versions] and [update-types], each with a list of texts. *)
Record IgnoreRules : Set := mkIgnoreRules {
  versions : option (list string);
  update_types : option (list string)
}.

(** The whitespace class of [re] on text: the characters for which
    [str.isspace] holds, among the characters with a code below 256. *)
Definition is_space (c : ascii) : bool :=
  (((9 <=? N_of_ascii c) && (N_of_ascii c <=? 13))
   || ((28 <=? N_of_ascii c) && (N_of_ascii c <=? 32))
   || (N_of_ascii c =? 133) || (N_of_ascii c =? 160))%N.

(** What follows the prefix [p] in [s]. *)
Fixpoint strip_prefix (p s : string) : option string :=
  match p, s with
  | EmptyString, _ => Some s
  | String a p', String b s' =>
      if Ascii.eqb a b then strip_prefix p' s' else None
  | String _ _, EmptyString => None
  end.

(** One group of a dot and a run of digits. *)
Definition dot_digits (s : string) : option (string * string) :=
  match s with
  | String "." s' =>
      match span is_digit s' with
      | (EmptyString, _) => None
      | (d, rest) => Some (String "." d, rest)
      end
  | _ => None
  end.

(** At most [n] such groups, as many as there are. *)
Fixpoint dot_groups (n : nat) (s : string) : string * string :=
  match n with
  | O => (EmptyString, s)
  | S n' =>
      match dot_digits s with
      | Some (g, rest) =>
          let (gs, rest') := dot_groups n' rest in ((g ++ gs)%string, rest')
      | None => (EmptyString, s)
      end
  end.

(** What follows the operator in a [versions] entry: whitespace, then the
    group [version] of one to three runs of digits separated by dots, then
    the end of the text.  The classes of neighbouring parts are disjoint,
    so the longest match of each part is the only one that can succeed. *)
Definition version_tail (s : string) : option string :=
  let (_, r0) := span is_space s in
  match span is_digit r0 with
  | (EmptyString, _) => None
  | (number, r1) =>
      let (gs, r2) := dot_groups 2 r1 in
      if at_end r2 then Some (number ++ gs)%string else None
  end.

(** The alternatives of the group [operator], in the order of the pattern. *)
Definition operators : list (string * Operator) :=
  [(">", OpGreater); ("<", OpLess); ("<=", OpLessEqual);
   (">=", OpGreaterEqual); ("==", OpEqual); ("!=", OpNotEqual);
   ("~=", OpCompatible)].

(** The first alternative with which the whole pattern matches. *)
Fixpoint match_operator (alternatives : list (string * Operator))
         (versions_entry : string) : option version_rule :=
  match alternatives with
  | [] => None
  | (t, op) :: rest =>
      match strip_prefix t versions_entry with
      | Some tail =>
          match version_tail tail with
          | Some v => Some (op, v)
          | None => match_operator rest versions_entry
          end
      | None => match_operator rest versions_entry
      end
  end.

Fixpoint parse_versions (entries : list string) : result (list version_rule) :=
  match entries with
  | [] => Ok []
  | versions_entry :: rest =>
      match match_operator operators versions_entry with
      | None => Raise InputParserError
      | Some rule =>
          rules <- parse_versions rest ;;
          Ok (rule :: rules)
      end
  end.

(** The pattern of an [update-types] entry: the group [semver_part]. *)
Definition match_update_type (update_type_entry : string) : option string :=
  match strip_prefix "version-update:semver-" update_type_entry with
  | Some tail =>
      find (fun part =>
              match strip_prefix part tail with
              | Some rest => at_end rest
              | None => false
              end)
           ["major"; "minor"; "patch"]
  | None => None
  end.

Fixpoint parse_update_types (entries : list string) : result (list string) :=
  match entries with
  | [] => Ok []
  | update_type_entry :: rest =>
      match match_update_type update_type_entry with
      | None => Raise InputParserError
      | Some part =>
          parts <- parse_update_types rest ;;
          Ok (part :: parts)
      end
  end.

(** The parsed [versions] and the parsed [update-types]: the second is
    the list under the key [version-update], [None] for the empty dict. *)
Definition parse_ignore_rules (rules : IgnoreRules)
  : result (list version_rule * option (list string)) :=
  match versions rules, update_types rules with
  | None, None => Ok ([(OpGreaterEqual, "0")], None)
  | _, _ =>
      parsed_versions <-
        match versions rules with
        | Some entries => parse_versions entries
        | None => Ok []
        end ;;
      parsed_update_types <-
        match update_types rules with
        | Some entries =>
            parts <- parse_update_types entries ;;
            Ok (Some parts)
        | None => Ok None
        end ;;
      Ok (parsed_versions, parsed_update_types)
  end.

Definition create_ignore_rules (specifier_set : SpecifierSet) : IgnoreRules :=
  {| versions :=
       Some (map (fun specifier => ("==" ++ version specifier)%string)
                 (filter (fun specifier =>
                            Operator_eqb (operator specifier) OpNotEqual)
                         specifier_set));
     update_types := None |}.

(** [ignore_version] on what [parse_ignore_rules] returns. *)
Definition ignore_parsed (current latest : list string) (rules : IgnoreRules)
  : result bool :=
  parsed <- parse_ignore_rules rules ;;
  ignore_version current latest (fst parsed) (snd parsed).

(** A rule whose version is a release of one to three segments. *)
Definition release_rule (rule : version_rule) : bool :=
  match release_of_text (snd rule) with
  | Some rv => (1 <=? List.length rv)%nat && (List.length rv <=? 3)%nat
  | None => false
  end.

Definition known_update_type (part : string) : bool :=
  mem part ["major"; "minor"; "patch"].

Definition excluding (specifier : Specifier) : bool :=
  Operator_eqb (operator specifier) OpNotEqual.

End ParseRules.

Import ParseRules.

(** ** Versions built from their parts *)

Module Keywords.

(** [_build_version]: the text of a version from the keyword arguments,
    given as integers that are not negative and as texts. *)
Definition _build_version (major minor patch : option N)
           (pre_release build : option string) : result string :=
  match major with
  | None => Raise ValueError
  | Some mj =>
      let version := str_of_nat mj in
      let version :=
        match minor with
        | Some mn => (version ++ "." ++ str_of_nat mn)%string
        | None => version
        end in
      version <-
        match patch with
        | Some pt =>
            match minor with
            | None => Raise ValueError
            | Some _ => Ok (version ++ "." ++ str_of_nat pt)%string
            end
        | None => Ok version
        end ;;
      version <-
        match pre_release with
        | Some pre =>
            match patch with
            | None => Raise ValueError
            | Some _ => Ok (version ++ "-" ++ pre)%string
            end
        | None => Ok version
        end ;;
      match build with
      | Some b =>
          match patch with
          | None => Raise ValueError
          | Some _ => Ok (version ++ "+" ++ b)%string
          end
      | None => Ok version
      end
  end.

(** [x if x else None] on an optional text. *)
Definition text_or_none (x : option string) : option string :=
  match x with
  | Some EmptyString => None
  | _ => x
  end.

(** [SemanticVersion(major=..., minor=..., patch=..., pre_release=...,
    build=...)]: [__new__] builds the text with [_build_version], and
    [__init__], without a version text, takes the attributes from the
    arguments. *)
Definition from_keywords (major minor patch : option N)
           (pre_release build : option string) : result SemanticVersion :=
  version <- _build_version major minor patch pre_release build ;;
  match major with
  | None => Raise ValueError
  | Some mj =>
      Ok (mkSemVer version mj
                   (match minor with Some mn => mn | None => 0%N end)
                   (match patch with Some pt => pt | None => 0%N end)
                   (text_or_none pre_release) (text_or_none build))
  end.

End Keywords.

Import Keywords.

(** ** Parsing the entries of the ignore option *)

Module Entries.

(** What [parse_ignore_entries] can raise: the exceptions of the module,
    and the [KeyError] of a dict lookup. *)
Inductive raised : Set :=
| Declared (e : exn)
| KeyError.

Inductive outcome (A : Type) : Type :=
| Returns (a : A)
| Raises (e : raised).

Arguments Returns {A} a.
Arguments Raises {A} e.

(** A dict with text keys, as its items in insertion order. *)
Definition dict (V : Type) : Type := list (string * V).

Fixpoint lookup {V : Type} (key : string) (d : dict V) : option V :=
  match d with
  | [] => None
  | (k, v) :: rest => if String.eqb k key then Some v else lookup key rest
  end.

Definition has_key {V : Type} (key : string) (d : dict V) : bool :=
  match lookup key d with
  | Some _ => true
  | None => false
  end.

(** [d[key] = v]: an old key keeps its place, a new key goes last. *)
Fixpoint store {V : Type} (key : string) (v : V) (d : dict V) : dict V :=
  match d with
  | [] => [(key, v)]
  | (k, w) :: rest =>
      if String.eqb k key then (k, v) :: rest
      else (k, w) :: store key v rest
  end.

(** The dict without [key]. *)
Definition without {V : Type} (key : string) (d : dict V) : dict V :=
  filter (fun kv => negb (String.eqb (fst kv) key)) d.

(** The leftmost occurrence of a separator that is not empty: what is
    before it and what is after it. *)
Fixpoint partition (sep s : string) : option (string * string) :=
  match strip_prefix sep s with
  | Some rest => Some (EmptyString, rest)
  | None =>
      match s with
      | EmptyString => None
      | String c s' =>
          match partition sep s' with
          | Some (before, rest) => Some (String c before, rest)
          | None => None
          end
      end
  end.

(** [separator in pair] *)
Definition occurs (sep s : string) : bool :=
  match partition sep s with
  | Some _ => true
  | None => false
  end.

(** [s.split(sep, maxsplit)] for a separator that is not empty. *)
Fixpoint split_max (sep : string) (maxsplit : nat) (s : string)
  : list string :=
  match maxsplit with
  | O => [s]
  | S m =>
      match partition sep s with
      | Some (before, rest) => before :: split_max sep m rest
      | None => [s]
      end
  end.

(** [s.strip()] *)
Definition lstrip (s : string) : string := snd (span is_space s).

Fixpoint rstrip (s : string) : string :=
  match s with
  | EmptyString => EmptyString
  | String c s' =>
      match rstrip s' with
      | EmptyString => if is_space c then EmptyString else String c EmptyString
      | kept => String c kept
      end
  end.

Definition strip (s : string) : string := rstrip (lstrip s).

Definition is_not_newline (c : ascii) : bool := negb (Ascii.eqb c "010").

(** The pattern of a pair: one of the three keys, the equals sign, and as
    the value every character up to the end of the text, which may be
    followed by one final newline; the dot of the pattern matches no
    newline. *)
Definition match_pair (pair : string) : option (string * string) :=
  match
    find (fun key =>
            match strip_prefix key pair with
            | Some (String "=" tail) => at_end (snd (span is_not_newline tail))
            | _ => false
            end)
         ["dependency-name"; "versions"; "update-types"]
  with
  | Some key =>
      match strip_prefix key pair with
      | Some (String "=" tail) => Some (key, fst (span is_not_newline tail))
      | _ => None
      end
  | None => None
  end.

(** The second loop over the pairs of an entry. *)
Fixpoint collect (pairs : list string) (ignore_entry : dict string)
  : result (dict string) :=
  match pairs with
  | [] => Ok ignore_entry
  | one_pair :: rest =>
      match match_pair one_pair with
      | None => Raise InputParserError
      | Some (key, value) =>
          if has_key key ignore_entry then Raise InputParserError
          else collect rest (store key (strip value) ignore_entry)
      end
  end.

(** One entry, up to the removal of the dependency name from it. *)
Definition parse_entry (separator entry : string)
  : result (string * dict string) :=
  match separator with
  | EmptyString => Raise ValueError
  | _ =>
      let pairs := split_max separator 2 entry in
      if existsb (occurs separator) pairs then Raise InputParserError
      else
        ignore_entry <- collect pairs [] ;;
        match lookup "dependency-name" ignore_entry with
        | None => Raise InputError
        | Some dependency_name =>
            Ok (dependency_name, without "dependency-name" ignore_entry)
        end
  end.

(** [rules[key].append(value)] for every item of the entry: [None] is the
    [KeyError] of a key that the rules do not hold. *)
Fixpoint append_values (ignore_entry : dict string)
         (rules : dict (list string)) : option (dict (list string)) :=
  match ignore_entry with
  | [] => Some rules
  | (key, value) :: rest =>
      match lookup key rules with
      | None => None
      | Some values =>
          append_values rest (store key (values ++ [value])%list rules)
      end
  end.

(** The end of the loop body: the entry goes into the collection. *)
Definition add_entry (ignore_entries : dict (dict (list string)))
           (dependency_name : string) (ignore_entry : dict string)
  : outcome (dict (dict (list string))) :=
  match lookup dependency_name ignore_entries with
  | None =>
      Returns (store dependency_name
                     (map (fun kv => (fst kv, [snd kv])) ignore_entry)
                     ignore_entries)
  | Some rules =>
      match append_values ignore_entry rules with
      | None => Raises KeyError
      | Some rules' => Returns (store dependency_name rules' ignore_entries)
      end
  end.

Fixpoint parse_from (ignore_entries : dict (dict (list string)))
         (entries : list string) (separator : string)
  : outcome (dict (dict (list string))) :=
  match entries with
  | [] => Returns ignore_entries
  | entry :: rest =>
      match parse_entry separator entry with
      | Raise e => Raises (Declared e)
      | Ok (dependency_name, ignore_entry) =>
          match add_entry ignore_entries dependency_name ignore_entry with
          | Raises e => Raises e
          | Returns ignore_entries' =>
              parse_from ignore_entries' rest separator
          end
      end
  end.

Definition parse_ignore_entries (entries : list string) (separator : string)
  : outcome (dict (dict (list string))) :=
  parse_from [] entries separator.

(** The values that the entries give for a key of a package, in the order
    of the entries. *)
Definition values_of (dependency_name key : string)
           (parsed : list (string * dict string)) : list string :=
  flat_map (fun entry =>
              if String.eqb (fst entry) dependency_name then
                match lookup key (snd entry) with
                | Some value => [value]
                | None => []
                end
              else [])
           parsed.

(** A collection holds what the parsed entries say: its packages are the
    packages of the entries, and under every key of a package are the
    values that the entries give for it, in their order. *)
Definition grouped (collection : dict (dict (list string)))
           (parsed : list (string * dict string)) : Prop :=
  (forall name,
      has_key name collection
      = existsb (fun entry => String.eqb (fst entry) name) parsed)
  /\ (forall name rules key,
         lookup name collection = Some rules ->
         values_of name key parsed
         = match lookup key rules with
           | Some values => values
           | None => []
           end).

End Entries.

Import Entries.

(** ** Regenerating a requirement *)

Module Regenerate.

(** The attributes of a requirement that the function reads.  The two
    sets are given as the sequences in which iterating them yields their
    elements; a marker is given by its text. *)
Record Requirement : Set := mkRequirement {
  name : string;
  extras : list string;
  specifier : SpecifierSet;
  url : option string;
  marker : option string
}.

(** [str(specifier)] *)
Definition operator_text (op : Operator) : string :=
  match op with
  | OpCompatible => "~="
  | OpEqual => "=="
  | OpNotEqual => "!="
  | OpLessEqual => "<="
  | OpGreaterEqual => ">="
  | OpLess => "<"
  | OpGreater => ">"
  end.

Definition Specifier_str (s : Specifier) : string :=
  (operator_text (operator s) ++ version s)%string.

(** [sorted]: a stable sort.  [before y x] says that [y] goes strictly
    before [x]; an element stays in front of the later elements that are
    neither before nor after it. *)
Fixpoint insert {A : Type} (before : A -> A -> bool) (x : A) (l : list A)
  : list A :=
  match l with
  | [] => [x]
  | y :: l' =>
      if before y x then y :: insert before x l' else x :: y :: l'
  end.

Fixpoint sorted {A : Type} (before : A -> A -> bool) (l : list A) : list A :=
  match l with
  | [] => []
  | x :: l' => insert before x (sorted before l')
  end.

(** The order of [sorted(extras)]. *)
Definition text_before (a b : string) : bool := String.ltb a b.

(** The order of [sorted(..., key=lambda spec: spec.operator,
    reverse=True)]. *)
Definition operator_after (a b : Specifier) : bool :=
  String.ltb (operator_text (operator b)) (operator_text (operator a)).

(** [x or y] on texts and on sets: the first when it is given and not
    empty. *)
Definition text_or (x : option string) (y : option string) : option string :=
  match x with
  | Some (String _ _) => x
  | _ => match y with
         | Some (String _ _) => y
         | _ => None
         end
  end.

Definition set_or {A : Type} (x : option (list A)) (y : list A) : list A :=
  match x with
  | Some ((_ :: _) as given) => given
  | _ => y
  end.

(** The keyword arguments are optional; a specifier set is given as a
    set. *)
Definition regenerate_requirement (requirement : Requirement)
           (new_name : option string) (new_extras : option (list string))
           (new_specifier : option SpecifierSet)
           (new_url new_marker : option string) (post_name_space : bool)
  : string :=
  let updated_dependency :=
    match text_or new_name (Some (name requirement)) with
    | Some t => t
    | None => name requirement
    end in
  let updated_dependency :=
    match set_or new_extras (extras requirement) with
    | [] => updated_dependency
    | chosen =>
        (updated_dependency ++ "[" ++ join "," (sorted text_before chosen)
                            ++ "]")%string
    end in
  let updated_dependency :=
    if post_name_space then (updated_dependency ++ " ")%string
    else updated_dependency in
  let updated_dependency :=
    match set_or new_specifier (specifier requirement) with
    | [] => updated_dependency
    | chosen =>
        (updated_dependency
           ++ join "," (map Specifier_str (sorted operator_after chosen)))%string
    end in
  let updated_dependency :=
    match text_or new_url (url requirement) with
    | Some chosen =>
        let with_url := (updated_dependency ++ "@ " ++ chosen)%string in
        match text_or new_marker (marker requirement) with
        | Some _ => (with_url ++ " ")%string
        | None => with_url
        end
    | None => updated_dependency
    end in
  match text_or new_marker (marker requirement) with
  | Some chosen => (updated_dependency ++ "; " ++ chosen)%string
  | None => updated_dependency
  end.

(** Two sequences of the same elements, none of them twice. *)
Definition same_set {A : Type} (a b : list A) : Prop :=
  NoDup a /\ NoDup b /\ forall x, In x a <-> In x b.

End Regenerate.

(** * Properties *)

(** ** The functions on the scenarios of the specification *)

Module Scenarios.

Example parse_defaults :
  __init__ "1.5" = Ok (mkSemVer "1.5" 1 5 0 None None)
  /\ (v <- __init__ "1.5" ;; Ok (__str__ v)) = Ok "1.5.0".
Proof. split; reflexivity. Qed.

Example parse_pre_release_and_build :
  __init__ "1.2.3-alpha.1+b.01"
  = Ok (mkSemVer "1.2.3-alpha.1+b.01" 1 2 3 (Some "alpha.1") (Some "b.01")).
Proof. reflexivity. Qed.

Example parse_rejects_leading_zero :
  __init__ "01.2" = Raise ValueError
  /\ __init__ "1.2.3-alpha.01" = Raise ValueError.
Proof. split; reflexivity. Qed.

Example previous_version_borrows :
  (v <- __init__ "1.0.0" ;; previous_version v "patch" None)
  = Ok (mkSemVer "0.99.99" 0 99 99 None None).
Proof. reflexivity. Qed.

Example less_equal_bound_expansion :
  update_specifier_set "2.0.0"
    [mkSpecifier OpGreaterEqual "1.0"; mkSpecifier OpLessEqual "1.5"]
  = Ok [mkSpecifier OpGreaterEqual "1.0"; mkSpecifier OpLessEqual "2.0"].
Proof. reflexivity. Qed.

Example less_bound_single_segment :
  update_specifier_set "2.2.2" [mkSpecifier OpLess "3"]
  = Ok [mkSpecifier OpLess "3"]
  /\ update_specifier_set "3.5.0" [mkSpecifier OpLess "3"]
     = Ok [mkSpecifier OpLess "4"].
Proof. split; reflexivity. Qed.

Example less_bound_two_and_three_segments :
  update_specifier_set "3.5.0" [mkSpecifier OpLess "3.1"]
  = Ok [mkSpecifier OpLess "3.6"]
  /\ update_specifier_set "3.5.0" [mkSpecifier OpLess "3.1.4"]
     = Ok [mkSpecifier OpLess "3.5.1"].
Proof. split; reflexivity. Qed.

Example only_lower_bound_is_unresolvable :
  update_specifier_set "3.5.0" [mkSpecifier OpGreaterEqual "3.6"]
  = Raise UnableToResolve.
Proof. reflexivity. Qed.

Example blanket_ignore :
  ignore_version ["1"; "1"; "1"] ["1"; "1"; "2"] [] None = Ok true.
Proof. reflexivity. Qed.

Example ignore_by_version_rule :
  ignore_version ["1"; "1"; "1"] ["2"; "2"; "2"] [(OpGreater, "2.2")] None
  = Ok true
  /\ ignore_version ["1"; "1"; "1"] ["2"; "2"; "2"] [(OpEqual, "2.2")] None
     = Ok false.
Proof. split; reflexivity. Qed.

Example minimum_python_version :
  find_minimum_py_version (fun v => (8 <=? minor v)%N) "3.7" 10
  = Some (Ok "3.8").
Proof. reflexivity. Qed.

End Scenarios.

(** ** Order of texts *)

Module TextOrder.

Lemma ascii_compare_refl (c : ascii) : Ascii.compare c c = Eq.
Proof. unfold Ascii.compare. apply N.compare_refl. Qed.

Lemma ascii_compare_lt_trans (a b c : ascii) :
  Ascii.compare a b = Lt -> Ascii.compare b c = Lt -> Ascii.compare a c = Lt.
Proof.
  unfold Ascii.compare. rewrite !N.compare_lt_iff. lia.
Qed.

Lemma compare_refl (s : string) : String.compare s s = Eq.
Proof.
  induction s as [|c s IH]; simpl; [reflexivity|].
  now rewrite ascii_compare_refl.
Qed.

Lemma compare_lt_trans (s1 : string) :
  forall s2 s3,
    String.compare s1 s2 = Lt -> String.compare s2 s3 = Lt ->
    String.compare s1 s3 = Lt.
Proof.
  induction s1 as [|c1 s1 IH]; intros [|c2 s2] [|c3 s3]; simpl;
    try discriminate; try reflexivity.
  destruct (Ascii.compare c1 c2) eqn:E12; try discriminate;
    destruct (Ascii.compare c2 c3) eqn:E23; try discriminate; intros H1 H2.
  - apply Ascii.compare_eq_iff in E12, E23. subst.
    rewrite ascii_compare_refl. eauto.
  - apply Ascii.compare_eq_iff in E12. subst. now rewrite E23.
  - apply Ascii.compare_eq_iff in E23. subst. now rewrite E12.
  - now rewrite (ascii_compare_lt_trans _ _ _ E12 E23).
Qed.

Lemma ltb_irrefl (s : string) : String.ltb s s = false.
Proof. unfold String.ltb. now rewrite compare_refl. Qed.

Lemma ltb_trans (s1 s2 s3 : string) :
  String.ltb s1 s2 = true -> String.ltb s2 s3 = true ->
  String.ltb s1 s3 = true.
Proof.
  unfold String.ltb.
  destruct (String.compare s1 s2) eqn:E12; try discriminate.
  destruct (String.compare s2 s3) eqn:E23; try discriminate.
  now rewrite (compare_lt_trans _ _ _ E12 E23).
Qed.

(** Of two texts, one is before the other or they are equal. *)
Lemma ltb_total (s1 s2 : string) :
  String.ltb s2 s1 = negb (String.ltb s1 s2 || String.eqb s1 s2).
Proof.
  unfold String.ltb. rewrite (String.compare_antisym s2 s1).
  destruct (String.compare s1 s2) eqn:E; simpl.
  - apply String.compare_eq_iff in E. subst. now rewrite String.eqb_refl.
  - destruct (String.eqb_spec s1 s2) as [->|]; [|reflexivity].
    now rewrite compare_refl in E.
  - destruct (String.eqb_spec s1 s2) as [->|]; [|reflexivity].
    now rewrite compare_refl in E.
Qed.

End TextOrder.

(** ** The order of versions *)

Module SemVerOrder.
Import TextOrder.

Lemma lt_spec (a b : SemanticVersion) :
  __lt__ a b = match triple_compare a b with
           | Lt => true
           | Eq => pre_release_lt (pre_release a) (pre_release b)
           | Gt => false
           end.
Proof.
  unfold __lt__, triple_compare, pre_release_lt.
  rewrite !N.ltb_compare, !N.eqb_compare.
  destruct (major a ?= major b)%N; try reflexivity.
  destruct (minor a ?= minor b)%N; try reflexivity.
  destruct (patch a ?= patch b)%N; try reflexivity.
Qed.

Lemma eq_spec (a b : SemanticVersion) :
  __eq__ a b = match triple_compare a b with
           | Eq => opt_str_eqb (pre_release a) (pre_release b)
           | _ => false
           end.
Proof.
  unfold __eq__, triple_compare. rewrite !N.eqb_compare.
  destruct (major a ?= major b)%N; try reflexivity.
  destruct (minor a ?= minor b)%N; try reflexivity.
  destruct (patch a ?= patch b)%N; try reflexivity.
Qed.

Lemma triple_compare_antisym (a b : SemanticVersion) :
  triple_compare b a = CompOpp (triple_compare a b).
Proof.
  unfold triple_compare.
  rewrite (N.compare_antisym (major a)), (N.compare_antisym (minor a)),
    (N.compare_antisym (patch a)).
  destruct (major a ?= major b)%N; try reflexivity.
  destruct (minor a ?= minor b)%N; try reflexivity.
Qed.

Lemma triple_compare_eq (a b : SemanticVersion) :
  triple_compare a b = Eq ->
  major a = major b /\ minor a = minor b /\ patch a = patch b.
Proof.
  unfold triple_compare.
  destruct (N.compare_spec (major a) (major b)); try discriminate.
  destruct (N.compare_spec (minor a) (minor b)); try discriminate.
  destruct (N.compare_spec (patch a) (patch b)); try discriminate.
  auto.
Qed.

Lemma triple_compare_trans (a b c : SemanticVersion) {r : comparison} :
  triple_compare a b = r -> triple_compare b c = r -> triple_compare a c = r.
Proof.
  unfold triple_compare.
  destruct (N.compare_spec (major a) (major b)) as [E1|L1|G1];
    destruct (N.compare_spec (major b) (major c)) as [E2|L2|G2];
    destruct (N.compare_spec (major a) (major c)) as [E3|L3|G3];
    try lia; try congruence;
    destruct (N.compare_spec (minor a) (minor b)) as [F1|M1|H1];
    destruct (N.compare_spec (minor b) (minor c)) as [F2|M2|H2];
    destruct (N.compare_spec (minor a) (minor c)) as [F3|M3|H3];
    try lia; try congruence;
    destruct (N.compare_spec (patch a) (patch b)) as [P1|Q1|R1];
    destruct (N.compare_spec (patch b) (patch c)) as [P2|Q2|R2];
    destruct (N.compare_spec (patch a) (patch c)) as [P3|Q3|R3];
    try lia; congruence.
Qed.

Lemma pre_release_lt_total (p q : option string) :
  pre_release_lt q p = negb (pre_release_lt p q || opt_str_eqb p q).
Proof.
  destruct p as [x|], q as [y|]; simpl; try reflexivity.
  apply ltb_total.
Qed.

Lemma pre_release_lt_trans (p q r : option string) :
  pre_release_lt p q = true -> pre_release_lt q r = true ->
  pre_release_lt p r = true.
Proof.
  destruct p as [x|], q as [y|], r as [z|]; simpl; try discriminate; auto.
  apply ltb_trans.
Qed.

(** [a > b] is [b < a]. *)
Lemma gt_lt (a b : SemanticVersion) : __gt__ a b = __lt__ b a.
Proof.
  unfold __gt__, __le__. rewrite !lt_spec, eq_spec, (triple_compare_antisym a b).
  destruct (triple_compare a b); simpl; try reflexivity.
  symmetry. apply pre_release_lt_total.
Qed.

Lemma lt_trans (a b c : SemanticVersion) :
  __lt__ a b = true -> __lt__ b c = true -> __lt__ a c = true.
Proof.
  rewrite !lt_spec.
  destruct (triple_compare a b) eqn:Eab; try discriminate;
    destruct (triple_compare b c) eqn:Ebc; try discriminate; intros H1 H2.
  - rewrite (triple_compare_trans a b c Eab Ebc).
    eapply pre_release_lt_trans; eauto.
  - enough (triple_compare a c = Lt) as -> by reflexivity.
    destruct (triple_compare_eq a b Eab) as (E1 & E2 & E3).
    revert Ebc. unfold triple_compare. now rewrite E1, E2, E3.
  - enough (triple_compare a c = Lt) as -> by reflexivity.
    destruct (triple_compare_eq b c Ebc) as (E1 & E2 & E3).
    revert Eab. unfold triple_compare. now rewrite E1, E2, E3.
  - now rewrite (triple_compare_trans a b c Eab Ebc).
Qed.

End SemVerOrder.

(** ** Rendering and the grammar *)

Module SemVerText.

Lemma span_all (p : ascii -> bool) (d : string) :
  all_chars p d = true -> span p d = (d, EmptyString).
Proof.
  induction d as [|c d IH]; simpl; [reflexivity|].
  destruct (p c); simpl; [|discriminate].
  intros H. now rewrite (IH H).
Qed.

Lemma span_stop (p : ascii -> bool) (d : string) (c : ascii) (r : string) :
  all_chars p d = true -> p c = false ->
  span p (d ++ String c r) = (d, String c r).
Proof.
  intros Hd Hc. induction d as [|x d IH]; simpl in *.
  - now rewrite Hc.
  - destruct (p x); simpl in *; [|discriminate]. now rewrite (IH Hd).
Qed.

Lemma digits_of_uint (u : Decimal.uint) :
  all_chars is_digit (NilEmpty.string_of_uint u) = true.
Proof. induction u; simpl; auto. Qed.

Lemma str_of_nat_digits (n : N) : all_chars is_digit (str_of_nat n) = true.
Proof.
  unfold str_of_nat, NilZero.string_of_uint.
  destruct (N.to_uint n); try reflexivity; apply digits_of_uint.
Qed.

Lemma to_uint_normal (n : N) : Decimal.unorm (N.to_uint n) = N.to_uint n.
Proof.
  rewrite <- (DecimalN.Unsigned.to_of (N.to_uint n)).
  now rewrite DecimalN.Unsigned.of_to.
Qed.

Lemma str_of_nat_numeric (n : N) : numeric_ok (str_of_nat n) = true.
Proof.
  unfold str_of_nat. pose proof (to_uint_normal n) as Hn.
  pose proof (DecimalFacts.nzhead_nonzero (N.to_uint n)) as Hz.
  revert Hn Hz. unfold Decimal.unorm.
  destruct (Decimal.nzhead (N.to_uint n)) eqn:E; intros <- Hz;
    try reflexivity;
    try (exfalso; eapply Hz; reflexivity);
    simpl; match goal with
           | |- context [NilEmpty.string_of_uint ?u] =>
               pose proof (digits_of_uint u) as Hd;
               destruct (NilEmpty.string_of_uint u); simpl in *; auto
           end.
Qed.

Lemma int_of_str_of_nat (n : N) : int_of_digits (str_of_nat n) = n.
Proof.
  unfold int_of_digits, str_of_nat.
  rewrite NilZero.usu.
  - apply DecimalN.Unsigned.of_to.
  - rewrite <- to_uint_normal. apply DecimalFacts.unorm_nonnil.
Qed.

Lemma str_of_int_nonneg (z : Z) :
  (0 <= z)%Z -> str_of_int z = str_of_nat (Z.to_N z).
Proof.
  destruct z; simpl; intros H; try reflexivity. lia.
Qed.

Lemma str_of_int_of_N (n : N) : str_of_int (Z.of_N n) = str_of_nat n.
Proof. rewrite str_of_int_nonneg by lia. now rewrite N2Z.id. Qed.

(** A rendered triple of numbers is read back as it was written. *)
Lemma regex_match_triple (a b c : N) :
  regex_match (str_of_nat a ++ "." ++ str_of_nat b ++ "." ++ str_of_nat c)
  = Some (str_of_nat a, Some (str_of_nat b), Some (str_of_nat c), None, None).
Proof.
  unfold regex_match. simpl.
  rewrite span_stop by (auto using str_of_nat_digits).
  rewrite str_of_nat_numeric. simpl.
  rewrite span_stop by (auto using str_of_nat_digits).
  rewrite str_of_nat_numeric. simpl.
  rewrite span_all by (auto using str_of_nat_digits).
  rewrite str_of_nat_numeric. reflexivity.
Qed.

Lemma init_render3 (a b c : N) :
  __init__ (render3 (Z.of_N a) (Z.of_N b) (Z.of_N c))
  = Ok {| text := render3 (Z.of_N a) (Z.of_N b) (Z.of_N c);
          major := a; minor := b; patch := c;
          pre_release := None; build := None |}.
Proof.
  unfold __init__, render3. rewrite !str_of_int_of_N.
  rewrite regex_match_triple. simpl. now rewrite !int_of_str_of_nat.
Qed.

(** The text of a version below zero does not start with a digit. *)
Lemma init_negative (a : positive) (rest : string) :
  __init__ (str_of_int (Z.neg a) ++ rest) = Raise ValueError.
Proof. reflexivity. Qed.

Lemma next_version_ok (v : SemanticVersion) (part : string) :
  valid_part part = true ->
  next_version v part = Ok (of_triple (next_triple v part)).
Proof.
  intros Hp. unfold next_version, next_triple. rewrite Hp. simpl.
  destruct (String.eqb part "major");
    [|destruct (String.eqb part "minor")]; unfold of_triple;
    rewrite <- init_render3; repeat f_equal; lia.
Qed.

End SemVerText.

(** ** Splitting and joining *)

Module TextSplit.

Lemma append_empty (s : string) : (s ++ "")%string = s.
Proof. induction s as [|c s IH]; simpl; [reflexivity|now rewrite IH]. Qed.

Lemma split_nonnil (s : string) : split "." s <> [].
Proof.
  destruct s as [|c s]; simpl; [discriminate|].
  destruct (Ascii.eqb c "."); [discriminate|].
  destruct (split "." s); discriminate.
Qed.

Lemma split_length (s : string) : (1 <= List.length (split "." s))%nat.
Proof.
  pose proof (split_nonnil s). destruct (split "." s); simpl; [tauto|lia].
Qed.

Lemma split_dot_free (p : string) : dot_free p = true -> split "." p = [p].
Proof.
  unfold dot_free. induction p as [|c p IH]; simpl; [reflexivity|].
  destruct (Ascii.eqb c "."); simpl; [discriminate|].
  intros H. now rewrite (IH H).
Qed.

Lemma split_app (p rest : string) :
  dot_free p = true ->
  split "." (p ++ String "." rest) = p :: split "." rest.
Proof.
  unfold dot_free. induction p as [|c p IH]; simpl; [reflexivity|].
  destruct (Ascii.eqb c "."); simpl; [discriminate|].
  intros H. now rewrite (IH H).
Qed.

Lemma split_parts_dot_free (s : string) :
  forallb dot_free (split "." s) = true.
Proof.
  induction s as [|c s IH]; simpl; [reflexivity|].
  destruct (Ascii.eqb c ".") eqn:E; simpl; [exact IH|].
  destruct (split "." s) as [|h t]; simpl in *.
  - unfold dot_free. simpl. now rewrite E.
  - unfold dot_free in *. simpl. now rewrite E.
Qed.

Lemma join_cons (c : ascii) (h : string) (t : list string) :
  join "." (String c h :: t) = String c (join "." (h :: t)).
Proof. destruct t; reflexivity. Qed.

Lemma join_split (s : string) : join "." (split "." s) = s.
Proof.
  induction s as [|c s IH]; simpl; [reflexivity|].
  destruct (Ascii.eqb_spec c ".") as [->|Hc].
  - pose proof (split_nonnil s) as Hn.
    destruct (split "." s) as [|h t]; [tauto|].
    simpl in *. now rewrite IH.
  - pose proof (split_nonnil s) as Hn.
    destruct (split "." s) as [|h t]; [tauto|].
    now rewrite join_cons, IH.
Qed.

Lemma split_join (parts : list string) :
  parts <> [] -> forallb dot_free parts = true ->
  split "." (join "." parts) = parts.
Proof.
  induction parts as [|p ps IH]; [tauto|]. intros _.
  simpl forallb. rewrite andb_true_iff. intros [Hp Hps].
  destruct ps as [|q ps]; [now apply split_dot_free|].
  change (join "." (p :: q :: ps)) with (p ++ String "." (join "." (q :: ps))).
  rewrite split_app by assumption. f_equal. apply IH; [discriminate|assumption].
Qed.

Lemma forallb_firstn {A : Type} (f : A -> bool) (n : nat) (l : list A) :
  forallb f l = true -> forallb f (firstn n l) = true.
Proof.
  revert l. induction n as [|n IH]; intros [|x l]; simpl; auto.
  rewrite !andb_true_iff. intros [? ?]. auto.
Qed.

(** Splitting what was joined from the first parts of a text. *)
Lemma split_join_firstn (n : nat) (t : string) :
  (1 <= n)%nat ->
  split "." (join "." (firstn n (split "." t))) = firstn n (split "." t).
Proof.
  intros Hn. apply split_join.
  - pose proof (split_nonnil t). destruct n; [lia|].
    destruct (split "." t); [tauto|discriminate].
  - apply forallb_firstn, split_parts_dot_free.
Qed.

Lemma firstn_firstn_length {A : Type} (n : nat) (l : list A) :
  firstn (List.length (firstn n l)) l = firstn n l.
Proof.
  rewrite length_firstn.
  destruct (Nat.le_ge_cases n (List.length l)).
  - now rewrite Nat.min_l.
  - rewrite Nat.min_r by assumption. rewrite !firstn_all2; auto.
Qed.

End TextSplit.

(** ** The two loops of the updater *)

Module UpdaterFacts.
Import TextSplit SemVerText.

Lemma scan_included_find (split_latest_version : list string)
      (specifiers : list Specifier) :
  scan_included split_latest_version specifiers
  = match find pinning specifiers with
    | Some s => ([Some (operator s, truncated split_latest_version s)], Some s)
    | None => ([None], None)
    end.
Proof.
  induction specifiers as [|s l IH]; [reflexivity|].
  simpl find. unfold pinning at 1.
  destruct (operator s) eqn:E; simpl; rewrite E; auto.
Qed.

Lemma scan_not_included_find (latest : SemanticVersion)
      (split_latest_version : list string) (specifiers : list Specifier) :
  scan_not_included latest split_latest_version specifiers
  = match find bounding specifiers with
    | Some s => scan_not_included latest split_latest_version [s]
    | None => Ok ([], None)
    end.
Proof.
  induction specifiers as [|s l IH]; [reflexivity|].
  simpl find. unfold bounding at 1.
  destruct (operator s) eqn:E; simpl; rewrite E; auto.
Qed.

Lemma segment_values_firstn (n : nat) {parts : list string} {r : list N} :
  segment_values parts = Some r ->
  segment_values (firstn n parts) = Some (firstn n r).
Proof.
  revert parts r. induction n as [|n IH]; intros [|p ps] r; simpl;
    try (intros [= <-]; reflexivity); try reflexivity.
  destruct (segment_value p); [|discriminate].
  destruct (segment_values ps) eqn:E; [|discriminate].
  intros [= <-]. now rewrite (IH _ _ E).
Qed.

Lemma segment_values_length {parts : list string} {r : list N} :
  segment_values parts = Some r -> List.length r = List.length parts.
Proof.
  revert r. induction parts as [|p ps IH]; intros r; simpl.
  - now intros [= <-].
  - destruct (segment_value p); [|discriminate].
    destruct (segment_values ps); [|discriminate].
    intros [= <-]. simpl. now rewrite (IH l eq_refl).
Qed.

(** The release of the latest version cut to the segments of a specifier. *)
Lemma release_truncated {latest_version : string} {r : list N}
      (specifier : Specifier) :
  release_of_text latest_version = Some r ->
  release_of_text (truncated (split "." latest_version) specifier)
  = Some (firstn (List.length (split "." (version specifier))) r).
Proof.
  intros Hr. unfold release_of_text, truncated.
  rewrite split_join_firstn by apply split_length.
  now apply segment_values_firstn.
Qed.

Lemma split_truncated (latest_version : string) (specifier : Specifier) :
  split "." (truncated (split "." latest_version) specifier)
  = firstn (List.length (split "." (version specifier)))
           (split "." latest_version).
Proof. unfold truncated. apply split_join_firstn, split_length. Qed.




End UpdaterFacts.

(** ** Facts used by the claims *)


Import TextSplit SemVerText UpdaterFacts.

Lemma contains_release {item : string} {set : SpecifierSet} {b : bool} :
  SpecifierSet_contains item set = Ok b ->
  exists r, release_of_text item = Some r
            /\ b = forallb (Specifier_contains r) set.
Proof.
  unfold SpecifierSet_contains.
  destruct (release_of_text item) as [r|]; [|discriminate].
  intros [= <-]. eauto.
Qed.

Lemma well_formed_compatible {s : Specifier} :
  well_formed s = true -> operator s = OpCompatible ->
  (2 <= List.length (split "." (version s)))%nat.
Proof.
  unfold well_formed, Specifier_init, release_of_text.
  destruct (segment_values (split "." (version s))) as [r|] eqn:E;
    [|discriminate].
  intros H Hop. rewrite Hop in H. simpl in H.
  rewrite <- (segment_values_length E).
  destruct (Nat.ltb_spec (List.length r) 2); [discriminate|assumption].
Qed.

Lemma init_raises (t : string) (e : exn) :
  __init__ t = Raise e -> e = ValueError.
Proof.
  unfold __init__.
  destruct (regex_match t) as [[[[[? ?] ?] ?] ?]|]; congruence.
Qed.

Lemma contains_raises (item : string) (set : SpecifierSet) (e : exn) :
  SpecifierSet_contains item set = Raise e -> e = ValueError.
Proof.
  unfold SpecifierSet_contains. destruct (release_of_text item); congruence.
Qed.

Lemma Specifier_init_raises (op : Operator) (v : string) (e : exn) :
  Specifier_init op v = Raise e -> e = InvalidSpecifier.
Proof.
  unfold Specifier_init. destruct (release_of_text v); [|congruence].
  destruct (_ && _); congruence.
Qed.

Lemma new_specifiers_raises (l : list updated) (e : exn) :
  new_specifiers l = Raise e -> e = InvalidSpecifier.
Proof.
  induction l as [|[[op v]|] l IH]; simpl; try congruence.
  destruct (Specifier_init op v) eqn:E; simpl.
  - destruct (new_specifiers l); simpl; [congruence|].
    intros [= <-]. now apply IH.
  - intros [= <-]. eapply Specifier_init_raises; eauto.
Qed.


(** What the second loop does with the first bounding specifier. *)
Lemma scan_single_ok (latest : SemanticVersion) (sp : list string)
      (s : Specifier) (u : list updated) (removed : option Specifier) :
  bounding s = true ->
  scan_not_included latest sp [s] = Ok (u, removed) ->
  removed = Some s /\ u <> [] /\ is_marker u = false.
Proof.
  unfold bounding. simpl. destruct (operator s); try discriminate; intros _.
  - destruct (__init__ (version s)); simpl; [|discriminate].
    destruct (_ <? _)%N.
    + destruct (next_version latest "major"); simpl; [|discriminate].
      intros [= <- <-]. repeat split; discriminate.
    + intros [= <- <-]. repeat split; discriminate.
  - intros [= <- <-]. repeat split; discriminate.
  - match goal with
    | |- bind ?x _ = _ -> _ => destruct x; simpl; [|discriminate]
    end.
    intros [= <- <-]. repeat split; discriminate.
Qed.

Lemma scan_single_unable (latest : SemanticVersion) (sp : list string)
      (s : Specifier) :
  bounding s = true ->
  (scan_not_included latest sp [s] = Raise UnableToResolve
   <-> operator s = OpLess
       /\ (3 < List.length (split "." (version s)))%nat).
Proof.
  unfold bounding. simpl. destruct (operator s); try discriminate; intros _.
  - split; [|intros [? _]; discriminate].
    destruct (__init__ (version s)) eqn:E; simpl.
    + destruct (_ <? _)%N; [|discriminate].
      rewrite next_version_ok by reflexivity. discriminate.
    + intros [= ->]. now apply init_raises in E.
  - split; [discriminate|intros [? _]; discriminate].
  - rewrite !next_version_ok by reflexivity. simpl.
    pose proof (split_length (version s)) as Hn.
    destruct (Nat.eqb_spec (List.length (split "." (version s))) 1);
      [simpl; split; [discriminate|lia]|].
    destruct (Nat.eqb_spec (List.length (split "." (version s))) 2);
      [simpl; split; [discriminate|lia]|].
    destruct (Nat.eqb_spec (List.length (split "." (version s))) 3);
      [simpl; split; [discriminate|lia]|].
    simpl. split; [intros _; split; [reflexivity|lia]|reflexivity].
Qed.

Lemma init_with_pre_release (suffix : string) (v : SemanticVersion) :
  __init__ ("1.0.0-" ++ suffix) = Ok v ->
  major v = 1%N /\ minor v = 0%N /\ patch v = 0%N
  /\ exists pre, pre_release v = Some pre.
Proof.
  unfold __init__, regex_match. simpl.
  destruct (span is_dotted_char suffix) as [t rest].
  destruct (forallb pre_ident_ok (split "." t)); [|discriminate].
  destruct (opt_dotted "+" build_ident_ok rest) as [[bld r4]|]; [|discriminate].
  destruct (at_end r4); [|discriminate].
  intros [= <-]. simpl. eauto.
Qed.

(** ** The search loop *)
Lemma next_version_advance (sp : list string) (v : SemanticVersion) :
  _next_version sp v = Ok (advance sp v).
Proof.
  unfold _next_version, advance.
  destruct (_ =? 1)%nat; [now apply next_version_ok|].
  destruct (_ =? 2)%nat; now apply next_version_ok.
Qed.

Lemma search_step (marker : SemanticVersion -> bool) (sp : list string)
      (fuel : nat) (v : SemanticVersion) :
  search marker sp fuel v
  = if accepted marker v then Some (Ok (shortened v))
    else match fuel with
         | O => None
         | S fuel' => search marker sp fuel' (advance sp v)
         end.
Proof.
  unfold accepted.
  destruct fuel; simpl; rewrite ?next_version_advance;
    destruct (_semi_valid_python_version v), (marker v); reflexivity.
Qed.

Lemma search_found (marker : SemanticVersion -> bool) (sp : list string)
      (k : nat) :
  forall (v : SemanticVersion) (fuel : nat),
    accepted marker (candidate sp v k) = true ->
    (forall j, (j < k)%nat -> accepted marker (candidate sp v j) = false) ->
    (k <= fuel)%nat ->
    search marker sp fuel v = Some (Ok (shortened (candidate sp v k))).
Proof.
  induction k as [|k IH]; intros v fuel Hk Hbefore Hfuel;
    rewrite search_step.
  - simpl in Hk. now rewrite Hk.
  - pose proof (Hbefore 0%nat ltac:(lia)) as H0. simpl in H0. rewrite H0.
    destruct fuel as [|fuel]; [lia|].
    apply IH; [exact Hk| |lia].
    intros j Hj. apply (Hbefore (S j)). lia.
Qed.

Lemma search_never (marker : SemanticVersion -> bool) (sp : list string)
      (fuel : nat) :
  forall v : SemanticVersion,
    (forall k, accepted marker (candidate sp v k) = false) ->
    search marker sp fuel v = None.
Proof.
  induction fuel as [|fuel IH]; intros v Hnone; rewrite search_step;
    pose proof (Hnone 0%nat) as H0; simpl in H0; rewrite H0; [reflexivity|].
  apply IH. intros k. apply (Hnone (S k)).
Qed.

(** ** Releases and membership *)
Module ReleaseFacts.

Lemma lex_compare_refl (x : list N) : lex_compare x x = Eq.
Proof.
  induction x as [|a x IH]; simpl; [reflexivity|].
  now rewrite N.compare_refl.
Qed.

Lemma lex_compare_eq (x : list N) :
  forall y, lex_compare x y = Eq -> x = y.
Proof.
  induction x as [|a x IH]; intros [|b y]; simpl; try discriminate; auto.
  destruct (N.compare_spec a b) as [Hab|Hab|Hab]; try discriminate.
  intros Hxy. subst. f_equal. auto.
Qed.

Lemma lex_compare_app (p a b : list N) :
  lex_compare (p ++ a) (p ++ b) = lex_compare a b.
Proof.
  induction p as [|x p IH]; simpl; [reflexivity|].
  now rewrite N.compare_refl.
Qed.

Lemma lex_compare_zeros (a : list N) :
  lex_compare a (repeat 0%N (List.length a)) <> Lt.
Proof.
  induction a as [|x a IH]; simpl; [discriminate|].
  destruct (N.compare_spec x 0); try assumption; [lia|discriminate].
Qed.

Lemma pad_short (n : nat) (r : list N) :
  (n <= List.length r)%nat -> pad n r = r.
Proof.
  intros H. unfold pad. replace (n - List.length r)%nat with 0%nat by lia.
  apply List.app_nil_r.
Qed.

Lemma release_compare_refl (r : list N) : release_compare r r = Eq.
Proof. unfold release_compare. apply lex_compare_refl. Qed.

(** A release is equal to the release it is equal to, cut to the length of
    that release. *)
Lemma release_compare_firstn (r v : list N) :
  release_compare r v = Eq ->
  release_compare r (firstn (List.length v) r) = Eq.
Proof.
  intros H. destruct (Nat.le_gt_cases (List.length r) (List.length v)) as [Hl|Hl].
  - rewrite firstn_all2 by assumption. apply release_compare_refl.
  - enough (firstn (List.length v) r = v) as -> by assumption.
    unfold release_compare in H.
    rewrite Nat.max_l in H by lia. rewrite pad_short in H by lia.
    apply lex_compare_eq in H. rewrite H at 1. unfold pad.
    rewrite firstn_app, Nat.sub_diag, firstn_all. simpl. apply List.app_nil_r.
Qed.

(** A release is not below any of its prefixes. *)
Lemma release_compare_prefix (n : nat) (r : list N) :
  release_compare r (firstn n r) <> Lt.
Proof.
  unfold release_compare.
  assert (Hl : (List.length (firstn n r) <= List.length r)%nat)
    by (rewrite length_firstn; lia).
  rewrite Nat.max_l by assumption. rewrite pad_short by lia.
  rewrite <- (firstn_skipn n r) at 1. unfold pad.
  rewrite lex_compare_app.
  replace (List.length r - List.length (firstn n r))%nat
    with (List.length (skipn n r)).
  - apply lex_compare_zeros.
  - rewrite length_skipn, length_firstn. lia.
Qed.

Lemma removelast_prefix (n : nat) (r : list N) :
  firstn (List.length (removelast (firstn n r))) r = removelast (firstn n r).
Proof.
  destruct (firstn n r) as [|x l] eqn:E; [reflexivity|].
  assert (Hne : x :: l <> []) by discriminate.
  rewrite (app_removelast_last 0%N Hne) in E.
  rewrite <- (firstn_skipn n r) at 1. rewrite E, <- app_assoc.
  rewrite firstn_app, Nat.sub_diag, firstn_all. simpl. apply List.app_nil_r.
Qed.

(** The compatible specifier on a prefix of a release holds that release. *)
Lemma contains_compatible_prefix (r : list N) (n : nat) (t : string) :
  release_of_text t = Some (firstn n r) ->
  Specifier_contains r {| operator := OpCompatible; version := t |} = true.
Proof.
  intros Ht. unfold Specifier_contains. simpl. rewrite Ht.
  pose proof (release_compare_prefix n r) as Hc.
  assert (Hl : (List.length (removelast (firstn n r)) <= List.length r)%nat).
  { rewrite <- (removelast_prefix n r), length_firstn. lia. }
  rewrite pad_short by assumption. rewrite removelast_prefix.
  unfold release_eqb. rewrite lex_compare_refl.
  destruct (release_compare r (firstn n r)); try reflexivity. tauto.
Qed.

(** The equality specifier re-pinned to the latest version still holds it. *)
Lemma contains_equal_firstn (r : list N) (s : Specifier) (t : string) :
  Specifier_contains r s = true -> operator s = OpEqual ->
  release_of_text t
  = Some (firstn (List.length (split "." (version s))) r) ->
  Specifier_contains r {| operator := OpEqual; version := t |} = true.
Proof.
  unfold Specifier_contains. simpl. intros Hs Hop Ht. rewrite Ht.
  destruct (release_of_text (version s)) as [v|] eqn:Ev; [|discriminate].
  rewrite Hop in Hs.
  destruct (release_compare r v) eqn:Ec; try discriminate.
  unfold release_of_text in Ev.
  rewrite <- (UpdaterFacts.segment_values_length Ev).
  now rewrite (release_compare_firstn _ _ Ec).
Qed.

End ReleaseFacts.

(** ** The grammar on dotted numbers *)
Module DottedFacts.

Lemma segment_value_digits (p : string) (n : N) :
  segment_value p = Some n -> all_chars is_digit p = true.
Proof.
  unfold segment_value. destruct p; [discriminate|].
  destruct (all_chars is_digit (String a p)); [reflexivity|discriminate].
Qed.

Lemma digits_dot_free (p : string) :
  all_chars is_digit p = true -> dot_free p = true.
Proof.
  unfold dot_free. induction p as [|c p IH]; simpl; [reflexivity|].
  rewrite !andb_true_iff. intros [Hc Hp]. split; [|auto].
  destruct (Ascii.eqb_spec c "."); [subst; discriminate|reflexivity].
Qed.

Lemma init_one (p1 : string) :
  all_chars is_digit p1 = true ->
  __init__ p1
  = if numeric_ok p1
    then Ok (mkSemVer p1 (int_of_digits p1) 0 0 None None)
    else Raise ValueError.
Proof.
  intros H1. unfold __init__, regex_match.
  rewrite (span_all _ _ H1). destruct (numeric_ok p1); reflexivity.
Qed.

Lemma init_two (p1 p2 : string) :
  all_chars is_digit p1 = true -> all_chars is_digit p2 = true ->
  __init__ (p1 ++ String "." p2)
  = if numeric_ok p1 && numeric_ok p2
    then Ok (mkSemVer (p1 ++ String "." p2)
                      (int_of_digits p1) (int_of_digits p2) 0 None None)
    else Raise ValueError.
Proof.
  intros H1 H2. unfold __init__, regex_match.
  rewrite (span_stop is_digit _ "." _ H1 eq_refl).
  destruct (numeric_ok p1); [|reflexivity]. simpl.
  rewrite (span_all _ _ H2). destruct (numeric_ok p2); reflexivity.
Qed.

Lemma init_three (p1 p2 p3 : string) :
  all_chars is_digit p1 = true -> all_chars is_digit p2 = true ->
  all_chars is_digit p3 = true ->
  __init__ (p1 ++ String "." (p2 ++ String "." p3))
  = if numeric_ok p1 && numeric_ok p2 && numeric_ok p3
    then Ok (mkSemVer (p1 ++ String "." (p2 ++ String "." p3))
                      (int_of_digits p1) (int_of_digits p2)
                      (int_of_digits p3) None None)
    else Raise ValueError.
Proof.
  intros H1 H2 H3. unfold __init__, regex_match.
  rewrite (span_stop is_digit _ "." _ H1 eq_refl).
  destruct (numeric_ok p1); [|reflexivity]. simpl.
  rewrite (span_stop is_digit _ "." _ H2 eq_refl).
  destruct (numeric_ok p2); [|reflexivity]. simpl.
  rewrite (span_all _ _ H3). destruct (numeric_ok p3); reflexivity.
Qed.

Lemma init_four (p1 p2 p3 rest : string) :
  all_chars is_digit p1 = true -> all_chars is_digit p2 = true ->
  all_chars is_digit p3 = true ->
  __init__
    (p1 ++ String "." (p2 ++ String "." (p3 ++ String "." rest)))
  = Raise ValueError.
Proof.
  intros H1 H2 H3. unfold __init__, regex_match.
  rewrite (span_stop is_digit _ "." _ H1 eq_refl).
  destruct (numeric_ok p1); [|reflexivity]. simpl.
  rewrite (span_stop is_digit _ "." _ H2 eq_refl).
  destruct (numeric_ok p2); [|reflexivity]. simpl.
  rewrite (span_stop is_digit _ "." _ H3 eq_refl).
  destruct (numeric_ok p3); [|reflexivity]. simpl.
  destruct rest; reflexivity.
Qed.

(** A version that is a dotted number stays a version, with the same major,
    when it is cut to its first segments. *)
Lemma init_truncated (latest_version : string) (latest : SemanticVersion)
      (r : list N) (n : nat) :
  __init__ latest_version = Ok latest ->
  release_of_text latest_version = Some r ->
  (1 <= n)%nat ->
  exists cut,
    __init__ (join "." (firstn n (split "." latest_version)))
    = Ok cut
    /\ major cut = major latest.
Proof.
  intros Hv Hr Hn. rewrite <- (join_split latest_version) in Hv.
  unfold release_of_text in Hr. revert Hv Hr.
  destruct (split "." latest_version) as [|p1 [|p2 [|p3 [|p4 rest]]]];
    simpl segment_values.
  - discriminate.
  - destruct (segment_value p1) eqn:E1; [|discriminate]. intros Hv _.
    apply segment_value_digits in E1.
    destruct n as [|n]; [lia|]. simpl firstn. rewrite firstn_nil.
    eauto.
  - destruct (segment_value p1) eqn:E1; [|discriminate].
    destruct (segment_value p2) eqn:E2; [|discriminate]. intros Hv _.
    apply segment_value_digits in E1, E2.
    change (join "." [p1; p2]) with (p1 ++ String "." p2) in *.
    rewrite (init_two _ _ E1 E2) in Hv.
    destruct (numeric_ok p1) eqn:N1; [|discriminate].
    destruct (numeric_ok p2) eqn:N2; [|discriminate].
    injection Hv as <-.
    destruct n as [|[|n]]; [lia| |]; simpl firstn.
    + change (join "." [p1]) with p1. rewrite (init_one _ E1), N1. simpl. eauto.
    + rewrite firstn_nil.
      change (join "." [p1; p2]) with (p1 ++ String "." p2).
      rewrite (init_two _ _ E1 E2), N1, N2. simpl. eauto.
  - destruct (segment_value p1) eqn:E1; [|discriminate].
    destruct (segment_value p2) eqn:E2; [|discriminate].
    destruct (segment_value p3) eqn:E3; [|discriminate]. intros Hv _.
    apply segment_value_digits in E1, E2, E3.
    change (join "." [p1; p2; p3])
      with (p1 ++ String "." (p2 ++ String "." p3)) in *.
    rewrite (init_three _ _ _ E1 E2 E3) in Hv.
    destruct (numeric_ok p1) eqn:N1; [|discriminate].
    destruct (numeric_ok p2) eqn:N2; [|discriminate].
    destruct (numeric_ok p3) eqn:N3; [|discriminate].
    injection Hv as <-.
    destruct n as [|[|[|n]]]; [lia| | |]; simpl firstn.
    + change (join "." [p1]) with p1. rewrite (init_one _ E1), N1. simpl. eauto.
    + change (join "." [p1; p2]) with (p1 ++ String "." p2).
      rewrite (init_two _ _ E1 E2), N1, N2. simpl. eauto.
    + rewrite firstn_nil.
      change (join "." [p1; p2; p3])
        with (p1 ++ String "." (p2 ++ String "." p3)).
      rewrite (init_three _ _ _ E1 E2 E3), N1, N2, N3. simpl. eauto.
  - destruct (segment_value p1) eqn:E1; [|discriminate].
    destruct (segment_value p2) eqn:E2; [|discriminate].
    destruct (segment_value p3) eqn:E3; [|discriminate]. intros Hv _.
    apply segment_value_digits in E1, E2, E3.
    change (join "." (p1 :: p2 :: p3 :: p4 :: rest))
      with (p1 ++ String "." (p2 ++ String "."
                (p3 ++ String "." (join "." (p4 :: rest))))) in Hv.
    now rewrite (init_four _ _ _ _ E1 E2 E3) in Hv.
Qed.

Lemma split_of_triple (t : N * N * N) :
  List.length (split "." (text (of_triple t))) = 3%nat
  /\ __str__ (of_triple t) = text (of_triple t)
  /\ List.length
       (split "." (join "." (firstn 2 (split "." (text (of_triple t))))))
     = 2%nat.
Proof.
  destruct t as [[a b] c]. unfold __str__, of_triple, render3.
  cbn [text major minor patch pre_release build].
  rewrite !str_of_int_of_N.
  assert (Hs : split "." (str_of_nat a ++ "." ++ str_of_nat b ++ "."
                          ++ str_of_nat c)
               = [str_of_nat a; str_of_nat b; str_of_nat c]).
  { simpl.
    rewrite split_app by (apply digits_dot_free, str_of_nat_digits).
    rewrite split_app by (apply digits_dot_free, str_of_nat_digits).
    rewrite split_dot_free by (apply digits_dot_free, str_of_nat_digits).
    reflexivity. }
  rewrite Hs. split; [reflexivity|]. split.
  - simpl. now rewrite !append_empty.
  - simpl firstn.
    change (join "." [str_of_nat a; str_of_nat b])
      with (str_of_nat a ++ String "." (str_of_nat b)).
    rewrite split_app by (apply digits_dot_free, str_of_nat_digits).
    rewrite split_dot_free by (apply digits_dot_free, str_of_nat_digits).
    reflexivity.
Qed.

Lemma split_str_of_nat (n : N) :
  List.length (split "." (str_of_nat n)) = 1%nat.
Proof.
  now rewrite split_dot_free by (apply digits_dot_free, str_of_nat_digits).
Qed.

End DottedFacts.

(** ** Sets with one rewritable specifier *)
Module SetFacts.
Import ReleaseFacts.

Lemma Operator_eqb_eq (a b : Operator) : Operator_eqb a b = true -> a = b.
Proof. destruct a, b; simpl; congruence. Qed.

Lemma Specifier_eqb_refl (s : Specifier) : Specifier_eqb s s = true.
Proof.
  unfold Specifier_eqb. apply andb_true_iff. split.
  - now destruct (operator s).
  - destruct (canonical s).
    + unfold release_eqb. now rewrite lex_compare_refl.
    + apply String.eqb_refl.
Qed.

Lemma Specifier_eqb_operator (a b : Specifier) :
  Specifier_eqb a b = true -> operator a = operator b.
Proof.
  unfold Specifier_eqb. rewrite andb_true_iff. intros [H _].
  now apply Operator_eqb_eq.
Qed.

Lemma rewritable_operator (a b : Specifier) :
  operator a = operator b -> rewritable a = rewritable b.
Proof. unfold rewritable, pinning, bounding. now intros ->. Qed.

Lemma not_rewritable (x : Specifier) :
  rewritable x = false -> pinning x = false /\ bounding x = false.
Proof. unfold rewritable. apply orb_false_iff. Qed.

Lemma eqb_rewritable (x n : Specifier) :
  rewritable x = false -> rewritable n = true ->
  Specifier_eqb x n = false /\ Specifier_eqb n x = false.
Proof.
  intros Hx Hn. split.
  - destruct (Specifier_eqb x n) eqn:E; [|reflexivity].
    apply Specifier_eqb_operator, rewritable_operator in E. congruence.
  - destruct (Specifier_eqb n x) eqn:E; [|reflexivity].
    apply Specifier_eqb_operator, rewritable_operator in E. congruence.
Qed.

Lemma two_in_list {A : Type} (x y : A) (l : list A) :
  In x l -> In y l -> x <> y -> (2 <= List.length l)%nat.
Proof.
  destruct l as [|a [|b l]]; simpl; try tauto; [|lia].
  intros [<-|[]] [<-|[]]. tauto.
Qed.

(** With at most one rewritable specifier in the set, removing it leaves
    none. *)
Lemma remove_only_rewritable (s : Specifier) (set : SpecifierSet) :
  (List.length (filter rewritable set) <= 1)%nat ->
  In s set -> rewritable s = true ->
  forall x, In x (set_remove s set) -> rewritable x = false.
Proof.
  intros Hone Hs Hrs x Hx. unfold set_remove in Hx.
  apply filter_In in Hx. destruct Hx as [Hx Hne].
  destruct (rewritable x) eqn:Hrx; [|reflexivity].
  assert (x <> s).
  { intros ->. now rewrite Specifier_eqb_refl in Hne. }
  assert (2 <= List.length (filter rewritable set))%nat; [|lia].
  apply (two_in_list x s); [apply filter_In|apply filter_In|]; auto.
Qed.

Lemma find_app_last (f : Specifier -> bool) (rest : SpecifierSet)
      (n : Specifier) :
  (forall x, In x rest -> f x = false) ->
  find f (rest ++ [n]) = if f n then Some n else None.
Proof.
  induction rest as [|a rest IH]; intros H; simpl; [reflexivity|].
  rewrite (H a) by (left; reflexivity). apply IH.
  intros x Hx. apply H. now right.
Qed.

Lemma remove_app_last (rest : SpecifierSet) (n : Specifier) :
  (forall x, In x rest -> rewritable x = false) -> rewritable n = true ->
  set_remove n (rest ++ [n])%list = rest.
Proof.
  intros H Hn. unfold set_remove. rewrite filter_app. simpl.
  rewrite Specifier_eqb_refl. simpl. rewrite List.app_nil_r.
  induction rest as [|a rest IH]; simpl; [reflexivity|].
  destruct (eqb_rewritable a n) as [-> _]; auto.
  - apply H. now left.
  - simpl. f_equal. apply IH. intros x Hx. apply H. now right.
Qed.

Lemma add_last (rest : SpecifierSet) (n : Specifier) :
  (forall x, In x rest -> rewritable x = false) -> rewritable n = true ->
  set_add n rest = (rest ++ [n])%list.
Proof.
  intros H Hn. unfold set_add.
  enough (existsb (Specifier_eqb n) rest = false) as -> by reflexivity.
  induction rest as [|a rest IH]; simpl; [reflexivity|].
  destruct (eqb_rewritable a n) as [_ ->]; auto.
  - apply H. now left.
  - simpl. apply IH. intros x Hx. apply H. now right.
Qed.

Lemma add_not_rewritable (rest : SpecifierSet) (g : Specifier) :
  (forall x, In x rest -> rewritable x = false) -> rewritable g = false ->
  forall x, In x (set_add g rest) -> rewritable x = false.
Proof.
  intros H Hg x. unfold set_add.
  destruct (existsb (Specifier_eqb g) rest); [apply H|].
  rewrite in_app_iff. intros [Hx|[<-|[]]]; auto.
Qed.

Lemma Specifier_init_ok (op : Operator) (v : string) (s : Specifier) :
  Specifier_init op v = Ok s -> s = {| operator := op; version := v |}.
Proof.
  unfold Specifier_init. destruct (release_of_text v); [|discriminate].
  destruct (_ && _); congruence.
Qed.

End SetFacts.

(** ** A second pass of the updater *)
Module SecondPass.
Import SetFacts ReleaseFacts DottedFacts.

Section Latest.

Variable latest_version : string.
Variable latest : SemanticVersion.
Variable r : list N.
Hypothesis Hv : __init__ latest_version = Ok latest.
Hypothesis Hr : release_of_text latest_version = Some r.

Let sp := split "." latest_version.

Lemma truncated_stable (s : Specifier) (op : Operator) :
  truncated sp {| operator := op; version := truncated sp s |}
  = truncated sp s.
Proof.
  unfold truncated at 1. simpl. unfold sp. rewrite split_truncated.
  now rewrite firstn_firstn_length.
Qed.

(** A set that ends with its only rewritable specifier, which the loops
    rewrite to itself, is returned as it is. *)
Lemma second_application (rest : SpecifierSet) (n : Specifier) :
  (forall x, In x rest -> rewritable x = false) ->
  rewritable n = true ->
  Specifier_init (operator n) (version n) = Ok n ->
  (pinning n = true -> truncated sp n = version n) ->
  (bounding n = true ->
   scan_not_included latest sp [n]
   = Ok ([Some (operator n, version n)], Some n)) ->
  (bounding n = false ->
   forallb (Specifier_contains r) (rest ++ [n]) = true) ->
  update_specifier_set latest_version (rest ++ [n])%list
  = Ok (rest ++ [n])%list.
Proof.
  intros Hrest Hn Hwf Hpin Hbound Hin.
  unfold update_specifier_set. rewrite Hv.
  unfold SpecifierSet_contains. rewrite Hr. cbn [bind]. fold sp.
  destruct (forallb (Specifier_contains r) (rest ++ [n])) eqn:Hb.
  - rewrite scan_included_find, find_app_last
      by (intros x Hx; apply not_rewritable; auto).
    destruct (pinning n) eqn:Hp; [|reflexivity].
    rewrite (Hpin eq_refl). cbn [is_marker new_specifiers bind].
    rewrite Hwf. cbn [bind set_union fold_left].
    rewrite remove_app_last by assumption. rewrite add_last by assumption.
    reflexivity.
  - rewrite scan_not_included_find, find_app_last
      by (intros x Hx; apply not_rewritable; auto).
    destruct (bounding n) eqn:Hbd; [|discriminate (Hin eq_refl)].
    rewrite (Hbound eq_refl). cbn [is_marker new_specifiers bind].
    rewrite Hwf. cbn [bind set_union fold_left].
    rewrite remove_app_last by assumption. rewrite add_last by assumption.
    reflexivity.
Qed.

Lemma scan_less_equal (s : Specifier) :
  scan_not_included latest sp
    [{| operator := OpLessEqual; version := truncated sp s |}]
  = Ok ([Some (OpLessEqual, truncated sp s)],
        Some {| operator := OpLessEqual; version := truncated sp s |}).
Proof. simpl. now rewrite truncated_stable. Qed.

Lemma scan_compatible (s : Specifier) :
  scan_not_included latest sp
    [{| operator := OpCompatible; version := truncated sp s |}]
  = Ok ([Some (OpCompatible, truncated sp s)],
        Some {| operator := OpCompatible; version := truncated sp s |}).
Proof.
  destruct (init_truncated latest_version latest r
              (List.length (split "." (version s))) Hv Hr
              (split_length (version s))) as (cut & Hcut & Hmajor).
  cbn [scan_not_included operator version]. unfold truncated at 1, sp.
  rewrite Hcut. cbn [bind]. rewrite Hmajor, N.ltb_irrefl.
  now rewrite truncated_stable.
Qed.

Lemma scan_less (n : nat) (u : string) :
  (if (n =? 1)%nat then
     nv <- next_version latest "major" ;; Ok (str_of_nat (major nv))
   else if (n =? 2)%nat then
     nv <- next_version latest "minor" ;;
     Ok (join "." (firstn 2 (split "." (text nv))))
   else if (n =? 3)%nat then
     nv <- next_version latest "patch" ;; Ok (__str__ nv)
   else Raise UnableToResolve) = Ok u ->
  scan_not_included latest sp [{| operator := OpLess; version := u |}]
  = Ok ([Some (OpLess, u)], Some {| operator := OpLess; version := u |}).
Proof.
  rewrite !next_version_ok by reflexivity. cbn [bind].
  intros Hu.
  assert (Hlen : List.length (split "." u) = n
                 /\ (n = 1 \/ n = 2 \/ n = 3)%nat).
  { destruct (Nat.eqb_spec n 1) as [->|].
    { replace u with (str_of_nat (major (of_triple (next_triple latest "major"))))
        by congruence.
      split; [apply split_str_of_nat|auto]. }
    destruct (Nat.eqb_spec n 2) as [->|].
    { replace u
        with (join "." (firstn 2 (split "." (text (of_triple
                                     (next_triple latest "minor"))))))
        by congruence.
      split; [apply split_of_triple|auto]. }
    destruct (Nat.eqb_spec n 3) as [->|]; [|discriminate].
    replace u with (__str__ (of_triple (next_triple latest "patch")))
      by congruence.
    split; [|auto].
    destruct (split_of_triple (next_triple latest "patch")) as (H3 & -> & _).
    exact H3. }
  destruct Hlen as [Hlen Hn].
  cbn [scan_not_included operator version]. rewrite Hlen.
  rewrite !next_version_ok by reflexivity. cbn [bind]. now rewrite Hu.
Qed.

End Latest.

End SecondPass.

Import SetFacts ReleaseFacts DottedFacts SecondPass.

Lemma forallb_filter {A : Type} (f g : A -> bool) (l : list A) :
  forallb f l = true -> forallb f (filter g l) = true.
Proof.
  induction l as [|a l IH]; simpl; [reflexivity|].
  rewrite andb_true_iff. intros [Ha Hl].
  destruct (g a); simpl; [rewrite Ha|]; auto.
Qed.

(** * The claims *)




(** C2, as stated, fails: the result for [~=2.0] and latest [3.1.0] is not
    the set of [>=2.0.0] and [<3]. *)
Lemma compatible_bump_is_not_below_3 :
  ~ (exists result,
        update_specifier_set "3.1.0" [mkSpecifier OpCompatible "2.0"]
        = Ok result
        /\ set_eqb result [mkSpecifier OpGreaterEqual "2.0.0";
                           mkSpecifier OpLess "3"] = true).
Proof. intros (result & [= <-] & H). discriminate H. Qed.

(** C2, amended: for the set of [~=2.0] and latest [3.1.0] the updater
    returns the set of [>=2.0.0] and [<4]: a [>=] specifier on the fully
    padded pinned version and a [<] bound at the major after the one of the
    latest version. *)
Theorem compatible_bump_example :
  update_specifier_set "3.1.0" [mkSpecifier OpCompatible "2.0"]
  = Ok [mkSpecifier OpGreaterEqual "2.0.0"; mkSpecifier OpLess "4"].
Proof. reflexivity. Qed.

(** C3: the evaluation of [ignore_version] on inputs where the latest minor
    is the greater one and the majors agree.  With the filter [minor] alone
    the answer is true for 1.1.1 and 1.2.1, and false with [patch]; with
    [major] next to [minor] the answer is false, and so it is for the minors
    9 and 10, which are compared as texts. *)
Theorem ignore_minor_examples :
  ignore_version ["1"; "1"; "1"] ["1"; "2"; "1"] [] (Some ["minor"]) = Ok true
  /\ ignore_version ["1"; "1"; "1"] ["1"; "2"; "1"] [] (Some ["patch"])
     = Ok false
  /\ ignore_version ["1"; "1"; "1"] ["1"; "2"; "1"] []
                    (Some ["major"; "minor"]) = Ok false
  /\ ignore_version ["1"; "9"; "0"] ["1"; "10"; "0"] [] (Some ["minor"])
     = Ok false.
Proof. repeat split. Qed.

(** C4, as stated, fails: the latest version [2] is in the set of [~=2.0],
    but its text has one segment only, so the version cut to two segments
    is [2] again, [~=2] is no specifier, and the updater raises
    [InvalidSpecifier] instead of re-pinning. *)
Lemma repin_fails_for_short_latest :
  SpecifierSet_contains "2" [mkSpecifier OpCompatible "2.0"] = Ok true
  /\ find pinning [mkSpecifier OpCompatible "2.0"]
     = Some (mkSpecifier OpCompatible "2.0")
  /\ update_specifier_set "2" [mkSpecifier OpCompatible "2.0"]
     = Raise InvalidSpecifier.
Proof. repeat split. Qed.

(** C4, amended: when the latest version is a release that is in a set of
    release specifiers, and its text has at least as many segments as the
    version of the first [~=] or [==] specifier, that specifier is
    re-pinned: its version becomes the latest version cut to the number of
    segments the specifier had, the operator stays, and the result is the
    set with the old specifier removed and the new one inserted.  [~=2.0]
    with latest [2.3.7] becomes [~=2.3]. *)
Theorem repin_when_included
        (latest_version : string) (latest : SemanticVersion)
        (current : SpecifierSet) (specifier : Specifier) :
  __init__ latest_version = Ok latest ->
  SpecifierSet_contains latest_version current = Ok true ->
  find pinning current = Some specifier ->
  well_formed specifier = true ->
  (List.length (split "." (version specifier))
   <= List.length (split "." latest_version))%nat ->
  let repinned :=
    {| operator := operator specifier;
       version := join "." (firstn (List.length (split "." (version specifier)))
                                   (split "." latest_version)) |} in
  update_specifier_set latest_version current
  = Ok (set_add repinned (set_remove specifier current))
  /\ List.length (split "." (version repinned))
     = List.length (split "." (version specifier)).
Proof.
  intros Hv Hc Hfind Hwf Hlen repinned.
  destruct (contains_release Hc) as (r & Hr & _).
  assert (Hsplit : List.length (split "." (version repinned))
                   = List.length (split "." (version specifier))).
  { unfold repinned. simpl.
    rewrite split_join_firstn by apply split_length.
    rewrite length_firstn. lia. }
  split; [|exact Hsplit].
  unfold update_specifier_set. rewrite Hv. simpl. rewrite Hc. simpl.
  rewrite scan_included_find, Hfind. simpl.
  unfold Specifier_init. fold (truncated (split "." latest_version) specifier).
  rewrite (release_truncated specifier Hr).
  assert (Hn : Operator_eqb (operator specifier) OpCompatible
               && (List.length (firstn (List.length (split "." (version specifier))) r) <? 2)%nat
               = false).
  { destruct (operator specifier) eqn:Eop; try reflexivity. simpl.
    apply Nat.ltb_ge. rewrite length_firstn.
    pose proof (well_formed_compatible Hwf Eop).
    unfold release_of_text in Hr. rewrite (segment_values_length Hr). lia. }
  rewrite Hn. reflexivity.
Qed.

Lemma repin_when_included_witness :
  __init__ "2.3.7"
  = Ok {| text := "2.3.7"; major := 2; minor := 3; patch := 7;
          pre_release := None; build := None |}
  /\ SpecifierSet_contains "2.3.7" [mkSpecifier OpCompatible "2.0"] = Ok true
  /\ update_specifier_set "2.3.7" [mkSpecifier OpCompatible "2.0"]
     = Ok [mkSpecifier OpCompatible "2.3"].
Proof.
  split; [reflexivity|]. split; [reflexivity|].
  apply (repin_when_included
           "2.3.7" _ [mkSpecifier OpCompatible "2.0"]
           (mkSpecifier OpCompatible "2.0")
           eq_refl eq_refl eq_refl eq_refl).
  simpl. lia.
Defined.

(** C5: the comparison of versions is a strict total order.  Of [a < b],
    [a == b] and [a > b] exactly one holds, [a > b] is [b < a], and [<] is
    transitive; the order is the order of the triples (major, minor, patch)
    followed by the precedence of pre-releases; the build part changes
    neither [<] nor [==]. *)
Theorem version_order_total (a b c : SemanticVersion) :
  (__lt__ a b = true /\ __eq__ a b = false /\ __gt__ a b = false
   \/ __lt__ a b = false /\ __eq__ a b = true /\ __gt__ a b = false
   \/ __lt__ a b = false /\ __eq__ a b = false /\ __gt__ a b = true)
  /\ __gt__ a b = __lt__ b a
  /\ (__lt__ a b = true -> __lt__ b c = true -> __lt__ a c = true)
  /\ __lt__ a b = match triple_compare a b with
              | Lt => true
              | Eq => pre_release_lt (pre_release a) (pre_release b)
              | Gt => false
              end
  /\ (forall x y : option string,
         __lt__ (with_build a x) (with_build b y) = __lt__ a b
         /\ __eq__ (with_build a x) (with_build b y) = __eq__ a b).
Proof.
  split; [|split; [|split; [|split]]].
  - unfold __gt__, __le__. rewrite SemVerOrder.lt_spec, SemVerOrder.eq_spec.
    destruct (triple_compare a b); simpl; auto.
    destruct (pre_release a) as [p|], (pre_release b) as [q|]; simpl; auto.
    destruct (String.eqb_spec p q) as [->|Hne].
    + rewrite TextOrder.ltb_irrefl. simpl. auto.
    + destruct (String.ltb p q); simpl; auto.
  - apply SemVerOrder.gt_lt.
  - apply SemVerOrder.lt_trans.
  - apply SemVerOrder.lt_spec.
  - intros x y. split; reflexivity.
Qed.

Lemma version_order_total_witness :
  __lt__ (mkSemVer "1.2.3-rc.1" 1 2 3 (Some "rc.1") None)
     (mkSemVer "1.2.3" 1 2 3 None None) = true
  /\ __lt__ (mkSemVer "1.2.3" 1 2 3 None None)
        (mkSemVer "1.10" 1 10 0 None None) = true
  /\ __lt__ (mkSemVer "1.2.3-rc.1" 1 2 3 (Some "rc.1") None)
        (mkSemVer "1.10" 1 10 0 None None) = true.
Proof.
  split; [reflexivity|]. split; [reflexivity|].
  apply (proj1 (proj2 (proj2 (version_order_total
           (mkSemVer "1.2.3-rc.1" 1 2 3 (Some "rc.1") None)
           (mkSemVer "1.2.3" 1 2 3 None None)
           (mkSemVer "1.10" 1 10 0 None None)))));
    reflexivity.
Defined.

(** C6, as stated, fails: the set that yields [~=2.0] before [~=2.1] is
    updated for latest [2.3.7] to the set of [~=2.1] and [~=2.3], and that
    set, yielding [~=2.1] first, is updated to the set of [~=2.3] alone. *)
Lemma update_twice_differs :
  ~ (forall first,
        update_specifier_set "2.3.7"
          [mkSpecifier OpCompatible "2.0"; mkSpecifier OpCompatible "2.1"]
        = Ok first ->
        exists second,
          update_specifier_set "2.3.7" first = Ok second
          /\ set_eqb second first = true).
Proof.
  intros H. destruct (H _ eq_refl) as (second & [= <-] & Heq).
  discriminate Heq.
Qed.

(** C6, amended: applying the updater twice with the same latest version
    gives what applying it once gives, for a latest version that is a
    release and every set of release specifiers in which at most one
    specifier uses one of the operators the updater rewrites ([==], [~=],
    [<], [<=]) and on which the first application succeeds.  (With a
    wildcard the library re-pins [==2.*] to [==2.3] for latest [2.3.7],
    and a second application then fails: such sets are left out.) *)
Theorem update_twice_one_rewritable
        (latest_version : string) (release : list N)
        (current first : SpecifierSet) :
  release_of_text latest_version = Some release ->
  forallb well_formed current = true ->
  (List.length (filter rewritable current) <= 1)%nat ->
  update_specifier_set latest_version current = Ok first ->
  update_specifier_set latest_version first = Ok first.
Proof.
  intros _ _ Hone H1. pose proof H1 as Hsame.
  unfold update_specifier_set in H1.
  destruct (__init__ latest_version) as [latest|] eqn:Hv;
    [|discriminate].
  cbn [bind] in H1.
  destruct (SpecifierSet_contains latest_version current) as [b|] eqn:Hc;
    [|discriminate].
  destruct (contains_release Hc) as (r & Hr & Hb).
  cbn [bind] in H1. destruct b.
  - rewrite scan_included_find in H1.
    destruct (find pinning current) as [s|] eqn:Hf.
    2:{ cbn in H1. injection H1 as <-. exact Hsame. }
    cbn [bind is_marker new_specifiers] in H1.
    destruct (Specifier_init (operator s)
                (truncated (split "." latest_version) s)) as [n|] eqn:Hi;
      [|discriminate].
    cbn [bind set_union fold_left] in H1.
    apply find_some in Hf. destruct Hf as [Hs Hp].
    assert (Hrs : rewritable s = true) by (unfold rewritable; now rewrite Hp).
    pose proof (remove_only_rewritable s current Hone Hs Hrs) as Hrest.
    pose proof (Specifier_init_ok _ _ _ Hi) as Hn. subst n.
    set (n := {| operator := operator s;
                 version := truncated (split "." latest_version) s |}) in *.
    assert (Hrn : rewritable n = true)
      by (rewrite <- Hrs; now apply rewritable_operator).
    rewrite add_last in H1 by assumption. injection H1 as <-.
    apply (second_application latest_version latest r Hv Hr); auto.
    + intros _. apply truncated_stable.
    + intros Hbd. unfold bounding, pinning in Hbd, Hp. unfold n in *.
      simpl in Hbd. destruct (operator s); try discriminate.
      now apply (scan_compatible latest_version latest r).
    + intros Hbd. rewrite forallb_app. apply andb_true_iff. split.
      * unfold set_remove. now apply forallb_filter.
      * simpl. rewrite andb_true_r.
        assert (Hop : operator s = OpEqual).
        { unfold bounding, pinning in Hbd, Hp. simpl in Hbd.
          destruct (operator s); try discriminate; reflexivity. }
        unfold n. rewrite Hop.
        apply (contains_equal_firstn r s); auto.
        -- symmetry in Hb. rewrite forallb_forall in Hb. now apply Hb.
        -- now apply release_truncated.
  - rewrite scan_not_included_find in H1.
    destruct (find bounding current) as [s|] eqn:Hf; [|discriminate].
    apply find_some in Hf. destruct Hf as [Hs Hbd].
    assert (Hrs : rewritable s = true)
      by (unfold rewritable; rewrite Hbd; apply orb_true_r).
    pose proof (remove_only_rewritable s current Hone Hs Hrs) as Hrest.
    cbn [scan_not_included] in H1. unfold bounding in Hbd.
    destruct (operator s) eqn:Hop; try discriminate.
    + (* ~= *)
      destruct (__init__ (version s)) as [cv|]; [|discriminate].
      cbn [bind] in H1. destruct (major cv <? major latest)%N.
      * rewrite next_version_ok in H1 by reflexivity.
        cbn [bind is_marker new_specifiers] in H1.
        destruct (Specifier_init OpGreaterEqual (__str__ cv)) as [g|] eqn:Hg;
          [|discriminate].
        cbn [bind] in H1.
        destruct (Specifier_init OpLess _) as [l|] eqn:Hl; [|discriminate].
        cbn [bind set_union fold_left] in H1.
        pose proof (Specifier_init_ok _ _ _ Hg) as ->.
        pose proof (Specifier_init_ok _ _ _ Hl) as ->.
        pose proof (add_not_rewritable
                      _ (mkSpecifier OpGreaterEqual (__str__ cv)) Hrest
                      eq_refl) as Hrest'.
        rewrite add_last in H1 by (assumption || reflexivity).
        injection H1 as <-.
        apply (second_application latest_version latest r Hv Hr);
          auto; try discriminate.
        intros _. apply (scan_less latest_version latest 1).
        now rewrite next_version_ok.
      * cbn [bind is_marker new_specifiers] in H1.
        destruct (Specifier_init OpCompatible _) as [n|] eqn:Hi;
          [|discriminate].
        cbn [bind set_union fold_left] in H1.
        pose proof (Specifier_init_ok _ _ _ Hi) as ->.
        rewrite add_last in H1 by (assumption || reflexivity).
        injection H1 as <-.
        apply (second_application latest_version latest r Hv Hr);
          auto; try discriminate.
        -- intros _. apply truncated_stable.
        -- intros _. now apply (scan_compatible latest_version latest r).
    + (* <= *)
      cbn [bind is_marker new_specifiers] in H1.
      destruct (Specifier_init OpLessEqual _) as [n|] eqn:Hi; [|discriminate].
      cbn [bind set_union fold_left] in H1.
      pose proof (Specifier_init_ok _ _ _ Hi) as ->.
      rewrite add_last in H1 by (assumption || reflexivity).
      injection H1 as <-.
      apply (second_application latest_version latest r Hv Hr);
        auto; try discriminate.
      intros _. apply scan_less_equal.
    + (* < *)
      match type of H1 with
      | bind (bind ?c _) _ = _ => destruct c as [u|] eqn:Hu; [|discriminate]
      end.
      cbn [bind is_marker new_specifiers] in H1.
      destruct (Specifier_init OpLess u) as [n|] eqn:Hi; [|discriminate].
      cbn [bind set_union fold_left] in H1.
      pose proof (Specifier_init_ok _ _ _ Hi) as ->.
      rewrite add_last in H1 by (assumption || reflexivity).
      injection H1 as <-.
      apply (second_application latest_version latest r Hv Hr);
        auto; try discriminate.
      intros _. eapply scan_less. exact Hu.
Qed.

Lemma update_twice_one_rewritable_witness :
  update_specifier_set "2.0.0"
    [mkSpecifier OpGreaterEqual "1.0"; mkSpecifier OpLessEqual "1.5"]
  = Ok [mkSpecifier OpGreaterEqual "1.0"; mkSpecifier OpLessEqual "2.0"]
  /\ update_specifier_set "2.0.0"
       [mkSpecifier OpGreaterEqual "1.0"; mkSpecifier OpLessEqual "2.0"]
     = Ok [mkSpecifier OpGreaterEqual "1.0"; mkSpecifier OpLessEqual "2.0"].
Proof.
  split; [reflexivity|].
  apply (update_twice_one_rewritable
           "2.0.0" [2; 0; 0]%N
           [mkSpecifier OpGreaterEqual "1.0"; mkSpecifier OpLessEqual "1.5"]).
  - reflexivity.
  - reflexivity.
  - simpl. lia.
  - reflexivity.
Defined.

(** C7, as stated, fails: a set with a [<] specifier of four segments makes
    the updater raise [UnableToResolve], although a [<] specifier is there. *)
Lemma unable_with_bound_present :
  update_specifier_set "2.0.0" [mkSpecifier OpLess "1.2.3.4"]
  = Raise UnableToResolve
  /\ existsb bounding [mkSpecifier OpLess "1.2.3.4"] = true.
Proof. split; reflexivity. Qed.

(** C7, amended: the updater raises [UnableToResolve] exactly when the
    latest version is a version that is not in the set and either no
    specifier of the set uses [<=], [<] or [~=], or the first such specifier
    is a [<] specifier with more than three segments. *)
Theorem unable_to_resolve_iff
        (latest_version : string) (current : SpecifierSet) :
  update_specifier_set latest_version current = Raise UnableToResolve
  <-> (exists latest, __init__ latest_version = Ok latest)
      /\ SpecifierSet_contains latest_version current = Ok false
      /\ match find bounding current with
         | None => True
         | Some specifier =>
             operator specifier = OpLess
             /\ (3 < List.length (split "." (version specifier)))%nat
         end.
Proof.
  unfold update_specifier_set.
  destruct (__init__ latest_version) as [latest|e] eqn:Hv; simpl.
  2:{ split; [|intros ((? & ?) & _); discriminate].
      intros [= ->]. now apply init_raises in Hv. }
  destruct (SpecifierSet_contains latest_version current) as [[|]|e] eqn:Hc;
    simpl.
  - split; [|intros (_ & ? & _); discriminate].
    rewrite scan_included_find.
    destruct (find pinning current) as [s|]; simpl; [|discriminate].
    destruct (Specifier_init _ _) eqn:E; simpl; [discriminate|].
    intros [= ->]. now apply Specifier_init_raises in E.
  - rewrite scan_not_included_find.
    destruct (find bounding current) as [s|] eqn:Hfind.
    2:{ simpl. split; [eauto|reflexivity]. }
    apply find_some in Hfind. destruct Hfind as [_ Hb].
    rewrite <- (scan_single_unable latest (split "." latest_version) s Hb).
    destruct (scan_not_included latest (split "." latest_version) [s])
      as [[u removed]|e] eqn:Es; simpl.
    + split; [|intros (_ & _ & ?); discriminate].
      destruct (scan_single_ok _ _ _ _ _ Hb Es) as (-> & Hu & Hm).
      destruct u as [|x u]; [tauto|]. rewrite Hm.
      destruct (new_specifiers (x :: u)) eqn:En; simpl; [discriminate|].
      intros [= ->]. now apply new_specifiers_raises in En.
    + split; [intros [= ->]; eauto|]. now intros (_ & _ & [= ->]).
  - split; [|intros (_ & ? & _); discriminate].
    intros [= ->]. now apply contains_raises in Hc.
Qed.

(** C8, as stated, fails: with a marker that never holds the search from
    [3.7] is still running after any number of turns; the loop has no
    ceiling and raises nothing. *)
Lemma search_has_no_ceiling :
  ~ (exists (fuel : nat) (outcome : result string),
        find_minimum_py_version (fun _ => false) "3.7" fuel = Some outcome).
Proof.
  intros (fuel & outcome & H). unfold find_minimum_py_version in H.
  assert (Hs : __init__ "3.7"
               = Ok (mkSemVer "3.7" 3 7 0 None None)) by reflexivity.
  rewrite Hs in H. rewrite search_never in H; [discriminate|].
  intros k. unfold accepted. apply andb_false_r.
Qed.

(** C8, amended: the search has no iteration ceiling.  It returns the first
    candidate, counted from the project version in steps of [next_version]
    at the granularity of the project version, that is semi-valid and
    satisfies the marker, shortened; when no candidate is, the loop does not
    end. *)
Theorem search_returns_first_accepted
        (marker : SemanticVersion -> bool) (project_py_version : string)
        (start : SemanticVersion) :
  __init__ project_py_version = Ok start ->
  (forall k : nat,
      accepted marker (candidate (split "." project_py_version) start k) = true ->
      (forall j, (j < k)%nat ->
                 accepted marker
                          (candidate (split "." project_py_version) start j)
                 = false) ->
      forall fuel, (k <= fuel)%nat ->
                   find_minimum_py_version marker project_py_version fuel
                   = Some (Ok (shortened
                                 (candidate (split "." project_py_version)
                                            start k))))
  /\ ((forall k : nat,
          accepted marker (candidate (split "." project_py_version) start k)
          = false) ->
      forall fuel,
        find_minimum_py_version marker project_py_version fuel = None).
Proof.
  intros Hstart. unfold find_minimum_py_version. rewrite Hstart. split.
  - intros k Hk Hbefore fuel Hfuel. now apply search_found.
  - intros Hnone fuel. now apply search_never.
Qed.

Lemma search_returns_first_accepted_witness :
  __init__ "3.7" = Ok (mkSemVer "3.7" 3 7 0 None None)
  /\ find_minimum_py_version (fun v => (8 <=? minor v)%N) "3.7" 5
     = Some (Ok "3.8").
Proof.
  split; [reflexivity|].
  apply (proj1 (search_returns_first_accepted
                  (fun v => (8 <=? minor v)%N) "3.7" _ eq_refl) 1%nat).
  - reflexivity.
  - intros j Hj. assert (j = 0%nat) as -> by lia. reflexivity.
  - lia.
Defined.

(** C9: a version without a pre-release is strictly greater than every
    version with the same numbers and a pre-release; so [1.0.0] is greater
    than [1.0.0-suffix] for every suffix the grammar accepts.  Two versions
    with equal numbers and a pre-release each compare as their pre-release
    texts do. *)
Theorem release_above_pre_release
        (t1 t2 t3 : string) (M m p : N) (pre pre' : string)
        (b1 b2 b3 : option string) :
  __gt__ (mkSemVer t1 M m p None b1) (mkSemVer t2 M m p (Some pre) b2) = true
  /\ __lt__ (mkSemVer t2 M m p (Some pre) b2) (mkSemVer t1 M m p None b1) = true
  /\ __lt__ (mkSemVer t2 M m p (Some pre) b2) (mkSemVer t3 M m p (Some pre') b3)
     = String.ltb pre pre'
  /\ (forall (suffix : string) (release candidate : SemanticVersion),
         __init__ "1.0.0" = Ok release ->
         __init__ ("1.0.0-" ++ suffix) = Ok candidate ->
         __gt__ release candidate = true).
Proof.
  assert (H : forall x y z q s1 s2 c1 c2,
             __lt__ (mkSemVer s1 x y z q c1) (mkSemVer s2 x y z None c2)
             = match q with Some _ => true | None => false end).
  { intros. unfold __lt__. simpl. rewrite !N.ltb_irrefl, !N.eqb_refl.
    now destruct q. }
  split; [|split; [|split]].
  - rewrite SemVerOrder.gt_lt. apply H.
  - apply H.
  - unfold __lt__. simpl. now rewrite !N.ltb_irrefl, !N.eqb_refl.
  - intros suffix release candidate [= <-] Hc.
    destruct (init_with_pre_release _ _ Hc) as (H1 & H2 & H3 & q & Hq).
    rewrite SemVerOrder.gt_lt. destruct candidate; simpl in *. subst.
    apply H.
Qed.

Lemma release_above_pre_release_witness :
  __init__ "1.0.0" = Ok (mkSemVer "1.0.0" 1 0 0 None None)
  /\ __init__ "1.0.0-alpha"
     = Ok (mkSemVer "1.0.0-alpha" 1 0 0 (Some "alpha") None)
  /\ __gt__ (mkSemVer "1.0.0" 1 0 0 None None)
        (mkSemVer "1.0.0-alpha" 1 0 0 (Some "alpha") None) = true.
Proof.
  split; [reflexivity|]. split; [reflexivity|].
  apply (proj2 (proj2 (proj2 (release_above_pre_release
           "" "" "" 0 0 0 "" "" None None None))) "alpha");
    reflexivity.
Defined.

(** C10: [previous_version] does not return a version when the borrow
    passes major 0: at part [major] with major 0, at part [minor] with
    major and minor 0, and at part [patch] with major, minor and patch 0.
    The text it renders starts with a minus sign, which the grammar check of
    the constructor rejects with [ValueError]. *)
Theorem previous_version_below_zero
        (self : SemanticVersion) (version_part : string)
        (max_filler : option Z) :
  major self = 0%N ->
  version_part = "major"
  \/ (version_part = "minor" /\ minor self = 0%N)
  \/ (version_part = "patch" /\ minor self = 0%N /\ patch self = 0%N) ->
  previous_version self version_part max_filler = Raise ValueError.
Proof.
  intros Hmajor Hpart. unfold previous_version.
  assert (Hneg : forall f : Z,
             __init__ (render3 (Z.of_N (major self) - 1) f f)
             = Raise ValueError).
  { intros f. rewrite Hmajor. reflexivity. }
  destruct Hpart as [->|[[-> Hminor]|(-> & Hminor & Hpatch)]]; simpl.
  - apply Hneg.
  - rewrite Hminor. apply Hneg.
  - rewrite Hminor, Hpatch. apply Hneg.
Qed.

Lemma previous_version_below_zero_witness :
  previous_version (mkSemVer "0.0.0" 0 0 0 None None) "patch" None
  = Raise ValueError.
Proof.
  apply previous_version_below_zero; [reflexivity|].
  right. right. repeat split.
Defined.

(** * Further properties *)

(** ** Parsing what was rendered *)

Module RoundTrip.

Lemma span_spec (p : ascii -> bool) (s : string) :
  all_chars p (fst (span p s)) = true
  /\ match snd (span p s) with
     | EmptyString => True
     | String c _ => p c = false
     end.
Proof.
  induction s as [|c s [IH1 IH2]]; simpl; [auto|].
  destruct (p c) eqn:Hc; simpl; [|auto].
  destruct (span p s) as [a b]. simpl in *. rewrite Hc. auto.
Qed.

Lemma span_tail (p : ascii -> bool) (d tail : string) :
  all_chars p d = true ->
  match tail with
  | EmptyString => True
  | String c _ => p c = false
  end ->
  span p (d ++ tail) = (d, tail).
Proof.
  intros Hd Ht. destruct tail as [|c tail].
  - rewrite TextSplit.append_empty. now apply span_all.
  - now apply span_stop.
Qed.

Lemma opt_dotted_group (lead : ascii) (ok : string -> bool) (s : string)
      (g : option string) (rest : string) :
  opt_dotted lead ok s = Some (g, rest) ->
  group_ok ok g = true.
Proof.
  unfold opt_dotted. destruct s as [|c s]; [now intros [= <- <-]|].
  destruct (Ascii.eqb c lead); [|now intros [= <- <-]].
  pose proof (span_spec is_dotted_char s) as [H1 _].
  destruct (span is_dotted_char s) as [t r]. simpl in H1.
  destruct (forallb ok (split "." t)) eqn:E; [|discriminate].
  intros [= <- <-]. simpl. now rewrite H1, E.
Qed.

Lemma init_grammar_ok (s : string) (v : SemanticVersion) :
  __init__ s = Ok v -> grammar_ok v = true.
Proof.
  unfold __init__, regex_match.
  destruct (span is_digit s) as [mj r0].
  destruct (numeric_ok mj); [|discriminate].
  destruct (opt_number r0) as [[mn r1]|]; [|discriminate].
  destruct (match mn with
            | Some _ => opt_number r1
            | None => Some (None, r1)
            end) as [[pt r2]|]; [|discriminate].
  destruct (opt_dotted "-" pre_ident_ok r2) as [[pre r3]|] eqn:Hpre;
    [|discriminate].
  destruct (opt_dotted "+" build_ident_ok r3) as [[bld r4]|] eqn:Hbld;
    [|discriminate].
  destruct (at_end r4); [|discriminate].
  intros [= <-]. unfold grammar_ok. simpl.
  now rewrite (opt_dotted_group _ _ _ _ _ Hpre),
    (opt_dotted_group _ _ _ _ _ Hbld).
Qed.

Lemma render_parses (v : SemanticVersion) :
  grammar_ok v = true ->
  __init__ (__str__ v) = Ok (with_text v (__str__ v)).
Proof.
  unfold grammar_ok, group_ok. rewrite andb_true_iff. intros [Hpre Hbld].
  unfold __init__, regex_match, __str__, with_text.
  destruct v as [t a b c pre bld]. simpl in *.
  rewrite span_stop by (auto using str_of_nat_digits).
  rewrite str_of_nat_numeric. simpl.
  rewrite span_stop by (auto using str_of_nat_digits).
  rewrite str_of_nat_numeric. simpl.
  assert (Hnum : forall tail,
             match tail with
             | EmptyString => True
             | String x _ => is_digit x = false
             end ->
             span is_digit (str_of_nat c ++ tail) = (str_of_nat c, tail)).
  { intros tail. apply span_tail, str_of_nat_digits. }
  destruct pre as [p|], bld as [q|]; simpl;
    rewrite Hnum by (simpl; auto); rewrite str_of_nat_numeric; simpl.
  - apply andb_true_iff in Hpre, Hbld.
    destruct Hpre as [Hp1 Hp2], Hbld as [Hq1 Hq2].
    rewrite span_stop by auto. rewrite Hp2. simpl.
    rewrite (span_all _ _ Hq1), Hq2. simpl.
    now rewrite !int_of_str_of_nat.
  - apply andb_true_iff in Hpre. destruct Hpre as [Hp1 Hp2].
    rewrite TextSplit.append_empty.
    rewrite (span_all _ _ Hp1), Hp2. simpl.
    now rewrite !int_of_str_of_nat.
  - apply andb_true_iff in Hbld. destruct Hbld as [Hq1 Hq2].
    rewrite (span_all _ _ Hq1), Hq2. simpl.
    now rewrite !int_of_str_of_nat.
  - now rewrite !int_of_str_of_nat.
Qed.

End RoundTrip.

(** X1: a parsed version, rendered by [__str__] and parsed again, gives a
    version with the same major, minor, patch, pre-release and build, equal
    to the first by [__eq__], whose text is the rendering. *)
Theorem str_round_trip (s : string) (v : SemanticVersion) :
  __init__ s = Ok v ->
  __init__ (__str__ v) = Ok (with_text v (__str__ v))
  /\ __eq__ v (with_text v (__str__ v)) = true
  /\ __str__ (with_text v (__str__ v)) = __str__ v.
Proof.
  intros Hs. split; [|split].
  - apply RoundTrip.render_parses, (RoundTrip.init_grammar_ok s), Hs.
  - unfold __eq__, with_text. simpl. rewrite !N.eqb_refl. simpl.
    destruct (pre_release v); simpl; [apply String.eqb_refl|reflexivity].
  - reflexivity.
Qed.

Lemma str_round_trip_witness :
  __init__ "1.5-rc.1+b7"
  = Ok (mkSemVer "1.5-rc.1+b7" 1 5 0 (Some "rc.1") (Some "b7"))
  /\ __init__ "1.5.0-rc.1+b7"
     = Ok (mkSemVer "1.5.0-rc.1+b7" 1 5 0 (Some "rc.1") (Some "b7")).
Proof.
  split; [reflexivity|].
  apply (proj1 (str_round_trip "1.5-rc.1+b7" _ eq_refl)).
Defined.

(** ** Neighbouring versions *)

Module Neighbours.

Lemma init_triple (a b c : Z) :
  (0 <= a)%Z -> (0 <= b)%Z -> (0 <= c)%Z ->
  __init__ (render3 a b c)
  = Ok (mkSemVer (render3 a b c) (Z.to_N a) (Z.to_N b) (Z.to_N c) None None).
Proof.
  intros Ha Hb Hc.
  rewrite <- (Z2N.id a), <- (Z2N.id b), <- (Z2N.id c) by assumption.
  rewrite init_render3. now rewrite !N2Z.id.
Qed.

Lemma lt_major (x y : SemanticVersion) :
  (major x < major y)%N -> __lt__ x y = true.
Proof.
  intros H. unfold __lt__. apply N.ltb_lt in H. now rewrite H.
Qed.

Lemma lt_minor (x y : SemanticVersion) :
  major x = major y -> (minor x < minor y)%N -> __lt__ x y = true.
Proof.
  intros H1 H2. unfold __lt__. rewrite H1, N.ltb_irrefl, N.eqb_refl.
  apply N.ltb_lt in H2. now rewrite H2.
Qed.

Lemma lt_patch (x y : SemanticVersion) :
  major x = major y -> minor x = minor y -> (patch x < patch y)%N ->
  __lt__ x y = true.
Proof.
  intros H1 H2 H3. unfold __lt__.
  rewrite H1, H2, !N.ltb_irrefl, !N.eqb_refl.
  apply N.ltb_lt in H3. now rewrite H3.
Qed.

Lemma valid_part_cases (part : string) :
  valid_part part = true ->
  part = "major" \/ part = "minor" \/ part = "patch".
Proof.
  unfold valid_part. rewrite !orb_true_iff, !String.eqb_eq. tauto.
Qed.

End Neighbours.

(** X2: for a valid part [next_version] always returns a version; it is
    strictly above the version it was asked for, has no pre-release and no
    build, and its text is its full rendering. *)
Theorem next_version_above (self : SemanticVersion) (version_part : string) :
  valid_part version_part = true ->
  exists next,
    next_version self version_part = Ok next
    /\ __lt__ self next = true
    /\ pre_release next = None /\ build next = None
    /\ text next = __str__ next.
Proof.
  intros Hp. rewrite (next_version_ok _ _ Hp).
  eexists. split; [reflexivity|].
  destruct (DottedFacts.split_of_triple (next_triple self version_part))
    as (_ & Hstr & _).
  split; [|split; [|split]]; try (symmetry; exact Hstr).
  - unfold next_triple.
    destruct (Neighbours.valid_part_cases _ Hp) as [-> | [-> | ->]]; simpl.
    + apply Neighbours.lt_major. simpl. lia.
    + apply Neighbours.lt_minor; simpl; [reflexivity|lia].
    + apply Neighbours.lt_patch; simpl; [reflexivity|reflexivity|lia].
  - unfold of_triple. now destruct (next_triple self version_part) as [[? ?] ?].
  - unfold of_triple. now destruct (next_triple self version_part) as [[? ?] ?].
Qed.

Lemma next_version_above_witness :
  exists next,
    next_version (mkSemVer "1.9.3-rc.1" 1 9 3 (Some "rc.1") None) "minor"
    = Ok next
    /\ __lt__ (mkSemVer "1.9.3-rc.1" 1 9 3 (Some "rc.1") None) next = true
    /\ pre_release next = None /\ build next = None
    /\ text next = __str__ next.
Proof. apply next_version_above. reflexivity. Defined.

(** X3: with a filler that is not negative, [previous_version] returns a
    version exactly when the part is valid and the borrow does not pass
    major 0; the version it returns is strictly below the one it was asked
    for. *)
Theorem previous_version_below
        (self : SemanticVersion) (version_part : string) (max_filler : option Z) :
  (forall f, max_filler = Some f -> (0 <= f)%Z) ->
  ((exists previous, previous_version self version_part max_filler = Ok previous)
   <-> (version_part = "major" /\ major self <> 0%N)
       \/ (version_part = "minor"
           /\ (minor self <> 0%N \/ major self <> 0%N))
       \/ (version_part = "patch"
           /\ (patch self <> 0%N \/ minor self <> 0%N \/ major self <> 0%N)))
  /\ (forall previous,
         previous_version self version_part max_filler = Ok previous ->
         __lt__ previous self = true).
Proof.
  intros Hfiller.
  set (filler := match max_filler with Some f => f | None => 99%Z end).
  assert (Hf : (0 <= filler)%Z).
  { unfold filler. destruct max_filler as [f|]; [now apply Hfiller|lia]. }
  assert (Hneg : major self = 0%N ->
                 __init__ (render3 (Z.of_N (major self) - 1) filler filler)
                 = Raise ValueError).
  { intros ->. reflexivity. }
  assert (Hmaj : major self <> 0%N ->
                 __init__ (render3 (Z.of_N (major self) - 1) filler filler)
                 = Ok (mkSemVer
                         (render3 (Z.of_N (major self) - 1) filler filler)
                         (Z.to_N (Z.of_N (major self) - 1))
                         (Z.to_N filler) (Z.to_N filler) None None)).
  { intros H. apply Neighbours.init_triple; lia. }
  assert (Hmin : minor self <> 0%N ->
                 __init__ (render3 (Z.of_N (major self))
                                   (Z.of_N (minor self) - 1) filler)
                 = Ok (mkSemVer
                         (render3 (Z.of_N (major self))
                                  (Z.of_N (minor self) - 1) filler)
                         (Z.to_N (Z.of_N (major self)))
                         (Z.to_N (Z.of_N (minor self) - 1))
                         (Z.to_N filler) None None)).
  { intros H. apply Neighbours.init_triple; lia. }
  assert (Hpat : patch self <> 0%N ->
                 __init__ (render3 (Z.of_N (major self)) (Z.of_N (minor self))
                                   (Z.of_N (patch self) - 1))
                 = Ok (mkSemVer
                         (render3 (Z.of_N (major self)) (Z.of_N (minor self))
                                  (Z.of_N (patch self) - 1))
                         (Z.to_N (Z.of_N (major self)))
                         (Z.to_N (Z.of_N (minor self)))
                         (Z.to_N (Z.of_N (patch self) - 1)) None None)).
  { intros H. apply Neighbours.init_triple; lia. }
  unfold previous_version. fold filler.
  destruct (valid_part version_part) eqn:Hp; simpl.
  2:{ split; [|discriminate]. split; [intros [? ?]; discriminate|].
      unfold valid_part in Hp.
      intros [[-> _]|[[-> _]|[-> _]]]; discriminate. }
  destruct (Neighbours.valid_part_cases _ Hp) as [-> | [-> | ->]]; simpl.
  - destruct (N.eq_dec (major self) 0) as [H0|H0].
    + rewrite (Hneg H0). split; [|discriminate].
      split; [intros [? ?]; discriminate|].
      intros [[_ ?]|[[? _]|[? _]]]; try discriminate. tauto.
    + rewrite (Hmaj H0). split; [split; eauto|].
      intros previous [= <-]. apply Neighbours.lt_major. simpl. lia.
  - destruct (N.eqb_spec (minor self) 0) as [Hm|Hm].
    + destruct (N.eq_dec (major self) 0) as [H0|H0].
      * rewrite (Hneg H0). split; [|discriminate].
        split; [intros [? ?]; discriminate|].
        intros [[? _]|[[_ ?]|[? _]]]; try discriminate. tauto.
      * rewrite (Hmaj H0). split; [split; eauto 6|].
        intros previous [= <-]. apply Neighbours.lt_major. simpl. lia.
    + rewrite (Hmin Hm). split; [split; eauto 6|].
      intros previous [= <-]. apply Neighbours.lt_minor; simpl; lia.
  - destruct (N.eqb_spec (patch self) 0) as [Hq|Hq].
    + destruct (N.eqb_spec (minor self) 0) as [Hm|Hm].
      * destruct (N.eq_dec (major self) 0) as [H0|H0].
        -- rewrite (Hneg H0). split; [|discriminate].
           split; [intros [? ?]; discriminate|].
           intros [[? _]|[[? _]|[_ ?]]]; try discriminate. tauto.
        -- rewrite (Hmaj H0). split; [split; eauto 8|].
           intros previous [= <-]. apply Neighbours.lt_major. simpl. lia.
      * rewrite (Hmin Hm). split; [split; eauto 8|].
        intros previous [= <-]. apply Neighbours.lt_minor; simpl; lia.
    + rewrite (Hpat Hq). split; [split; eauto 8|].
      intros previous [= <-]. apply Neighbours.lt_patch; simpl; lia.
Qed.

Lemma previous_version_below_witness :
  previous_version (mkSemVer "3.0" 3 0 0 None None) "minor" (Some 20%Z)
  = Ok (mkSemVer "2.20.20" 2 20 20 None None)
  /\ __lt__ (mkSemVer "2.20.20" 2 20 20 None None)
            (mkSemVer "3.0" 3 0 0 None None) = true.
Proof.
  split; [reflexivity|].
  apply (proj2 (previous_version_below
                  (mkSemVer "3.0" 3 0 0 None None) "minor" (Some 20%Z)
                  ltac:(intros f [= <-]; lia))).
  reflexivity.
Defined.

(** X4: the shortened form of a version is itself a version text: parsing
    it gives back the major, minor and patch of the version, without
    pre-release and build; it has one segment when minor and patch are 0,
    two when only patch is 0, and three otherwise. *)
Theorem shortened_parses (self : SemanticVersion) :
  __init__ (shortened self)
  = Ok (mkSemVer (shortened self) (major self) (minor self) (patch self)
                 None None)
  /\ List.length (split "." (shortened self))
     = (if (patch self =? 0)%N
        then if (minor self =? 0)%N then 1 else 2
        else 3)%nat.
Proof.
  unfold shortened.
  pose proof (str_of_nat_digits (major self)) as Ha.
  pose proof (str_of_nat_digits (minor self)) as Hb.
  pose proof (str_of_nat_digits (patch self)) as Hc.
  destruct (N.eqb_spec (patch self) 0) as [Hp|Hp];
    [destruct (N.eqb_spec (minor self) 0) as [Hm|Hm]|].
  - rewrite DottedFacts.init_one, str_of_nat_numeric by assumption.
    rewrite int_of_str_of_nat, Hp, Hm. split; [reflexivity|].
    apply DottedFacts.split_str_of_nat.
  - simpl. rewrite DottedFacts.init_two by assumption.
    rewrite !str_of_nat_numeric, !int_of_str_of_nat, Hp. simpl.
    split; [reflexivity|].
    rewrite split_app, split_dot_free by now apply DottedFacts.digits_dot_free.
    reflexivity.
  - simpl. rewrite DottedFacts.init_three by assumption.
    rewrite !str_of_nat_numeric, !int_of_str_of_nat. simpl.
    split; [reflexivity|].
    rewrite !split_app, split_dot_free
      by now apply DottedFacts.digits_dot_free.
    reflexivity.
Qed.

(** ** The six rich comparisons *)

Module Comparisons.

Lemma eq_fields (a b : SemanticVersion) :
  __eq__ a b = true ->
  major a = major b /\ minor a = minor b /\ patch a = patch b
  /\ pre_release a = pre_release b.
Proof.
  unfold __eq__. rewrite !andb_true_iff, !N.eqb_eq.
  intros [[[H1 H2] H3] H4]. repeat split; try assumption.
  destruct (pre_release a), (pre_release b); simpl in H4;
    try discriminate; [|reflexivity].
  apply String.eqb_eq in H4. now subst.
Qed.

Lemma lt_fields (a a' b b' : SemanticVersion) :
  major a = major a' -> minor a = minor a' -> patch a = patch a' ->
  pre_release a = pre_release a' ->
  major b = major b' -> minor b = minor b' -> patch b = patch b' ->
  pre_release b = pre_release b' ->
  __lt__ a b = __lt__ a' b'.
Proof. unfold __lt__. now intros -> -> -> -> -> -> -> ->. Qed.

End Comparisons.

(** X5: the six rich comparisons agree with one another: [a <= b] is
    [b >= a] and the negation of [a > b]; [a >= b] is [a > b or a == b];
    [a != b] is [a < b or a > b]. *)
Theorem rich_comparisons_agree (a b : SemanticVersion) :
  __le__ a b = __ge__ b a
  /\ __le__ a b = negb (__gt__ a b)
  /\ __ge__ a b = (__gt__ a b || __eq__ a b)
  /\ __ne__ a b = (__lt__ a b || __gt__ a b).
Proof.
  pose proof (SemVerOrder.gt_lt a b) as Hgt.
  pose proof (SemVerOrder.gt_lt b a) as Hgt'.
  unfold __gt__, __le__, __ge__, __ne__ in *.
  assert (Hsym : __eq__ b a = __eq__ a b).
  { rewrite !SemVerOrder.eq_spec, (SemVerOrder.triple_compare_antisym a b).
    destruct (triple_compare a b); simpl; try reflexivity.
    destruct (pre_release a), (pre_release b); simpl; try reflexivity.
    apply String.eqb_sym. }
  rewrite Hsym in Hgt'.
  destruct (__lt__ a b), (__eq__ a b), (__lt__ b a); simpl in *;
    try discriminate; auto.
Qed.

(** X6: [__eq__] is an equivalence on versions, and versions that are equal
    by it compare alike with every other version, whatever their texts and
    builds are. *)
Theorem eq_is_congruence (a b c : SemanticVersion) :
  __eq__ a a = true
  /\ __eq__ a b = __eq__ b a
  /\ (__eq__ a b = true -> __eq__ b c = true -> __eq__ a c = true)
  /\ (__eq__ a b = true ->
      __lt__ a c = __lt__ b c /\ __lt__ c a = __lt__ c b
      /\ __eq__ a c = __eq__ b c).
Proof.
  split; [|split; [|split]].
  - unfold __eq__. rewrite !N.eqb_refl. simpl.
    destruct (pre_release a); simpl; [apply String.eqb_refl|reflexivity].
  - unfold __eq__.
    rewrite (N.eqb_sym (major a)), (N.eqb_sym (minor a)),
      (N.eqb_sym (patch a)).
    f_equal. destruct (pre_release a), (pre_release b); simpl;
      try reflexivity. apply String.eqb_sym.
  - intros Hab Hbc.
    destruct (Comparisons.eq_fields _ _ Hab) as (H1 & H2 & H3 & H4).
    unfold __eq__ in *. now rewrite H1, H2, H3, H4.
  - intros Hab.
    destruct (Comparisons.eq_fields _ _ Hab) as (H1 & H2 & H3 & H4).
    split; [|split].
    + now apply Comparisons.lt_fields.
    + now apply Comparisons.lt_fields.
    + unfold __eq__. now rewrite H1, H2, H3, H4.
Qed.

Lemma eq_is_congruence_witness :
  __eq__ (mkSemVer "1.0" 1 0 0 None None)
         (mkSemVer "1.0.0+b1" 1 0 0 None (Some "b1")) = true
  /\ __lt__ (mkSemVer "1.0" 1 0 0 None None)
            (mkSemVer "1.0.1" 1 0 1 None None)
     = __lt__ (mkSemVer "1.0.0+b1" 1 0 0 None (Some "b1"))
              (mkSemVer "1.0.1" 1 0 1 None None).
Proof.
  split; [reflexivity|].
  apply (proj2 (proj2 (proj2 (eq_is_congruence
           (mkSemVer "1.0" 1 0 0 None None)
           (mkSemVer "1.0.0+b1" 1 0 0 None (Some "b1"))
           (mkSemVer "1.0.1" 1 0 1 None None))))).
  reflexivity.
Defined.

(** X7: at part [patch], [previous_version] undoes [next_version]: the
    version before the next patch has the major, minor and patch of the
    version itself, and neither pre-release nor build. *)
Theorem previous_of_next_patch (self : SemanticVersion) (max_filler : option Z) :
  (next <- next_version self "patch" ;;
   previous_version next "patch" max_filler)
  = Ok (mkSemVer (render3 (Z.of_N (major self)) (Z.of_N (minor self))
                          (Z.of_N (patch self)))
                 (major self) (minor self) (patch self) None None).
Proof.
  rewrite next_version_ok by reflexivity. simpl.
  unfold previous_version. simpl.
  destruct (N.eqb_spec (patch self + 1) 0) as [H|_]; [lia|].
  replace (Z.of_N (patch self + 1) - 1)%Z with (Z.of_N (patch self)) by lia.
  apply init_render3.
Qed.

(** ** Versions and their releases *)

Module Triples.
Import ReleaseFacts DottedFacts.





Lemma segment_value_int (p : string) (n : N) :
  segment_value p = Some n -> n = int_of_digits p.
Proof.
  unfold segment_value. destruct p; [discriminate|].
  destruct (all_chars is_digit (String a p)); congruence.
Qed.

(** A version whose text is a dotted number has one to three segments, its
    numbers are those segments padded with zeros, and it has neither
    pre-release nor build. *)
Lemma init_release (t : string) (v : SemanticVersion) (r : list N) :
  __init__ t = Ok v -> release_of_text t = Some r ->
  pad 3 r = triple v /\ (1 <= List.length r <= 3)%nat
  /\ pre_release v = None /\ build v = None.
Proof.
  intros Hv Hr. rewrite <- (join_split t) in Hv.
  unfold release_of_text in Hr. revert Hv Hr.
  destruct (split "." t) as [|p1 [|p2 [|p3 [|p4 rest]]]];
    simpl segment_values.
  - discriminate.
  - destruct (segment_value p1) eqn:E1; [|discriminate].
    intros Hv [= <-].
    pose proof (segment_value_int _ _ E1). apply segment_value_digits in E1.
    change (join "." [p1]) with p1 in Hv. rewrite (init_one _ E1) in Hv.
    destruct (numeric_ok p1); [|discriminate]. injection Hv as <-.
    subst. unfold triple. simpl. repeat split; lia.
  - destruct (segment_value p1) eqn:E1; [|discriminate].
    destruct (segment_value p2) eqn:E2; [|discriminate].
    intros Hv [= <-].
    pose proof (segment_value_int _ _ E1).
    pose proof (segment_value_int _ _ E2).
    apply segment_value_digits in E1, E2.
    change (join "." [p1; p2]) with (p1 ++ String "." p2) in Hv.
    rewrite (init_two _ _ E1 E2) in Hv.
    destruct (numeric_ok p1 && numeric_ok p2); [|discriminate].
    injection Hv as <-. subst. unfold triple. simpl. repeat split; lia.
  - destruct (segment_value p1) eqn:E1; [|discriminate].
    destruct (segment_value p2) eqn:E2; [|discriminate].
    destruct (segment_value p3) eqn:E3; [|discriminate].
    intros Hv [= <-].
    pose proof (segment_value_int _ _ E1).
    pose proof (segment_value_int _ _ E2).
    pose proof (segment_value_int _ _ E3).
    apply segment_value_digits in E1, E2, E3.
    change (join "." [p1; p2; p3])
      with (p1 ++ String "." (p2 ++ String "." p3)) in Hv.
    rewrite (init_three _ _ _ E1 E2 E3) in Hv.
    destruct (numeric_ok p1 && numeric_ok p2 && numeric_ok p3);
      [|discriminate].
    injection Hv as <-. subst. unfold triple. simpl. repeat split; lia.
  - destruct (segment_value p1) eqn:E1; [|discriminate].
    destruct (segment_value p2) eqn:E2; [|discriminate].
    destruct (segment_value p3) eqn:E3; [|discriminate]. intros Hv _.
    apply segment_value_digits in E1, E2, E3.
    change (join "." (p1 :: p2 :: p3 :: p4 :: rest))
      with (p1 ++ String "." (p2 ++ String "."
                (p3 ++ String "." (join "." (p4 :: rest))))) in Hv.
    now rewrite (init_four _ _ _ _ E1 E2 E3) in Hv.
Qed.







End Triples.

(** ** Results of the updater *)

Module Results.
Import SetFacts ReleaseFacts.



Lemma forallb_set_add (f : Specifier -> bool) (s : Specifier)
      (set : SpecifierSet) :
  f s = true -> forallb f set = true -> forallb f (set_add s set) = true.
Proof.
  intros Hs Hset. unfold set_add. destruct (existsb _ set); [assumption|].
  rewrite forallb_app. simpl. now rewrite Hset, Hs.
Qed.



End Results.

(** X8: when the latest version is in the set and no specifier of the set
    uses [~=] or [==], the updater returns the set as it is; so it does for
    the empty set, which holds every version. *)
Theorem update_leaves_included
        (latest_version : string) (latest : SemanticVersion)
        (current : SpecifierSet) :
  __init__ latest_version = Ok latest ->
  SpecifierSet_contains latest_version current = Ok true ->
  existsb pinning current = false ->
  update_specifier_set latest_version current = Ok current.
Proof.
  intros Hv Hc Hp. unfold update_specifier_set.
  rewrite Hv. cbn [bind]. rewrite Hc. cbn [bind].
  rewrite scan_included_find.
  destruct (find pinning current) as [s|] eqn:Hf; [|reflexivity].
  apply find_some in Hf. destruct Hf as [Hs Hps].
  assert (existsb pinning current = true)
    by (apply existsb_exists; eauto).
  congruence.
Qed.

Lemma update_leaves_included_witness :
  update_specifier_set "2.2.2"
    [mkSpecifier OpGreaterEqual "1.0"; mkSpecifier OpLess "3"]
  = Ok [mkSpecifier OpGreaterEqual "1.0"; mkSpecifier OpLess "3"]
  /\ update_specifier_set "2.2.2" [] = Ok [].
Proof.
  split.
  - apply (update_leaves_included
             "2.2.2" _
             [mkSpecifier OpGreaterEqual "1.0"; mkSpecifier OpLess "3"]
             eq_refl eq_refl eq_refl).
  - apply (update_leaves_included "2.2.2" _ [] eq_refl eq_refl eq_refl).
Defined.



(** X10: for a set of release specifiers, a latest version that is a
    release in the set is in the result as well: re-pinning a [~=] or
    [==] specifier on a release never shuts the latest version out.  (A
    wildcard is left out: the library re-pins [==2.*] to [==2.3] for
    latest [2.3.7].) *)
Theorem update_keeps_included
        (latest_version : string) (current result : SpecifierSet) :
  forallb well_formed current = true ->
  SpecifierSet_contains latest_version current = Ok true ->
  update_specifier_set latest_version current = Ok result ->
  SpecifierSet_contains latest_version result = Ok true.
Proof.
  intros _ Hc Hu. destruct (contains_release Hc) as (r & Hr & Hb).
  symmetry in Hb. unfold SpecifierSet_contains. rewrite Hr. f_equal.
  revert Hu. unfold update_specifier_set.
  destruct (__init__ latest_version) as [latest|]; [|discriminate].
  cbn [bind]. rewrite Hc. cbn [bind]. rewrite scan_included_find.
  destruct (find pinning current) as [s|] eqn:Hf.
  2:{ cbn. now intros [= <-]. }
  apply find_some in Hf. destruct Hf as [Hs Hp].
  cbn [is_marker new_specifiers].
  destruct (Specifier_init (operator s) _) as [n|] eqn:Hn; [|discriminate].
  cbn [bind set_union fold_left]. intros [= <-].
  pose proof (SetFacts.Specifier_init_ok _ _ _ Hn) as ->.
  apply Results.forallb_set_add.
  - rewrite forallb_forall in Hb. pose proof (Hb s Hs) as Hrs.
    unfold pinning in Hp. destruct (operator s) eqn:Hop; try discriminate.
    + apply (ReleaseFacts.contains_compatible_prefix r
               (List.length (split "." (version s)))).
      now apply release_truncated.
    + apply (ReleaseFacts.contains_equal_firstn r s); auto.
      now apply release_truncated.
  - unfold set_remove. now apply forallb_filter.
Qed.

Lemma update_keeps_included_witness :
  SpecifierSet_contains "2.3.7"
    [mkSpecifier OpGreaterEqual "2"; mkSpecifier OpCompatible "2.3"]
  = Ok true.
Proof.
  apply (update_keeps_included
           "2.3.7"
           [mkSpecifier OpCompatible "2.0"; mkSpecifier OpGreaterEqual "2"]);
    reflexivity.
Defined.

(** ** The new bounds and the latest version *)

Module Bounds.
Import SetFacts ReleaseFacts DottedFacts Triples.




Lemma str_of_triple (a b c : N) :
  __str__ (of_triple (a, b, c))
  = (str_of_nat a ++ "." ++ str_of_nat b ++ "." ++ str_of_nat c)%string
  /\ text (of_triple (a, b, c))
     = (str_of_nat a ++ "." ++ str_of_nat b ++ "." ++ str_of_nat c)%string.
Proof.
  unfold __str__, of_triple, render3. simpl. rewrite !str_of_int_of_N.
  now rewrite !append_empty.
Qed.




End Bounds.





(** ** The ignore evaluator *)

Module IgnoreFacts.

Lemma unknown_found (rules : list string) (x : string) :
  In x rules -> mem x ["major"; "minor"; "patch"] = false ->
  existsb (fun y => negb (mem y ["major"; "minor"; "patch"])) rules = true.
Proof.
  intros Hin Hx. apply existsb_exists. exists x. now rewrite Hx.
Qed.

Lemma ignore_version_unfold (current latest : list string)
      (version_rules : list version_rule) (rules : list string) :
  ignore_version current latest version_rules (Some rules)
  = (by_version <- _ignore_version_rules_specifier_set latest version_rules ;;
     if by_version : bool then Ok true
     else by_semver <- _ignore_semver_rules current latest rules ;;
          if by_semver : bool then Ok true else Ok false).
Proof. unfold ignore_version. now destruct version_rules. Qed.

Lemma rule_specifiers_raises (v : string) (n : N)
      (version_rules : list version_rule) :
  In (OpCompatible, v) version_rules -> release_of_text v = Some [n] ->
  exists e, rule_specifiers version_rules = Raise e.
Proof.
  intros Hin Hv. induction version_rules as [|[op w] rest IH]; [easy|].
  simpl. destruct Hin as [[= -> ->]|Hin].
  - unfold Specifier_init. rewrite Hv. simpl. eauto.
  - destruct (Specifier_init op w); simpl; [|eauto].
    destruct (IH Hin) as [e ->]. simpl. eauto.
Qed.

End IgnoreFacts.

(** X13: an update type other than [major], [minor] and [patch] makes
    [ignore_version] raise [InputParserError], whatever the other update
    types and the versions are, unless the version rules decide first: when
    they match the answer is true and the update types are not looked at. *)
Theorem unknown_update_type
        (current latest : list string) (version_rules : list version_rule)
        (rules : list string) (unknown : string) :
  In unknown rules ->
  mem unknown ["major"; "minor"; "patch"] = false ->
  ignore_version current latest version_rules (Some rules)
  = match _ignore_version_rules_specifier_set latest version_rules with
    | Ok true => Ok true
    | Ok false => Raise InputParserError
    | Raise e => Raise e
    end.
Proof.
  intros Hin Hx. rewrite IgnoreFacts.ignore_version_unfold.
  destruct (_ignore_version_rules_specifier_set latest version_rules)
    as [[|]|e]; try reflexivity.
  cbn [bind]. unfold _ignore_semver_rules.
  now rewrite (IgnoreFacts.unknown_found _ _ Hin Hx).
Qed.

Lemma unknown_update_type_witness :
  ignore_version ["1"; "1"; "1"] ["2"; "2"; "2"] [] (Some ["major"; "build"])
  = Raise InputParserError.
Proof.
  apply (unknown_update_type
           ["1"; "1"; "1"] ["2"; "2"; "2"] [] ["major"; "build"] "build").
  - simpl. auto.
  - reflexivity.
Defined.

(** X14: when the update types are valid and [major] is among them, and no
    version rule is given, the answer is whether the first segments of the
    two versions differ as texts; [minor] and [patch] next to [major]
    change nothing.  A version without segments raises [IndexError]. *)
Theorem major_update_type_decides
        (current latest : list string) (rules : list string) :
  existsb (fun y => negb (mem y ["major"; "minor"; "patch"])) rules = false ->
  mem "major" rules = true ->
  ignore_version current latest [] (Some rules)
  = match latest, current with
    | l0 :: _, c0 :: _ => Ok (negb (String.eqb l0 c0))
    | _, _ => Raise IndexError
    end.
Proof.
  intros Hvalid Hmajor. rewrite IgnoreFacts.ignore_version_unfold.
  cbn [_ignore_version_rules_specifier_set bind].
  unfold _ignore_semver_rules. rewrite Hvalid, Hmajor.
  destruct latest as [|l0 ls]; [reflexivity|].
  destruct current as [|c0 cs]; [reflexivity|].
  cbn. now destruct (String.eqb l0 c0).
Qed.

Lemma major_update_type_decides_witness :
  ignore_version ["1"; "1"; "1"] ["1"; "2"; "1"] []
                 (Some ["minor"; "major"; "patch"]) = Ok false.
Proof.
  apply (major_update_type_decides
           ["1"; "1"; "1"] ["1"; "2"; "1"] ["minor"; "major"; "patch"]);
    reflexivity.
Defined.

(** X15: without the update type [major], and without version rules, a
    change of the first segment is never ignored: [minor] and [patch] only
    match when the first segments agree. *)
Theorem major_change_needs_major
        (current latest : list string) (rules : list string) :
  existsb (fun y => negb (mem y ["major"; "minor"; "patch"])) rules = false ->
  mem "major" rules = false ->
  String.eqb (nth 0 latest "") (nth 0 current "") = false ->
  ignore_version current latest [] (Some rules) = Ok false.
Proof.
  intros Hvalid Hmajor Hne. rewrite IgnoreFacts.ignore_version_unfold.
  cbn [_ignore_version_rules_specifier_set bind].
  unfold _ignore_semver_rules. rewrite Hvalid, Hmajor, Hne.
  rewrite !andb_false_r. simpl.
  destruct (mem "minor" rules); [reflexivity|].
  now destruct (mem "patch" rules).
Qed.

Lemma major_change_needs_major_witness :
  ignore_version ["1"; "1"; "1"] ["2"; "2"; "2"] []
                 (Some ["minor"; "patch"]) = Ok false.
Proof.
  apply (major_change_needs_major
           ["1"; "1"; "1"] ["2"; "2"; "2"] ["minor"; "patch"]);
    reflexivity.
Defined.

(** X16: a version rule with the operator [~=] and a version of a single
    segment makes [ignore_version] raise [InputError], whatever the
    versions, the other rules and the update types are. *)
Theorem compatible_rule_needs_two_segments
        (current latest : list string) (version_rules : list version_rule)
        (semver_rules : option (list string)) (v : string) (n : N) :
  In (OpCompatible, v) version_rules ->
  release_of_text v = Some [n] ->
  ignore_version current latest version_rules semver_rules = Raise InputError.
Proof.
  intros Hin Hv.
  destruct (IgnoreFacts.rule_specifiers_raises _ _ _ Hin Hv) as [e He].
  unfold ignore_version, _ignore_version_rules_specifier_set.
  destruct version_rules as [|rule rest]; [easy|].
  rewrite He. reflexivity.
Qed.

Lemma compatible_rule_needs_two_segments_witness :
  ignore_version ["1"; "1"; "1"] ["2"; "2"; "2"]
                 [(OpGreater, "1"); (OpCompatible, "2")] None
  = Raise InputError.
Proof.
  apply (compatible_rule_needs_two_segments
           ["1"; "1"; "1"] ["2"; "2"; "2"]
           [(OpGreater, "1"); (OpCompatible, "2")] None "2" 2%N).
  - simpl. auto.
  - reflexivity.
Defined.

(** ** The search for the minimum Python version *)

Module SearchFacts.

Lemma lt_irrefl (v : SemanticVersion) : __lt__ v v = false.
Proof.
  unfold __lt__. rewrite !N.ltb_irrefl, !N.eqb_refl.
  destruct (pre_release v); [apply TextOrder.ltb_irrefl|reflexivity].
Qed.

Lemma lt_advance (sp : list string) (v : SemanticVersion) :
  __lt__ v (advance sp v) = true.
Proof.
  unfold advance, next_triple.
  destruct (_ =? 1)%nat; [|destruct (_ =? 2)%nat]; simpl.
  - apply Neighbours.lt_major. simpl. lia.
  - apply Neighbours.lt_minor; simpl; [reflexivity|lia].
  - apply Neighbours.lt_patch; simpl; [reflexivity|reflexivity|lia].
Qed.

Lemma candidate_not_below (sp : list string) (k : nat) :
  forall v, __lt__ (candidate sp v k) v = false.
Proof.
  induction k as [|k IH]; intros v; simpl; [apply lt_irrefl|].
  destruct (__lt__ (candidate sp (advance sp v) k) v) eqn:E; [|reflexivity].
  pose proof (SemVerOrder.lt_trans _ _ _ E (lt_advance sp v)) as H.
  now rewrite IH in H.
Qed.

Lemma search_sound (marker : SemanticVersion -> bool) (sp : list string)
      (fuel : nat) :
  forall (v : SemanticVersion) (outcome : result string),
    search marker sp fuel v = Some outcome ->
    exists k, (k <= fuel)%nat
              /\ accepted marker (candidate sp v k) = true
              /\ (forall j, (j < k)%nat ->
                            accepted marker (candidate sp v j) = false)
              /\ outcome = Ok (shortened (candidate sp v k)).
Proof.
  induction fuel as [|fuel IH]; intros v outcome; rewrite search_step;
    destruct (accepted marker v) eqn:Ha.
  - intros [= <-]. exists 0%nat. repeat split; auto. intros j Hj. lia.
  - discriminate.
  - intros [= <-]. exists 0%nat. repeat split; auto; [lia|].
    intros j Hj. lia.
  - intros H. destruct (IH _ _ H) as (k & Hk & Hacc & Hmin & ->).
    exists (S k). repeat split; auto; [lia|].
    intros [|j] Hj; [exact Ha|]. simpl. apply Hmin. lia.
Qed.

Lemma stuck_advance (sp : list string) (v : SemanticVersion) :
  stuck sp v -> stuck sp (advance sp v).
Proof.
  unfold stuck, advance, next_triple.
  destruct (Nat.eqb_spec (List.length sp) 1) as [H1|H1];
    [|destruct (_ =? 2)%nat]; simpl; intros [H|[H H']]; try tauto;
    left; lia.
Qed.

Lemma stuck_not_accepted (marker : SemanticVersion -> bool)
      (sp : list string) (k : nat) :
  forall v, stuck sp v -> accepted marker (candidate sp v k) = false.
Proof.
  induction k as [|k IH]; intros v Hv; simpl.
  - unfold accepted, _semi_valid_python_version.
    destruct Hv as [H|[H _]].
    + apply N.leb_gt in H. rewrite H, andb_false_r. reflexivity.
    + rewrite H. reflexivity.
  - apply IH, stuck_advance, Hv.
Qed.

End SearchFacts.

(** X17: whatever [find_minimum_py_version] returns after the project
    version was parsed is the shortened form of the first candidate that is
    semi-valid and satisfies the marker; the loop itself raises nothing, so
    the only error is the [ValueError] of a project version that is not a
    version. *)
Theorem search_result_is_first_accepted
        (marker : SemanticVersion -> bool) (project_py_version : string)
        (fuel : nat) (outcome : result string) :
  find_minimum_py_version marker project_py_version fuel = Some outcome ->
  (__init__ project_py_version = Raise ValueError
   /\ outcome = Raise ValueError)
  \/ exists (start : SemanticVersion) (k : nat),
      __init__ project_py_version = Ok start
      /\ (k <= fuel)%nat
      /\ accepted marker (candidate (split "." project_py_version) start k)
         = true
      /\ (forall j, (j < k)%nat ->
                    accepted marker
                             (candidate (split "." project_py_version) start j)
                    = false)
      /\ outcome
         = Ok (shortened (candidate (split "." project_py_version) start k)).
Proof.
  unfold find_minimum_py_version.
  destruct (__init__ project_py_version) as [start|e] eqn:Hs.
  - intros H. right. exists start.
    destruct (SearchFacts.search_sound _ _ _ _ _ H) as (k & Hk).
    exists k. tauto.
  - intros [= <-]. left. apply init_raises in Hs. now subst.
Qed.

Lemma search_result_is_first_accepted_witness :
  (__init__ "3.7" = Raise ValueError
   /\ Ok "3.9" = @Raise string ValueError)
  \/ exists (start : SemanticVersion) (k : nat),
      __init__ "3.7" = Ok start
      /\ (k <= 10)%nat
      /\ accepted (fun v => (9 <=? minor v)%N)
                  (candidate (split "." "3.7") start k) = true
      /\ (forall j, (j < k)%nat ->
                    accepted (fun v => (9 <=? minor v)%N)
                             (candidate (split "." "3.7") start j) = false)
      /\ Ok "3.9" = Ok (shortened (candidate (split "." "3.7") start k)).
Proof.
  apply (search_result_is_first_accepted
           (fun v => (9 <=? minor v)%N) "3.7" 10 (Ok "3.9")).
  reflexivity.
Defined.

(** X18: a version that the search accepts is never below the project
    version, and its numbers are in the ranges of the semi-valid check:
    major from 1 to 3, minor at most 12, patch at most 18. *)
Theorem accepted_candidate_bounds
        (marker : SemanticVersion -> bool) (split_py_version : list string)
        (start : SemanticVersion) (k : nat) :
  accepted marker (candidate split_py_version start k) = true ->
  __lt__ (candidate split_py_version start k) start = false
  /\ (1 <= major (candidate split_py_version start k) <= 3)%N
  /\ (minor (candidate split_py_version start k) <= 12)%N
  /\ (patch (candidate split_py_version start k) <= 18)%N
  /\ marker (candidate split_py_version start k) = true.
Proof.
  intros Ha. split; [apply SearchFacts.candidate_not_below|].
  revert Ha. unfold accepted, _semi_valid_python_version.
  set (c := candidate split_py_version start k).
  destruct (N.leb_spec 1 (major c)); simpl; [|discriminate].
  destruct (N.leb_spec (major c) 3); simpl; [|discriminate].
  destruct (N.leb_spec (minor c) 12); simpl; [|discriminate].
  destruct (N.leb_spec (patch c) 18); simpl; [|discriminate].
  intros ->. repeat split; assumption.
Qed.

Lemma accepted_candidate_bounds_witness :
  __lt__ (candidate ["3"; "7"] (mkSemVer "3.7" 3 7 0 None None) 2)
         (mkSemVer "3.7" 3 7 0 None None) = false.
Proof.
  apply (accepted_candidate_bounds (fun v => (9 <=? minor v)%N)).
  reflexivity.
Defined.

(** X19: the search never ends, whatever the marker is, when the project
    version has a major above 3, or the major 0 and more than one segment:
    the steps never lead to a semi-valid version from there. *)
Theorem search_stuck
        (marker : SemanticVersion -> bool) (project_py_version : string)
        (start : SemanticVersion) :
  __init__ project_py_version = Ok start ->
  (3 < major start)%N
  \/ (major start = 0%N
      /\ List.length (split "." project_py_version) <> 1%nat) ->
  forall fuel,
    find_minimum_py_version marker project_py_version fuel = None.
Proof.
  intros Hs Hstuck fuel. unfold find_minimum_py_version. rewrite Hs.
  apply search_never. intros k.
  now apply SearchFacts.stuck_not_accepted.
Qed.

Lemma search_stuck_witness :
  find_minimum_py_version (fun _ => true) "0.9" 25 = None.
Proof.
  apply (search_stuck (fun _ => true) "0.9" _ eq_refl).
  right. split; [reflexivity|]. simpl. lia.
Defined.

(** ** The minimum or maximum Python version of a specifier set *)

Module MinMaxFacts.
Import Triples DottedFacts.


Lemma previous_major (self : SemanticVersion) :
  major self <> 0%N ->
  exists pv, previous_version self "major" None = Ok pv
             /\ __lt__ pv self = true.
Proof.
  intros H. unfold previous_version. simpl.
  rewrite Neighbours.init_triple by lia. eexists. split; [reflexivity|].
  apply Neighbours.lt_major. simpl. lia.
Qed.

Lemma previous_minor (self : SemanticVersion) :
  minor self <> 0%N \/ major self <> 0%N ->
  exists pv, previous_version self "minor" None = Ok pv
             /\ __lt__ pv self = true.
Proof.
  intros H. unfold previous_version. simpl.
  destruct (N.eqb_spec (minor self) 0) as [Hm|Hm].
  - rewrite Neighbours.init_triple by lia. eexists. split; [reflexivity|].
    apply Neighbours.lt_major. simpl. lia.
  - rewrite Neighbours.init_triple by lia. eexists. split; [reflexivity|].
    apply Neighbours.lt_minor; simpl; lia.
Qed.

Lemma previous_patch (self : SemanticVersion) :
  patch self <> 0%N \/ minor self <> 0%N \/ major self <> 0%N ->
  exists pv, previous_version self "patch" None = Ok pv
             /\ __lt__ pv self = true.
Proof.
  intros H. unfold previous_version. simpl.
  destruct (N.eqb_spec (patch self) 0) as [Hp|Hp];
    [destruct (N.eqb_spec (minor self) 0) as [Hm|Hm]|].
  - rewrite Neighbours.init_triple by lia. eexists. split; [reflexivity|].
    apply Neighbours.lt_major. simpl. lia.
  - rewrite Neighbours.init_triple by lia. eexists. split; [reflexivity|].
    apply Neighbours.lt_minor; simpl; lia.
  - rewrite Neighbours.init_triple by lia. eexists. split; [reflexivity|].
    apply Neighbours.lt_patch; simpl; lia.
Qed.

Lemma eq_zero (v : SemanticVersion) :
  __eq__ v (mkSemVer "0" 0 0 0 None None) = false ->
  pre_release v = None ->
  patch v <> 0%N \/ minor v <> 0%N \/ major v <> 0%N.
Proof.
  unfold __eq__. simpl. intros H Hpre. rewrite Hpre in H. simpl in H.
  rewrite andb_true_r in H.
  destruct (N.eqb_spec (major v) 0), (N.eqb_spec (minor v) 0),
    (N.eqb_spec (patch v) 0); try discriminate; auto.
Qed.

Lemma find_decisive (set : SpecifierSet) :
  get_min_max_py_version set
  = match find decisive set with
    | Some s => get_min_max_py_version [s]
    | None => Raise UnableToResolve
    end.
Proof.
  induction set as [|s set IH]; [reflexivity|].
  simpl find. unfold decisive at 1.
  destruct (operator s) eqn:E; simpl; rewrite E; auto.
Qed.

End MinMaxFacts.


(** X21: for a [<] bound on a well-formed version other than 0 the result
    is the text of a version strictly below the bound: the guard against
    the version 0 keeps [previous_version] from borrowing past major 0, so
    no [ValueError] comes from it. *)
Theorem min_max_below_bound
        (specifier_set : SpecifierSet) (specifier : Specifier)
        (parsed : SemanticVersion) :
  find decisive specifier_set = Some specifier ->
  operator specifier = OpLess ->
  well_formed specifier = true ->
  __init__ (version specifier) = Ok parsed ->
  __eq__ parsed (mkSemVer "0" 0 0 0 None None) = false ->
  exists pv,
    get_min_max_py_version specifier_set = Ok (__str__ pv)
    /\ __lt__ pv parsed = true.
Proof.
  intros Hf Hop Hwf Hp Hz. rewrite MinMaxFacts.find_decisive, Hf.
  cbn [get_min_max_py_version]. rewrite Hop, Hp. cbn [bind].
  change (__init__ "0") with (Ok (mkSemVer "0" 0 0 0 None None)).
  cbn [bind]. rewrite Hz.
  unfold well_formed, Specifier_init in Hwf.
  destruct (release_of_text (version specifier)) as [r|] eqn:Hr;
    [|discriminate].
  destruct (Triples.init_release _ _ _ Hp Hr) as (Hpad & Hlen & Hpre & _).
  pose proof (MinMaxFacts.eq_zero _ Hz Hpre) as Hnz.
  unfold release_of_text in Hr.
  rewrite <- (segment_values_length Hr).
  unfold triple in Hpad.
  destruct r as [|a [|b [|c [|d r]]]]; simpl in Hlen; try lia;
    unfold pad in Hpad; simpl in Hpad; injection Hpad as Ha Hb Hc;
    simpl List.length; cbv iota beta; simpl Nat.eqb; cbv iota.
  - destruct (MinMaxFacts.previous_major parsed) as (pv & -> & Hlt);
      [lia|]. cbn [bind]. eauto.
  - destruct (MinMaxFacts.previous_minor parsed) as (pv & -> & Hlt);
      [lia|]. cbn [bind]. eauto.
  - destruct (MinMaxFacts.previous_patch parsed) as (pv & -> & Hlt);
      [lia|]. cbn [bind]. eauto.
Qed.

Lemma min_max_below_bound_witness :
  exists pv,
    get_min_max_py_version
      [mkSpecifier OpNotEqual "3.5"; mkSpecifier OpLess "3.0";
       mkSpecifier OpGreaterEqual "2"] = Ok (__str__ pv)
    /\ __lt__ pv (mkSemVer "3.0" 3 0 0 None None) = true.
Proof.
  apply (min_max_below_bound
           [mkSpecifier OpNotEqual "3.5"; mkSpecifier OpLess "3.0";
            mkSpecifier OpGreaterEqual "2"]
           (mkSpecifier OpLess "3.0") (mkSemVer "3.0" 3 0 0 None None));
    reflexivity.
Defined.

(** X22: for a [>] bound on a version of one to three segments the result
    is the text of a version strictly above the bound, with as many
    segments as the bound has. *)
Theorem min_max_above_bound
        (specifier_set : SpecifierSet) (specifier : Specifier)
        (parsed : SemanticVersion) :
  find decisive specifier_set = Some specifier ->
  operator specifier = OpGreater ->
  __init__ (version specifier) = Ok parsed ->
  (List.length (split "." (version specifier)) <= 3)%nat ->
  exists (t : string) (above : SemanticVersion),
    get_min_max_py_version specifier_set = Ok t
    /\ __init__ t = Ok above
    /\ __lt__ parsed above = true
    /\ List.length (split "." t) = List.length (split "." (version specifier)).
Proof.
  intros Hf Hop Hp Hlen. rewrite MinMaxFacts.find_decisive, Hf.
  cbn [get_min_max_py_version]. rewrite Hop, Hp. cbn [bind].
  rewrite !next_version_ok by reflexivity. cbn [bind].
  pose proof (split_length (version specifier)) as H1.
  pose proof (str_of_nat_digits (major parsed)) as Da.
  pose proof (str_of_nat_digits (minor parsed)) as Db.
  destruct (Nat.eqb_spec (List.length (split "." (version specifier))) 1)
    as [->|N1].
  { eexists. eexists. split; [reflexivity|].
    unfold next_triple, of_triple. simpl.
    rewrite DottedFacts.init_one, str_of_nat_numeric
      by apply str_of_nat_digits.
    split; [reflexivity|]. split.
    - apply Neighbours.lt_major. simpl. rewrite int_of_str_of_nat. lia.
    - apply DottedFacts.split_str_of_nat. }
  destruct (Nat.eqb_spec (List.length (split "." (version specifier))) 2)
    as [->|N2].
  { unfold next_triple. simpl String.eqb. cbv iota.
    destruct (Bounds.str_of_triple (major parsed) (minor parsed + 1) 0)
      as [_ ->].
    cbn [append].
    rewrite !split_app by (apply digits_dot_free, str_of_nat_digits).
    rewrite split_dot_free by (apply digits_dot_free, str_of_nat_digits).
    simpl firstn.
    change (join "." [str_of_nat (major parsed);
                      str_of_nat (minor parsed + 1)])
      with (str_of_nat (major parsed)
            ++ String "." (str_of_nat (minor parsed + 1)))%string.
    eexists. eexists. split; [reflexivity|].
    rewrite DottedFacts.init_two by apply str_of_nat_digits.
    rewrite !str_of_nat_numeric. simpl andb. cbv iota.
    split; [reflexivity|]. split.
    - apply Neighbours.lt_minor; simpl; rewrite !int_of_str_of_nat; lia.
    - rewrite split_app by (apply digits_dot_free, str_of_nat_digits).
      rewrite split_dot_free by (apply digits_dot_free, str_of_nat_digits).
      reflexivity. }
  assert (H3 : List.length (split "." (version specifier)) = 3%nat) by lia.
  rewrite H3. simpl Nat.eqb. cbv iota.
  unfold next_triple. simpl String.eqb. cbv iota.
  destruct (Bounds.str_of_triple (major parsed) (minor parsed)
                                 (patch parsed + 1)) as [-> _].
  cbn [append].
  eexists. eexists. split; [reflexivity|].
  rewrite DottedFacts.init_three by apply str_of_nat_digits.
  rewrite !str_of_nat_numeric. simpl andb. cbv iota.
  split; [reflexivity|]. split.
  - apply Neighbours.lt_patch; simpl; rewrite !int_of_str_of_nat; lia.
  - rewrite !split_app by (apply digits_dot_free, str_of_nat_digits).
    rewrite split_dot_free by (apply digits_dot_free, str_of_nat_digits).
    reflexivity.
Qed.

Lemma min_max_above_bound_witness :
  exists (t : string) (above : SemanticVersion),
    get_min_max_py_version [mkSpecifier OpGreater "3.7"] = Ok t
    /\ __init__ t = Ok above
    /\ __lt__ (mkSemVer "3.7" 3 7 0 None None) above = true
    /\ List.length (split "." t) = List.length (split "." "3.7").
Proof.
  apply (min_max_above_bound
           [mkSpecifier OpGreater "3.7"] (mkSpecifier OpGreater "3.7")
           (mkSemVer "3.7" 3 7 0 None None) eq_refl eq_refl eq_refl).
  simpl. lia.
Defined.

(** ** The two evaluators of version rules *)

Module Evaluators.
Import Triples ReleaseFacts.




Lemma init_text (t : string) (v : SemanticVersion) :
  __init__ t = Ok v -> text v = t.
Proof.
  unfold __init__.
  destruct (regex_match t) as [[[[[? ?] ?] ?] ?]|]; [|discriminate].
  now intros [= <-].
Qed.






End Evaluators.



(** ** Parsed and created ignore rules *)

Module ParseFacts.
Import TextSplit SemVerText UpdaterFacts Triples ReleaseFacts DottedFacts.

Lemma segment_value_of_digits (d : string) :
  d <> "" -> all_chars is_digit d = true ->
  segment_value d = Some (int_of_digits d).
Proof.
  intros Hd Ha. unfold segment_value. destruct d; [tauto|]. now rewrite Ha.
Qed.

Lemma dot_digits_spec (s g rest : string) :
  dot_digits s = Some (g, rest) ->
  exists d, g = String "." d /\ d <> "" /\ all_chars is_digit d = true.
Proof.
  unfold dot_digits. destruct s as [|c s]; [discriminate|].
  destruct (Ascii.eqb_spec c "."); [subst|].
  - pose proof (RoundTrip.span_spec is_digit s) as [H _].
    destruct (span is_digit s) as [d r]. simpl in H.
    destruct d as [|x d]; [discriminate|].
    intros [= <- <-]. eexists. repeat split; [discriminate|exact H].
  - destruct c as [[] [] [] [] [] [] [] []]; try discriminate. tauto.
Qed.

Lemma groups_release (n : nat) :
  forall number r1 gs r2,
    number <> "" -> all_chars is_digit number = true ->
    dot_groups n r1 = (gs, r2) ->
    exists rv, release_of_text (number ++ gs) = Some rv
               /\ (1 <= List.length rv <= S n)%nat.
Proof.
  assert (Hbase : forall number, number <> "" ->
            all_chars is_digit number = true ->
            exists rv, release_of_text (number ++ "") = Some rv
                       /\ (1 <= List.length rv <= 1)%nat).
  { intros number Hn Hd. rewrite append_empty. unfold release_of_text.
    rewrite split_dot_free by now apply digits_dot_free.
    simpl. rewrite (segment_value_of_digits _ Hn Hd).
    eexists. split; [reflexivity|simpl; lia]. }
  induction n as [|n IH]; intros number r1 gs r2 Hn Hd; simpl.
  - intros [= <- <-]. apply Hbase; assumption.
  - destruct (dot_digits r1) as [[g rest]|] eqn:E.
    + destruct (dot_groups n rest) as [gs' r'] eqn:E2.
      intros [= <- <-].
      destruct (dot_digits_spec _ _ _ E) as (d & -> & Hd1 & Hd2).
      destruct (IH d rest gs' r' Hd1 Hd2 E2) as (rv & Hrv & Hlen).
      change (number ++ String "." d ++ gs')
        with (number ++ String "." (d ++ gs')).
      unfold release_of_text in *.
      rewrite split_app by now apply digits_dot_free.
      simpl. rewrite (segment_value_of_digits _ Hn Hd), Hrv.
      eexists. split; [reflexivity|simpl; lia].
    + intros [= <- <-].
      destruct (Hbase number Hn Hd) as (rv & Hrv & Hlen).
      exists rv. split; [assumption|lia].
Qed.

Lemma version_tail_release (s v : string) :
  version_tail s = Some v -> release_rule (OpEqual, v) = true.
Proof.
  unfold version_tail. destruct (span is_space s) as [w r0].
  pose proof (RoundTrip.span_spec is_digit r0) as [Hd _].
  destruct (span is_digit r0) as [number r1]. simpl in Hd.
  destruct number as [|c number]; [discriminate|].
  destruct (dot_groups 2 r1) as [gs r2] eqn:E.
  destruct (at_end r2); [|discriminate]. intros [= <-].
  destruct (groups_release 2 (String c number) r1 gs r2) as (rv & Hrv & Hlen);
    [discriminate|assumption|assumption|].
  unfold release_rule. cbn [snd].
  change (String c (number ++ gs)) with (String c number ++ gs).
  rewrite Hrv.
  apply andb_true_iff. split; [apply Nat.leb_le|apply Nat.leb_le]; lia.
Qed.

Lemma match_operator_release (alternatives : list (string * Operator))
      (entry : string) (rule : version_rule) :
  match_operator alternatives entry = Some rule -> release_rule rule = true.
Proof.
  induction alternatives as [|[t op] rest IH]; simpl; [discriminate|].
  destruct (strip_prefix t entry) as [tail|]; [|exact IH].
  destruct (version_tail tail) as [v|] eqn:E; [|exact IH].
  intros [= <-]. exact (version_tail_release _ _ E).
Qed.

Lemma parse_versions_release (entries : list string)
      (rules : list version_rule) :
  parse_versions entries = Ok rules -> forallb release_rule rules = true.
Proof.
  revert rules.
  induction entries as [|e es IH]; intros rules; cbn [parse_versions].
  - now intros [= <-].
  - destruct (match_operator operators e) as [rule|] eqn:E; [|discriminate].
    destruct (parse_versions es) as [rs|]; cbn [bind]; [|discriminate].
    intros [= <-]. simpl.
    now rewrite (match_operator_release _ _ _ E), (IH rs eq_refl).
Qed.

Lemma parse_update_types_known (entries parts : list string) :
  parse_update_types entries = Ok parts ->
  forallb known_update_type parts = true.
Proof.
  revert parts. induction entries as [|e es IH]; intros parts; simpl.
  - now intros [= <-].
  - destruct (match_update_type e) as [part|] eqn:E; [|discriminate].
    destruct (parse_update_types es) as [ps|]; cbn [bind]; [|discriminate].
    intros [= <-]. simpl. rewrite (IH ps eq_refl), andb_true_r.
    unfold match_update_type in E.
    destruct (strip_prefix _ e); [|discriminate].
    apply find_some in E. destruct E as [E _].
    simpl in E. destruct E as [<- | [<- | [<- | []]]]; reflexivity.
Qed.

Lemma rule_specifiers_release (rules : list version_rule) :
  forallb release_rule rules = true ->
  rule_specifiers rules
  = if existsb single_segment_compatible rules
    then Raise InvalidSpecifier
    else Ok (map rule_specifier rules).
Proof.
  induction rules as [|[op v] rules IH]; [reflexivity|].
  simpl forallb. rewrite andb_true_iff. intros [Hp Hrest].
  unfold release_rule in Hp. simpl in Hp.
  destruct (release_of_text v) as [rv|] eqn:Hrv; [|discriminate].
  simpl. unfold single_segment_compatible at 1, Specifier_init.
  simpl. rewrite Hrv.
  destruct (Operator_eqb op OpCompatible && (List.length rv <? 2)%nat);
    [reflexivity|].
  simpl. rewrite (IH Hrest).
  now destruct (existsb single_segment_compatible rules).
Qed.

Lemma semver_rules_return (current latest parts : list string) :
  forallb known_update_type parts = true ->
  current <> [] -> latest <> [] ->
  exists b, _ignore_semver_rules current latest parts = Ok b.
Proof.
  intros Hk Hc Hl. unfold _ignore_semver_rules.
  replace (existsb _ parts) with false.
  2:{ symmetry. apply not_true_iff_false. intros H.
      apply existsb_exists in H. destruct H as (x & Hx & Hn).
      rewrite forallb_forall in Hk. specialize (Hk x Hx).
      unfold known_update_type in Hk. now rewrite Hk in Hn. }
  destruct latest as [|l0 latest]; [tauto|].
  destruct current as [|c0 current]; [tauto|].
  destruct (mem "major" parts).
  { cbn [item nth_error bind]. destruct (negb (l0 =? c0)); eauto. }
  destruct (mem "minor" parts).
  { match goal with |- context [if ?c then Ok true else _] => destruct c end;
      eauto. }
  destruct (mem "patch" parts); [|eauto].
  match goal with |- context [if ?c then Ok true else _] => destruct c end;
    eauto.
Qed.

Local Abbreviation tail_of ps :=
  (fold_right (fun p acc => String "." (p ++ acc)) "" ps).

Lemma join_tail (p : string) (ps : list string) :
  join "." (p :: ps) = p ++ tail_of ps.
Proof.
  revert p. induction ps as [|q qs IH]; intros p.
  - simpl. now rewrite append_empty.
  - change (join "." (p :: q :: qs)) with (p ++ String "." (join "." (q :: qs))).
    now rewrite IH.
Qed.

Lemma tail_starts (ps : list string) :
  match tail_of ps with
  | EmptyString => True
  | String c _ => is_digit c = false
  end.
Proof. destruct ps; simpl; auto. Qed.

Lemma dot_groups_tail (n : nat) :
  forall (ps : list string) (rv : list N),
    segment_values ps = Some rv ->
    dot_groups n (tail_of ps) = (tail_of (firstn n ps), tail_of (skipn n ps)).
Proof.
  induction n as [|n IH]; intros ps rv Hps; [reflexivity|].
  destruct ps as [|q qs]; [reflexivity|].
  simpl in Hps.
  destruct (segment_value q) as [x|] eqn:Eq; [|discriminate].
  destruct (segment_values qs) as [xs|] eqn:Eqs; [|discriminate].
  pose proof (segment_value_digits _ _ Eq) as Hd.
  cbn [dot_groups fold_right dot_digits firstn skipn].
  rewrite (RoundTrip.span_tail is_digit q _ Hd (tail_starts qs)).
  destruct q as [|c q]; [discriminate|].
  now rewrite (IH qs xs Eqs).
Qed.

Lemma digit_not_space (c : ascii) : is_digit c = true -> is_space c = false.
Proof.
  destruct c as [[] [] [] [] [] [] [] []]; vm_compute; congruence.
Qed.

Lemma version_tail_of_release (v : string) (rv : list N) :
  release_of_text v = Some rv ->
  version_tail v
  = if (List.length (split "." v) <=? 3)%nat then Some v else None.
Proof.
  unfold release_of_text. intros Hrv.
  rewrite <- (join_split v) at 1 3.
  pose proof (split_nonnil v) as Hn.
  destruct (split "." v) as [|p ps]; [tauto|].
  simpl in Hrv.
  destruct (segment_value p) as [x|] eqn:Ep; [|discriminate].
  destruct (segment_values ps) as [xs|] eqn:Eps; [|discriminate].
  pose proof (segment_value_digits _ _ Ep) as Hd.
  rewrite join_tail. unfold version_tail.
  destruct p as [|c p]; [discriminate|].
  assert (Hc : is_space c = false).
  { apply digit_not_space. simpl in Hd. now apply andb_true_iff in Hd. }
  change (span is_space (String c p ++ tail_of ps))
    with (if is_space c
          then let (a, b) := span is_space (p ++ tail_of ps) in (String c a, b)
          else ("", String c p ++ tail_of ps)).
  rewrite Hc.
  rewrite (RoundTrip.span_tail is_digit (String c p) _ Hd (tail_starts ps)).
  rewrite (dot_groups_tail 2 ps xs Eps).
  destruct ps as [|p2 [|p3 [|p4 ps]]]; try reflexivity.
  simpl in Eps.
  destruct (segment_value p2); [|discriminate].
  destruct (segment_value p3); [|discriminate].
  destruct (segment_value p4) eqn:E4; [|discriminate].
  destruct p4; [discriminate|]. reflexivity.
Qed.

Lemma match_equal_entry (v : string) (rv : list N) :
  release_of_text v = Some rv ->
  match_operator operators ("==" ++ v)
  = if (List.length (split "." v) <=? 3)%nat
    then Some (OpEqual, v) else None.
Proof.
  intros Hrv. unfold operators.
  cbn -[version_tail Nat.leb split].
  rewrite (version_tail_of_release v rv Hrv).
  now destruct (List.length (split "." v) <=? 3)%nat.
Qed.

Lemma parse_created (excluded : list Specifier) :
  forallb well_formed excluded = true ->
  parse_versions (map (fun s => "==" ++ version s) excluded)
  = if forallb (fun s => (List.length (split "." (version s)) <=? 3)%nat)
               excluded
    then Ok (map (fun s => (OpEqual, version s)) excluded)
    else Raise InputParserError.
Proof.
  induction excluded as [|s rest IH]; [reflexivity|].
  simpl forallb. rewrite andb_true_iff. intros [Hs Hrest].
  cbn [map parse_versions].
  unfold well_formed, Specifier_init in Hs.
  destruct (release_of_text (version s)) as [rv|] eqn:Hrv; [|discriminate].
  rewrite (match_equal_entry _ rv Hrv).
  destruct (List.length (split "." (version s)) <=? 3)%nat; [|reflexivity].
  rewrite (IH Hrest). cbn [andb]. clear IH Hrest.
  destruct (forallb _ rest); reflexivity.
Qed.

Lemma at_least_zero (r : list N) :
  Specifier_contains r {| operator := OpGreaterEqual; version := "0" |} = true.
Proof.
  unfold Specifier_contains. cbn [version operator].
  change (release_of_text "0") with (Some [0%N]).
  unfold release_compare.
  destruct r as [|x r]; [reflexivity|].
  replace (Nat.max (List.length (x :: r)) (List.length [0%N]))
    with (List.length (x :: r)) by (simpl; lia).
  rewrite pad_short by lia.
  unfold pad. simpl. rewrite Nat.sub_0_r.
  destruct (N.compare_spec x 0) as [-> | H | H]; [|lia|reflexivity].
  pose proof (lex_compare_zeros r) as Hz.
  destruct (lex_compare r (repeat 0%N (List.length r))); tauto || reflexivity.
Qed.

End ParseFacts.

(** X24: the rules that [parse_ignore_rules] accepts are rules that
    [ignore_version] can evaluate: every parsed version is a release of
    one to three segments and every parsed update type is [major], [minor]
    or [patch], so that for a latest version that is a release (a version
    of dotted numbers, without pre-release and build) and a current
    version with a segment, [ignore_version] returns an answer, except for
    a parsed rule [~=] with a single segment (the parser accepts it), which
    raises [InputError]. *)
Theorem parsed_rules_evaluate
        (rules : IgnoreRules) (version_rules : list version_rule)
        (semver_rules : option (list string))
        (current latest : list string) (semver_latest : SemanticVersion)
        (r : list N) :
  parse_ignore_rules rules = Ok (version_rules, semver_rules) ->
  __init__ (join "." latest) = Ok semver_latest ->
  release_of_text (join "." latest) = Some r ->
  current <> [] ->
  forallb release_rule version_rules = true
  /\ (forall parts, semver_rules = Some parts ->
                    forallb known_update_type parts = true)
  /\ if existsb single_segment_compatible version_rules
     then ignore_version current latest version_rules semver_rules
          = Raise InputError
     else exists b,
         ignore_version current latest version_rules semver_rules = Ok b.
Proof.
  intros Hparse Hl Hr Hc.
  assert (Hshape : forallb release_rule version_rules = true
                   /\ (forall parts, semver_rules = Some parts ->
                                     forallb known_update_type parts = true)).
  { unfold parse_ignore_rules in Hparse.
    assert (Hgen :
      (parsed_versions <-
         match versions rules with
         | Some entries => parse_versions entries
         | None => Ok []
         end ;;
       parsed_update_types <-
         match update_types rules with
         | Some entries => parts <- parse_update_types entries ;; Ok (Some parts)
         | None => Ok None
         end ;;
       Ok (parsed_versions, parsed_update_types))
      = Ok (version_rules, semver_rules) ->
      forallb release_rule version_rules = true
      /\ (forall parts, semver_rules = Some parts ->
                        forallb known_update_type parts = true)).
    { destruct (versions rules) as [ves|].
      - destruct (parse_versions ves) as [vs|] eqn:Ev; [|discriminate].
        cbn [bind]. apply ParseFacts.parse_versions_release in Ev.
        destruct (update_types rules) as [ues|].
        + destruct (parse_update_types ues) as [us|] eqn:Eu; [|discriminate].
          cbn [bind]. intros [= <- <-]. split; [assumption|].
          intros parts [= <-].
          exact (ParseFacts.parse_update_types_known _ _ Eu).
        + cbn [bind]. intros [= <- <-]. split; [assumption|discriminate].
      - cbn [bind]. destruct (update_types rules) as [ues|].
        + destruct (parse_update_types ues) as [us|] eqn:Eu; [|discriminate].
          cbn [bind]. intros [= <- <-]. split; [reflexivity|].
          intros parts [= <-].
          exact (ParseFacts.parse_update_types_known _ _ Eu).
        + cbn [bind]. intros [= <- <-]. split; [reflexivity|discriminate]. }
    destruct (versions rules), (update_types rules); try (apply Hgen; assumption).
    injection Hparse as <- <-. split; [reflexivity|discriminate]. }
  destruct Hshape as [Hrel Hknown]. split; [assumption|]. split; [assumption|].
  assert (Hlatest : latest <> []).
  { intros ->. simpl in Hl. discriminate. }
  unfold ignore_version, _ignore_version_rules_specifier_set.
  rewrite (ParseFacts.rule_specifiers_release _ Hrel).
  destruct version_rules as [|rule rules'].
  - simpl existsb. cbv iota. destruct semver_rules as [parts|]; [|eauto].
    cbn [bind].
    destruct (ParseFacts.semver_rules_return current latest parts
                (Hknown _ eq_refl) Hc Hlatest) as (b & ->).
    cbn [bind]. destruct b; eauto.
  - destruct (existsb single_segment_compatible (rule :: rules')).
    + now destruct semver_rules.
    + rewrite Hl. cbn [bind]. unfold SpecifierSet_contains.
      rewrite (Evaluators.init_text _ _ Hl), Hr.
      assert (Hgoal : exists b,
        (by_version <- Ok (forallb (Specifier_contains r)
                                   (map rule_specifier (rule :: rules'))) ;;
         if by_version : bool then Ok true
         else match semver_rules with
              | Some rules0 =>
                  by_semver <- _ignore_semver_rules current latest rules0 ;;
                  if by_semver : bool then Ok true else Ok false
              | None => Ok false
              end) = Ok b).
      { cbn [bind].
        destruct (forallb (Specifier_contains r) _); [eauto|].
        destruct semver_rules as [parts|]; [|eauto].
        destruct (ParseFacts.semver_rules_return current latest parts
                    (Hknown _ eq_refl) Hc Hlatest) as (b & ->).
        cbn [bind]. destruct b; eauto. }
      destruct semver_rules; exact Hgoal.
Qed.

Module CreatedFacts.
Import TextSplit UpdaterFacts.

Lemma equal_rules_release (excluded : list Specifier) :
  forallb well_formed excluded = true ->
  forallb (fun s => (List.length (split "." (version s)) <=? 3)%nat) excluded
  = true ->
  forallb release_rule (map (fun s => (OpEqual, version s)) excluded) = true.
Proof.
  induction excluded as [|s rest IH]; [reflexivity|].
  simpl forallb. rewrite !andb_true_iff. intros [Hs Hrest] [Hl Hlrest].
  split; [|now apply IH].
  unfold well_formed, Specifier_init in Hs. unfold release_rule. cbn [snd].
  destruct (release_of_text (version s)) as [rv|] eqn:Hrv; [|discriminate].
  unfold release_of_text in Hrv. rewrite (segment_values_length Hrv).
  rewrite Hl, andb_true_r. apply Nat.leb_le, split_length.
Qed.

Lemma equal_rules_not_compatible (excluded : list Specifier) :
  existsb single_segment_compatible
          (map (fun s => (OpEqual, version s)) excluded) = false.
Proof. induction excluded as [|s rest IH]; [reflexivity|exact IH]. Qed.

Lemma equal_rules_contain (r : list N) (excluded : list Specifier) :
  forallb well_formed excluded = true ->
  forallb excluding excluded = true ->
  forallb (Specifier_contains r)
          (map rule_specifier (map (fun s => (OpEqual, version s)) excluded))
  = forallb (fun s => negb (Specifier_contains r s)) excluded.
Proof.
  induction excluded as [|s rest IH]; [reflexivity|].
  simpl forallb. rewrite !andb_true_iff. intros [Hw Hwrest] [Hs Hrest].
  rewrite (IH Hwrest Hrest). f_equal.
  unfold well_formed, Specifier_init in Hw.
  unfold excluding in Hs. apply SetFacts.Operator_eqb_eq in Hs.
  unfold Specifier_contains, rule_specifier. cbn [fst snd operator version].
  rewrite Hs.
  destruct (release_of_text (version s)) as [v|]; [|discriminate].
  now destruct (release_compare r v).
Qed.

Lemma forallb_filter_self {A : Type} (f : A -> bool) (l : list A) :
  forallb f (filter f l) = true.
Proof.
  induction l as [|x l IH]; [reflexivity|]. simpl.
  destruct (f x) eqn:E; [simpl; now rewrite E|exact IH].
Qed.

Lemma match_equal_any (v : string) :
  match_operator operators ("==" ++ v)
  = match version_tail v with
    | Some parsed => Some (OpEqual, parsed)
    | None => None
    end.
Proof.
  unfold operators. cbn -[version_tail].
  now destruct (version_tail v).
Qed.

Lemma parse_created_rejects (excluded : list Specifier) (s : Specifier) :
  In s excluded -> version_tail (version s) = None ->
  parse_versions (map (fun s => "==" ++ version s) excluded)
  = Raise InputParserError.
Proof.
  intros Hin Hs. induction excluded as [|x rest IH]; [destruct Hin|].
  cbn [map parse_versions]. rewrite match_equal_any.
  destruct Hin as [-> | Hin].
  - now rewrite Hs.
  - destruct (version_tail (version x)); [|reflexivity].
    now rewrite (IH Hin).
Qed.

End CreatedFacts.

Lemma parsed_rules_evaluate_witness :
  forallb release_rule [(OpGreater, "2.2.2"); (OpLess, "3")] = true
  /\ (forall parts, Some ["patch"] = Some parts ->
                    forallb known_update_type parts = true)
  /\ if existsb single_segment_compatible [(OpGreater, "2.2.2"); (OpLess, "3")]
     then ignore_version ["2"; "2"; "2"] ["2"; "2"; "3"]
                         [(OpGreater, "2.2.2"); (OpLess, "3")] (Some ["patch"])
          = Raise InputError
     else exists b,
         ignore_version ["2"; "2"; "2"] ["2"; "2"; "3"]
                        [(OpGreater, "2.2.2"); (OpLess, "3")] (Some ["patch"])
         = Ok b.
Proof.
  apply (parsed_rules_evaluate
           (mkIgnoreRules (Some [">2.2.2"; "<3"])
                          (Some ["version-update:semver-patch"]))
           [(OpGreater, "2.2.2"); (OpLess, "3")] (Some ["patch"])
           ["2"; "2"; "2"] ["2"; "2"; "3"]
           (mkSemVer "2.2.3" 2 2 3 None None) [2; 2; 3]%N);
    [reflexivity | reflexivity | reflexivity | discriminate].
Defined.

(** X25: with no rules at all (the empty dict) the parser gives the rule
    [>=0], so the package is ignored for every latest version that is a
    release (a version of dotted numbers, without pre-release and build),
    and a latest text that is no semantic version raises [ValueError];
    with the key [versions] holding an empty list no rule is left and
    every latest version is ignored, whatever its text. *)
Theorem no_rules_ignore_every_version (current latest : list string) :
  (forall semver_latest r,
      __init__ (join "." latest) = Ok semver_latest ->
      release_of_text (join "." latest) = Some r ->
      ignore_parsed current latest (mkIgnoreRules None None) = Ok true)
  /\ (forall e,
         __init__ (join "." latest) = Raise e ->
         ignore_parsed current latest (mkIgnoreRules None None)
         = Raise ValueError)
  /\ ignore_parsed current latest (mkIgnoreRules (Some []) None) = Ok true.
Proof.
  split; [|split; [|reflexivity]].
  - intros l r Hl Hr.
    unfold ignore_parsed, parse_ignore_rules. cbn [versions update_types bind fst snd].
    unfold ignore_version, _ignore_version_rules_specifier_set.
    change (rule_specifiers [(OpGreaterEqual, "0")])
      with (Ok [{| operator := OpGreaterEqual; version := "0" |}]).
    rewrite Hl. cbn [bind]. unfold SpecifierSet_contains.
    rewrite (Evaluators.init_text _ _ Hl), Hr.
    cbn [forallb]. now rewrite ParseFacts.at_least_zero.
  - intros e He.
    unfold ignore_parsed, parse_ignore_rules. cbn [versions update_types bind fst snd].
    unfold ignore_version, _ignore_version_rules_specifier_set.
    change (rule_specifiers [(OpGreaterEqual, "0")])
      with (Ok [{| operator := OpGreaterEqual; version := "0" |}]).
    rewrite He. cbn [bind]. now rewrite (init_raises _ _ He).
Qed.

Lemma no_rules_ignore_every_version_witness :
  ignore_parsed ["1"; "0"] ["2"; "0"] (mkIgnoreRules None None) = Ok true.
Proof.
  apply (proj1 (no_rules_ignore_every_version ["1"; "0"] ["2"; "0"])
               (mkSemVer "2.0" 2 0 0 None None) [2; 0]%N);
    reflexivity.
Defined.

(** X26: the rules created from a specifier set are the [!=] versions
    of the set, each with the operator [==].  A [!=] version that the
    pattern of the parser does not match (a wildcard such as [1.5.*], or a
    version of more than three segments) makes the parser raise
    [InputParserError].  When the [!=] specifiers are release specifiers
    and the latest version is a release, the parsed rules make
    [ignore_version] ignore the latest version exactly when every [!=]
    specifier of the set excludes it (so always when the set has none),
    provided their versions have at most three segments. *)
Theorem excluded_versions_ignored
        (specifier_set : SpecifierSet) (current latest : list string) :
  (forall specifier,
      In specifier specifier_set ->
      excluding specifier = true ->
      version_tail (version specifier) = None ->
      ignore_parsed current latest (create_ignore_rules specifier_set)
      = Raise InputParserError)
  /\ (forall (semver_latest : SemanticVersion) (r : list N),
         forallb well_formed (filter excluding specifier_set) = true ->
         __init__ (join "." latest) = Ok semver_latest ->
         release_of_text (join "." latest) = Some r ->
         ignore_parsed current latest (create_ignore_rules specifier_set)
         = if forallb (fun s =>
                         (List.length (split "." (version s)) <=? 3)%nat)
                      (filter excluding specifier_set)
           then Ok (forallb (fun s => negb (Specifier_contains r s))
                            (filter excluding specifier_set))
           else Raise InputParserError).
Proof.
  split.
  - intros specifier Hin Hex Htail.
    unfold ignore_parsed, create_ignore_rules, parse_ignore_rules.
    cbn [versions update_types].
    rewrite (CreatedFacts.parse_created_rejects _ specifier);
      [reflexivity| |exact Htail].
    apply filter_In. split; [exact Hin|exact Hex].
  - intros semver_latest r Hwf Hl Hr.
    unfold ignore_parsed, create_ignore_rules, parse_ignore_rules.
    cbn [versions update_types].
    fold excluding.
    change (filter (fun specifier => excluding specifier) specifier_set)
      with (filter excluding specifier_set).
    rewrite (ParseFacts.parse_created _ Hwf).
    pose proof (CreatedFacts.forallb_filter_self excluding specifier_set)
      as Hex.
    revert Hwf Hex. generalize (filter excluding specifier_set) as excluded.
    intros excluded Hwf Hex.
    destruct (forallb (fun s =>
                         (List.length (split "." (version s)) <=? 3)%nat)
                      excluded) eqn:Hlen; [|reflexivity].
    cbn [bind fst snd].
    destruct excluded as [|s rest]; [reflexivity|].
    unfold ignore_version, _ignore_version_rules_specifier_set.
    rewrite (ParseFacts.rule_specifiers_release
               _ (CreatedFacts.equal_rules_release _ Hwf Hlen)).
    rewrite CreatedFacts.equal_rules_not_compatible.
    cbn [map]. rewrite Hl. cbn [bind]. unfold SpecifierSet_contains.
    rewrite (Evaluators.init_text _ _ Hl), Hr. cbn [bind].
    change ((OpEqual, version s) :: map (fun s0 => (OpEqual, version s0)) rest)
      with (map (fun s0 => (OpEqual, version s0)) (s :: rest)).
    change (rule_specifier (OpEqual, version s)
            :: map rule_specifier
                   (map (fun s0 => (OpEqual, version s0)) rest))
      with (map rule_specifier
                (map (fun s0 => (OpEqual, version s0)) (s :: rest))).
    rewrite (CreatedFacts.equal_rules_contain r _ Hwf Hex).
    clear.
    now destruct (forallb _ (s :: rest)).
Qed.

Lemma excluded_versions_ignored_witness :
  ignore_parsed ["1"; "9"] ["2"; "0"]
                (create_ignore_rules [mkSpecifier OpGreaterEqual "1";
                                      mkSpecifier OpNotEqual "1.5.*"])
  = Raise InputParserError
  /\ ignore_parsed ["1"; "9"] ["2"; "0"]
                   (create_ignore_rules [mkSpecifier OpGreaterEqual "1";
                                         mkSpecifier OpNotEqual "2.0"])
     = Ok true.
Proof.
  split.
  - apply (proj1 (excluded_versions_ignored
                    [mkSpecifier OpGreaterEqual "1";
                     mkSpecifier OpNotEqual "1.5.*"]
                    ["1"; "9"] ["2"; "0"])
                 (mkSpecifier OpNotEqual "1.5.*"));
      [simpl; auto | reflexivity | reflexivity].
  - apply (proj2 (excluded_versions_ignored
                    [mkSpecifier OpGreaterEqual "1";
                     mkSpecifier OpNotEqual "2.0"]
                    ["1"; "9"] ["2"; "0"])
                 (mkSemVer "2.0" 2 0 0 None None) [2; 0]%N);
      reflexivity.
Defined.

(** ** Versions built from their parts *)

Module KeywordFacts.
Import TextSplit SemVerText DottedFacts.

Lemma group_not_empty (ok : string -> bool) (g : option string) :
  ok "" = false -> group_ok ok g = true -> text_or_none g = g.
Proof.
  intros Hok. destruct g as [[|c t]|]; simpl; try reflexivity.
  now rewrite Hok.
Qed.

Lemma append_append (a b c : string) : (a ++ b) ++ c = a ++ (b ++ c).
Proof. induction a as [|x a IH]; simpl; [reflexivity|now rewrite IH]. Qed.

End KeywordFacts.

(** X27: a version built from its parts is the version parsed from its
    own text: when the keyword construction returns a version, and the
    pre-release and build given follow the grammar, parsing the text of
    that version gives the same text, numbers, pre-release and build. *)
Theorem keyword_version_parses
        (major minor patch : option N) (pre_release build : option string)
        (v : SemanticVersion) :
  group_ok pre_ident_ok pre_release = true ->
  group_ok build_ident_ok build = true ->
  from_keywords major minor patch pre_release build = Ok v ->
  __init__ (text v) = Ok v.
Proof.
  intros Hpre Hbld.
  pose proof (KeywordFacts.group_not_empty _ _ eq_refl Hpre) as Epre.
  pose proof (KeywordFacts.group_not_empty _ _ eq_refl Hbld) as Ebld.
  unfold from_keywords, _build_version. rewrite Epre, Ebld.
  destruct major as [mj|]; [|discriminate].
  destruct minor as [mn|], patch as [pt|]; cbn [bind].
  - (* major.minor.patch, with the optional groups *)
    assert (Hv : forall t,
               t = __str__ (mkSemVer t mj mn pt pre_release build) ->
               __init__ t = Ok (mkSemVer t mj mn pt pre_release build)).
    { intros t Ht.
      pose proof (RoundTrip.render_parses
                    (mkSemVer t mj mn pt pre_release build)) as H.
      unfold grammar_ok in H. cbn [SemVer.pre_release SemVer.build] in H.
      rewrite Hpre, Hbld in H. specialize (H eq_refl).
      rewrite <- Ht in H. exact H. }
    destruct pre_release as [pre|], build as [bld|]; cbn [bind];
      intros [= <-]; cbn [text]; apply Hv; unfold __str__;
      cbn [SemVer.major SemVer.minor SemVer.patch SemVer.pre_release
           SemVer.build];
      rewrite ?KeywordFacts.append_append; cbn [append];
      rewrite ?append_empty; reflexivity.
  - destruct pre_release; [discriminate|]. destruct build; [discriminate|].
    cbn [bind]. intros [= <-]. cbn [text].
    change (str_of_nat mj ++ "." ++ str_of_nat mn)
      with (str_of_nat mj ++ String "." (str_of_nat mn)).
    rewrite init_two by apply str_of_nat_digits.
    now rewrite !str_of_nat_numeric, !int_of_str_of_nat.
  - discriminate.
  - destruct pre_release; [discriminate|]. destruct build; [discriminate|].
    cbn [bind]. intros [= <-]. cbn [text].
    rewrite init_one by apply str_of_nat_digits.
    now rewrite !str_of_nat_numeric, !int_of_str_of_nat.
Qed.

Lemma keyword_version_parses_witness :
  __init__ "1.2.3-rc.1"
  = Ok (mkSemVer "1.2.3-rc.1" 1 2 3 (Some "rc.1") None).
Proof.
  apply (keyword_version_parses (Some 1%N) (Some 2%N) (Some 3%N)
                                (Some "rc.1") None
                                (mkSemVer "1.2.3-rc.1" 1 2 3 (Some "rc.1") None));
    reflexivity.
Defined.

(** ** The entries of the ignore option *)

Module EntryFacts.

Lemma lookup_store_same {V : Type} (key : string) (v : V) (d : dict V) :
  lookup key (store key v d) = Some v.
Proof.
  induction d as [|[k w] d IH]; simpl.
  - now rewrite String.eqb_refl.
  - destruct (String.eqb k key) eqn:E; simpl; rewrite E; auto.
Qed.

Lemma lookup_store_other {V : Type} (key other : string) (v : V) (d : dict V) :
  key <> other -> lookup other (store key v d) = lookup other d.
Proof.
  intros Hne. induction d as [|[k w] d IH]; simpl.
  - apply String.eqb_neq in Hne. now rewrite Hne.
  - destruct (String.eqb_spec k key) as [-> | Hk]; simpl.
    + apply String.eqb_neq in Hne. now rewrite Hne.
    + now rewrite IH.
Qed.

Lemma lookup_none_not_in {V : Type} (key : string) (d : dict V) :
  lookup key d = None <-> ~ In key (map fst d).
Proof.
  induction d as [|[k w] d IH]; simpl; [tauto|].
  destruct (String.eqb_spec k key) as [-> | Hk].
  - split; [discriminate|tauto].
  - rewrite IH. tauto.
Qed.

Lemma store_keys_new {V : Type} (key : string) (v : V) (d : dict V) :
  lookup key d = None -> map fst (store key v d) = (map fst d ++ [key])%list.
Proof.
  induction d as [|[k w] d IH]; simpl; [reflexivity|].
  destruct (String.eqb k key); [discriminate|].
  intros H. simpl. now rewrite IH.
Qed.

Lemma store_keys_old {V : Type} (key : string) (v : V) (d : dict V) :
  lookup key d <> None -> map fst (store key v d) = map fst d.
Proof.
  induction d as [|[k w] d IH]; simpl; [tauto|].
  destruct (String.eqb k key); [reflexivity|].
  intros H. simpl. now rewrite IH.
Qed.

Lemma collect_nodup (pairs : list string) :
  forall ignore_entry result,
    NoDup (map fst ignore_entry) ->
    collect pairs ignore_entry = Ok result ->
    NoDup (map fst result).
Proof.
  induction pairs as [|p pairs IH]; intros ie result Hnd; simpl.
  - now intros [= <-].
  - destruct (match_pair p) as [[key value]|]; [|discriminate].
    unfold has_key. destruct (lookup key ie) eqn:E; [discriminate|].
    apply IH. rewrite (store_keys_new _ _ _ E).
    apply NoDup_app; [assumption|repeat constructor; simpl; tauto|].
    intros x Hx [<- | []]. now apply lookup_none_not_in in E.
Qed.

Lemma without_nodup {V : Type} (key : string) (d : dict V) :
  NoDup (map fst d) -> NoDup (map fst (without key d)).
Proof.
  unfold without. induction d as [|[k w] d IH]; simpl; [auto|].
  intros H. inversion H as [|? ? Hk Hd]; subst.
  destruct (negb (String.eqb k key)); simpl; [|auto].
  constructor; [|auto]. intros Hin. apply Hk.
  clear -Hin. induction d as [|[k' w'] d IH]; simpl in *; [tauto|].
  destruct (negb (String.eqb k' key)); simpl in *; tauto.
Qed.

Lemma parse_entry_nodup (separator entry name : string)
      (ignore_entry : dict string) :
  parse_entry separator entry = Ok (name, ignore_entry) ->
  NoDup (map fst ignore_entry).
Proof.
  unfold parse_entry. destruct separator as [|c sep]; [discriminate|].
  destruct (existsb _ _); [discriminate|].
  destruct (collect _ []) as [ie|] eqn:E; [|discriminate]. cbn [bind].
  destruct (lookup "dependency-name" ie); [|discriminate].
  intros [= <- <-]. apply without_nodup.
  eapply collect_nodup; [|exact E]. constructor.
Qed.

Lemma has_key_store {V : Type} (key other : string) (v : V) (d : dict V) :
  has_key key d = true -> has_key other (store key v d) = has_key other d.
Proof.
  unfold has_key. intros Hk.
  destruct (String.eqb_spec key other) as [<- | Hne].
  - rewrite lookup_store_same. now destruct (lookup key d).
  - now rewrite lookup_store_other.
Qed.

Lemma append_values_none (ignore_entry : dict string) :
  forall rules,
    append_values ignore_entry rules = None
    <-> existsb (fun kv => negb (has_key (fst kv) rules)) ignore_entry = true.
Proof.
  induction ignore_entry as [|[k v] rest IH]; intros rules; simpl.
  - split; discriminate.
  - unfold has_key at 1. destruct (lookup k rules) as [values|] eqn:E; simpl.
    + rewrite IH. 
      assert (Hs : forall kv : string * string,
                 negb (has_key (fst kv) (store k (values ++ [v])%list rules))
                 = negb (has_key (fst kv) rules)).
      { intros kv. f_equal. apply has_key_store. unfold has_key. now rewrite E. }
      assert (Hext : forall l : dict string,
                 existsb (fun kv => negb (has_key (fst kv)
                            (store k (values ++ [v])%list rules))) l
                 = existsb (fun kv => negb (has_key (fst kv) rules)) l).
      { induction l as [|x l IHl]; [reflexivity|].
        simpl. now rewrite Hs, IHl. }
      now rewrite Hext.
    + tauto.
Qed.

Lemma append_values_lookup (ignore_entry : dict string) :
  forall rules rules',
    NoDup (map fst ignore_entry) ->
    append_values ignore_entry rules = Some rules' ->
    forall key,
      lookup key rules'
      = match lookup key rules with
        | None => None
        | Some values =>
            Some (values ++ match lookup key ignore_entry with
                            | Some value => [value]
                            | None => []
                            end)%list
        end.
Proof.
  induction ignore_entry as [|[k v] rest IH]; intros rules rules' Hnd; simpl.
  - intros [= <-] key. destruct (lookup key rules); [|reflexivity].
    now rewrite List.app_nil_r.
  - inversion Hnd as [|? ? Hk Hrest]; subst.
    destruct (lookup k rules) as [values|] eqn:E; [|discriminate].
    intros H key. rewrite (IH _ _ Hrest H key).
    destruct (String.eqb_spec k key) as [<- | Hne].
    + rewrite lookup_store_same, E.
      apply lookup_none_not_in in Hk. rewrite Hk.
      now rewrite List.app_nil_r.
    + now rewrite lookup_store_other.
Qed.

Lemma parse_from_app (entries : list string) (entry separator : string) :
  forall ignore_entries,
    parse_from ignore_entries (entries ++ [entry]) separator
    = match parse_from ignore_entries entries separator with
      | Returns ignore_entries' => parse_from ignore_entries' [entry] separator
      | Raises e => Raises e
      end.
Proof.
  induction entries as [|e es IH]; intros c; [reflexivity|].
  cbn [app parse_from].
  destruct (parse_entry separator e) as [[name ie]|]; [|reflexivity].
  destruct (add_entry c name ie); [apply IH|reflexivity].
Qed.

Lemma lookup_singletons (key : string) (d : dict string) :
  lookup key (map (fun kv => (fst kv, [snd kv])) d)
  = match lookup key d with
    | Some value => Some [value]
    | None => None
    end.
Proof.
  induction d as [|[k v] d IH]; simpl; [reflexivity|].
  now destruct (String.eqb k key).
Qed.

Lemma values_of_app (name key : string) (a b : list (string * dict string)) :
  values_of name key (a ++ b)
  = (values_of name key a ++ values_of name key b)%list.
Proof. unfold values_of. apply flat_map_app. Qed.

Lemma values_of_absent (name key : string) (parsed : list (string * dict string)) :
  existsb (fun entry => String.eqb (fst entry) name) parsed = false ->
  values_of name key parsed = [].
Proof.
  induction parsed as [|p parsed IH]; simpl; [reflexivity|].
  rewrite orb_false_iff. intros [Hp Hrest]. now rewrite Hp, (IH Hrest).
Qed.

Lemma append_values_keys (ignore_entry : dict string) (key value : string) :
  forall rules rules',
    append_values ignore_entry rules = Some rules' ->
    lookup key ignore_entry = Some value ->
    lookup key rules <> None.
Proof.
  intros rules rules' Ha Hl Hn.
  assert (Hnone : append_values ignore_entry rules = None).
  { apply append_values_none. apply existsb_exists.
    exists (key, value). split.
    - clear -Hl. induction ignore_entry as [|[k v] rest IH]; [discriminate|].
      simpl in Hl. destruct (String.eqb_spec k key) as [-> | Hk].
      + injection Hl as ->. now left.
      + right. auto.
    - unfold has_key. simpl. now rewrite Hn. }
  congruence.
Qed.

Lemma has_key_store_other {V : Type} (key other : string) (v : V) (d : dict V) :
  has_key other (store key v d) = (String.eqb key other || has_key other d).
Proof.
  unfold has_key. destruct (String.eqb_spec key other) as [<- | Hne].
  - now rewrite lookup_store_same.
  - now rewrite lookup_store_other.
Qed.

Lemma add_entry_grouped (collection collection' : dict (dict (list string)))
      (parsed : list (string * dict string))
      (name : string) (ignore_entry : dict string) :
  grouped collection parsed ->
  NoDup (map fst ignore_entry) ->
  add_entry collection name ignore_entry = Returns collection' ->
  grouped collection' (parsed ++ [(name, ignore_entry)]).
Proof.
  intros [Hkeys Hvalues] Hnd. unfold add_entry.
  destruct (lookup name collection) as [rules|] eqn:El.
  - destruct (append_values ignore_entry rules) as [rules'|] eqn:Ea;
      [|discriminate].
    intros [= <-]. split.
    + intros name'. rewrite has_key_store_other, existsb_app, Hkeys.
      simpl. rewrite orb_false_r. apply orb_comm.
    + intros name' rules0 key. rewrite values_of_app.
      unfold values_of at 2. cbn [flat_map fst snd]. rewrite List.app_nil_r.
      destruct (String.eqb_spec name name') as [<- | Hne].
      * rewrite lookup_store_same. intros [= <-].
        rewrite (append_values_lookup _ _ _ Hnd Ea key).
        rewrite (Hvalues name rules key El).
        destruct (lookup key rules) as [values|] eqn:Ek; [reflexivity|].
        destruct (lookup key ignore_entry) as [value|] eqn:Ei; [|reflexivity].
        now destruct (append_values_keys _ _ _ _ _ Ea Ei).
      * rewrite lookup_store_other by assumption. intros H.
        rewrite (Hvalues name' rules0 key H). apply List.app_nil_r.
  - intros [= <-]. split.
    + intros name'. rewrite has_key_store_other, existsb_app, Hkeys.
      simpl. rewrite orb_false_r. apply orb_comm.
    + intros name' rules0 key. rewrite values_of_app.
      unfold values_of at 2. cbn [flat_map fst snd]. rewrite List.app_nil_r.
      destruct (String.eqb_spec name name') as [<- | Hne].
      * rewrite lookup_store_same. intros [= <-].
        rewrite lookup_singletons.
        rewrite values_of_absent.
        2:{ rewrite <- Hkeys. unfold has_key. now rewrite El. }
        now destruct (lookup key ignore_entry).
      * rewrite lookup_store_other by assumption. intros H.
        rewrite (Hvalues name' rules0 key H). apply List.app_nil_r.
Qed.

Lemma parse_from_grouped (entries : list string) (separator : string) :
  forall collection collection' before,
    grouped collection before ->
    parse_from collection entries separator = Returns collection' ->
    exists parsed,
      Forall2 (fun entry p => parse_entry separator entry = Ok p)
              entries parsed
      /\ grouped collection' (before ++ parsed).
Proof.
  induction entries as [|e es IH]; intros c c' before Hg; cbn [parse_from].
  - intros [= <-]. exists []. split; [constructor|].
    now rewrite List.app_nil_r.
  - destruct (parse_entry separator e) as [[name ie]|] eqn:Ee; [|discriminate].
    destruct (add_entry c name ie) as [c1|] eqn:Ea; [|discriminate].
    intros H.
    pose proof (add_entry_grouped _ _ _ _ _ Hg
                  (parse_entry_nodup _ _ _ _ Ee) Ea) as Hg1.
    destruct (IH _ _ _ Hg1 H) as (parsed & Hall & Hfinal).
    exists ((name, ie) :: parsed). split; [now constructor|].
    now rewrite <- List.app_assoc in Hfinal.
Qed.

End EntryFacts.

(** X28: a later entry for a package that the collection already holds
    raises [KeyError] exactly when it has a key ([versions] or
    [update-types]) that the rules of the package do not hold, so when the
    first entry of the package came without that key; otherwise its
    values go to the end of the lists under their keys. *)
Theorem later_entry_key_error
        (entries : list string) (separator entry : string)
        (collection : dict (dict (list string)))
        (dependency_name : string) (ignore_entry : dict string)
        (rules : dict (list string)) :
  parse_ignore_entries entries separator = Returns collection ->
  parse_entry separator entry = Ok (dependency_name, ignore_entry) ->
  lookup dependency_name collection = Some rules ->
  (parse_ignore_entries (entries ++ [entry]) separator = Raises KeyError
   <-> existsb (fun kv => negb (has_key (fst kv) rules)) ignore_entry = true)
  /\ (parse_ignore_entries (entries ++ [entry]) separator <> Raises KeyError ->
      exists rules',
        parse_ignore_entries (entries ++ [entry]) separator
        = Returns (store dependency_name rules' collection)
        /\ forall key values,
            lookup key rules = Some values ->
            lookup key rules'
            = Some (values ++ match lookup key ignore_entry with
                              | Some value => [value]
                              | None => []
                              end)%list).
Proof.
  unfold parse_ignore_entries. intros Hc He Hl.
  rewrite EntryFacts.parse_from_app, Hc. cbn [parse_from].
  rewrite He. unfold add_entry. rewrite Hl.
  pose proof (EntryFacts.append_values_none ignore_entry rules) as Hnone.
  destruct (append_values ignore_entry rules) as [rules'|] eqn:Ea.
  - split.
    + split; [discriminate|]. intros H. apply Hnone in H. discriminate.
    + intros _. exists rules'. split; [reflexivity|].
      intros key values Hk.
      rewrite (EntryFacts.append_values_lookup
                 _ _ _ (EntryFacts.parse_entry_nodup _ _ _ _ He) Ea key).
      now rewrite Hk.
  - split.
    + split; [intros _; now apply Hnone|reflexivity].
    + intros H. now contradiction H.
Qed.

Lemma later_entry_key_error_witness :
  parse_ignore_entries
    (["dependency-name=test...versions=>1"]
       ++ ["dependency-name=test...update-types=version-update:semver-major"])
    "..."
  = Raises KeyError.
Proof.
  apply (proj1 (later_entry_key_error
                  ["dependency-name=test...versions=>1"] "..."
                  "dependency-name=test...update-types=version-update:semver-major"
                  [("test", [("versions", [">1"])])]
                  "test" [("update-types", "version-update:semver-major")]
                  [("versions", [">1"])]
                  eq_refl eq_refl eq_refl));
    reflexivity.
Defined.

(** X29: what [parse_ignore_entries] returns groups the entries by
    package: every entry was parsed, the packages of the collection are the
    dependency names of the entries, and under every key of a package are
    the values that the entries of the package give for that key, in the
    order of the entries; no value of an entry is left out. *)
Theorem entries_grouped
        (entries : list string) (separator : string)
        (collection : dict (dict (list string))) :
  parse_ignore_entries entries separator = Returns collection ->
  exists parsed,
    Forall2 (fun entry p => parse_entry separator entry = Ok p) entries parsed
    /\ (forall name,
           has_key name collection
           = existsb (fun entry => String.eqb (fst entry) name) parsed)
    /\ (forall name rules key,
           lookup name collection = Some rules ->
           values_of name key parsed
           = match lookup key rules with
             | Some values => values
             | None => []
             end).
Proof.
  intros H.
  destruct (EntryFacts.parse_from_grouped entries separator [] collection [])
    as (parsed & Hall & Hg); [|exact H|].
  - split; [reflexivity|discriminate].
  - exists parsed. split; [exact Hall|exact Hg].
Qed.

Lemma entries_grouped_witness :
  exists parsed,
    Forall2 (fun entry p => parse_entry "..." entry = Ok p)
            ["dependency-name=test...versions=>2.2.2";
             "dependency-name=test...versions=<3"] parsed
    /\ (forall name,
           has_key name [("test", [("versions", [">2.2.2"; "<3"])])]
           = existsb (fun entry => String.eqb (fst entry) name) parsed)
    /\ (forall name rules key,
           lookup name [("test", [("versions", [">2.2.2"; "<3"])])]
           = Some rules ->
           values_of name key parsed
           = match lookup key rules with
             | Some values => values
             | None => []
             end).
Proof.
  apply (entries_grouped
           ["dependency-name=test...versions=>2.2.2";
            "dependency-name=test...versions=<3"] "..."
           [("test", [("versions", [">2.2.2"; "<3"])])]).
  reflexivity.
Defined.

(** ** Regenerated requirements *)

Module SortFacts.
Import Regenerate.

Section Sorting.

Context {A : Type}.
Variable before : A -> A -> bool.
Hypothesis before_irrefl : forall x, before x x = false.
Hypothesis before_trans :
  forall x y z, before x y = true -> before y z = true -> before x z = true.

Lemma insert_In (x y : A) (l : list A) :
  In y (insert before x l) <-> y = x \/ In y l.
Proof.
  induction l as [|z l IH]; simpl; [intuition congruence|].
  destruct (before z x); simpl; [rewrite IH|]; intuition congruence.
Qed.

Lemma sorted_In (y : A) (l : list A) : In y (sorted before l) <-> In y l.
Proof.
  induction l as [|x l IH]; simpl; [tauto|].
  rewrite insert_In, IH. intuition congruence.
Qed.

Lemma insert_ordered (x : A) (l : list A) :
  (forall y, In y l -> before x y = true \/ before y x = true) ->
  ForallOrdPairs (fun a b => before a b = true) l ->
  ForallOrdPairs (fun a b => before a b = true) (insert before x l).
Proof.
  intros Hcmp Hl. induction Hl as [|y l Hy Hl IH]; simpl.
  - constructor; constructor.
  - destruct (before y x) eqn:E.
    + constructor.
      * apply Forall_forall. intros z Hz. apply insert_In in Hz.
        destruct Hz as [-> | Hz]; [assumption|].
        rewrite Forall_forall in Hy. auto.
      * apply IH. intros z Hz. apply Hcmp. now right.
    + assert (Hxy : before x y = true).
      { destruct (Hcmp y (or_introl eq_refl)); congruence. }
      constructor.
      * constructor; [assumption|].
        apply Forall_forall. intros z Hz. rewrite Forall_forall in Hy.
        apply (before_trans x y z Hxy). auto.
      * now constructor.
Qed.

Lemma sorted_ordered (l : list A) :
  NoDup l ->
  (forall x y, In x l -> In y l -> x <> y ->
               before x y = true \/ before y x = true) ->
  ForallOrdPairs (fun a b => before a b = true) (sorted before l).
Proof.
  intros Hnd Hcmp. induction Hnd as [|x l Hx Hnd IH]; simpl.
  - constructor.
  - apply insert_ordered.
    + intros y Hy. apply (proj1 (sorted_In y l)) in Hy.
      apply Hcmp; [now left|now right|]. intros E. subst y. tauto.
    + apply IH. intros a b Ha Hb. apply Hcmp; simpl; auto.
Qed.

Lemma ordered_unique (l1 : list A) :
  forall l2,
    ForallOrdPairs (fun a b => before a b = true) l1 ->
    ForallOrdPairs (fun a b => before a b = true) l2 ->
    (forall x, In x l1 <-> In x l2) ->
    l1 = l2.
Proof.
  induction l1 as [|a l1 IH]; intros l2 H1 H2 Hsame.
  - destruct l2 as [|b l2]; [reflexivity|].
    destruct (proj2 (Hsame b) (or_introl eq_refl)).
  - destruct l2 as [|b l2]; [destruct (proj1 (Hsame a) (or_introl eq_refl))|].
    inversion H1 as [|? ? Ha H1']; subst.
    inversion H2 as [|? ? Hb H2']; subst.
    rewrite Forall_forall in Ha, Hb.
    assert (Hab : a = b).
    { destruct (proj1 (Hsame a) (or_introl eq_refl)) as [Hba | Hin2];
        [now symmetry|].
      destruct (proj2 (Hsame b) (or_introl eq_refl)) as [Hab | Hin1];
        [assumption|].
      pose proof (before_trans a b a (Ha b Hin1) (Hb a Hin2)) as Hc.
      rewrite before_irrefl in Hc. discriminate. }
    subst b. f_equal. apply IH; [assumption|assumption|].
    intros x. split; intros Hx.
    + destruct (proj1 (Hsame x) (or_intror Hx)) as [<- | H]; [|assumption].
      pose proof (Ha a Hx) as Hc. rewrite before_irrefl in Hc. discriminate.
    + destruct (proj2 (Hsame x) (or_intror Hx)) as [<- | H]; [|assumption].
      pose proof (Hb a Hx) as Hc. rewrite before_irrefl in Hc. discriminate.
Qed.

Lemma sorted_same_set (l1 l2 : list A) :
  same_set l1 l2 ->
  (forall x y, In x l1 -> In y l1 -> x <> y ->
               before x y = true \/ before y x = true) ->
  sorted before l1 = sorted before l2.
Proof.
  intros (Hn1 & Hn2 & Hsame) Hcmp. apply ordered_unique.
  - now apply sorted_ordered.
  - apply sorted_ordered; [assumption|].
    intros x y Hx Hy. apply Hcmp; now apply Hsame.
  - intros x. rewrite !sorted_In. apply Hsame.
Qed.

End Sorting.

Lemma text_before_total (x y : string) :
  x <> y -> text_before x y = true \/ text_before y x = true.
Proof.
  intros Hne. unfold text_before.
  rewrite (TextOrder.ltb_total x y).
  apply String.eqb_neq in Hne. rewrite Hne.
  destruct (String.ltb x y); auto.
Qed.

Lemma operator_after_irrefl (s : Specifier) : operator_after s s = false.
Proof. apply TextOrder.ltb_irrefl. Qed.

Lemma operator_after_trans (a b c : Specifier) :
  operator_after a b = true -> operator_after b c = true ->
  operator_after a c = true.
Proof.
  unfold operator_after. intros Hab Hbc.
  exact (TextOrder.ltb_trans _ _ _ Hbc Hab).
Qed.

Lemma operator_after_total (a b : Specifier) :
  operator a <> operator b ->
  operator_after a b = true \/ operator_after b a = true.
Proof.
  unfold operator_after.
  destruct (operator a), (operator b); intros H;
    try (now contradiction H); vm_compute; auto.
Qed.

Lemma distinct_operators (l : list Specifier) (a b : Specifier) :
  NoDup (map operator l) -> In a l -> In b l -> a <> b ->
  operator a <> operator b.
Proof.
  induction l as [|x l IH]; simpl; [tauto|].
  intros Hnd Ha Hb Hne. inversion Hnd as [|? ? Hx Hl]; subst.
  destruct Ha as [-> | Ha], Hb as [-> | Hb].
  - tauto.
  - intros E. apply Hx. rewrite E. now apply in_map.
  - intros E. apply Hx. rewrite <- E. now apply in_map.
  - now apply IH.
Qed.

End SortFacts.

(** X30: the text that [regenerate_requirement] returns does not depend
    on the order in which the sets of extras and of specifiers are
    iterated, as long as no two specifiers of the requirement have the
    same operator: the extras are sorted, and the specifiers are sorted by
    their operator alone.  Two specifiers with the same operator keep the
    order of the iteration, and the text changes with it. *)
Theorem regenerate_order_independent :
  (forall (requirement : Regenerate.Requirement)
          (other_extras : list string) (other_specifier : SpecifierSet)
          (new_name : option string) (new_extras : option (list string))
          (new_specifier : option SpecifierSet)
          (new_url new_marker : option string) (post_name_space : bool),
      Regenerate.same_set (Regenerate.extras requirement) other_extras ->
      Regenerate.same_set (Regenerate.specifier requirement) other_specifier ->
      NoDup (map operator (Regenerate.specifier requirement)) ->
      Regenerate.regenerate_requirement
        requirement new_name new_extras new_specifier new_url new_marker
        post_name_space
      = Regenerate.regenerate_requirement
          (Regenerate.mkRequirement
             (Regenerate.name requirement) other_extras other_specifier
             (Regenerate.url requirement) (Regenerate.marker requirement))
          new_name new_extras new_specifier new_url new_marker
          post_name_space)
  /\ Regenerate.regenerate_requirement
       (Regenerate.mkRequirement
          "package" []
          [mkSpecifier OpNotEqual "1.0"; mkSpecifier OpNotEqual "2.0"]
          None None)
       None None None None None false
     <> Regenerate.regenerate_requirement
          (Regenerate.mkRequirement
             "package" []
             [mkSpecifier OpNotEqual "2.0"; mkSpecifier OpNotEqual "1.0"]
             None None)
          None None None None None false.
Proof.
  split; [|discriminate].
  intros requirement other_extras other_specifier new_name new_extras
         new_specifier new_url new_marker post_name_space He Hs Hops.
  assert (Hextras :
            Regenerate.sorted Regenerate.text_before
                              (Regenerate.extras requirement)
            = Regenerate.sorted Regenerate.text_before other_extras).
  { apply SortFacts.sorted_same_set; [| |assumption|].
    - apply TextOrder.ltb_irrefl.
    - intros x y z. apply TextOrder.ltb_trans.
    - intros x y _ _. apply SortFacts.text_before_total. }
  assert (Hspecs :
            Regenerate.sorted Regenerate.operator_after
                              (Regenerate.specifier requirement)
            = Regenerate.sorted Regenerate.operator_after other_specifier).
  { apply SortFacts.sorted_same_set; [| |assumption|].
    - apply SortFacts.operator_after_irrefl.
    - apply SortFacts.operator_after_trans.
    - intros x y Hx Hy Hne. apply SortFacts.operator_after_total.
      now apply (SortFacts.distinct_operators _ _ _ Hops). }
  assert (Hnil : forall (B : Type) (a b : list B),
             Regenerate.same_set a b -> a = [] <-> b = []).
  { intros B a b (_ & _ & Hsame). split; intros ->.
    - destruct b as [|x b]; [reflexivity|].
      destruct (proj2 (Hsame x) (or_introl eq_refl)).
    - destruct a as [|x a]; [reflexivity|].
      destruct (proj1 (Hsame x) (or_introl eq_refl)). }
  destruct requirement as [n extras specifier url marker].
  cbn [Regenerate.name Regenerate.extras Regenerate.specifier
       Regenerate.url Regenerate.marker] in *.
  assert (Hextras_nil := Hnil _ _ _ He).
  assert (Hspecs_nil := Hnil _ _ _ Hs).
  unfold Regenerate.regenerate_requirement.
  cbn [Regenerate.name Regenerate.extras Regenerate.specifier
       Regenerate.url Regenerate.marker].
  destruct extras as [|a ea], other_extras as [|b eb];
    try discriminate (proj1 Hextras_nil eq_refl);
    try discriminate (proj2 Hextras_nil eq_refl);
    (destruct specifier as [|c ec], other_specifier as [|d ed];
     try discriminate (proj1 Hspecs_nil eq_refl);
     try discriminate (proj2 Hspecs_nil eq_refl));
    destruct new_extras as [[|x given]|], new_specifier as [[|y given']|];
    cbn [Regenerate.set_or]; rewrite ?Hextras, ?Hspecs; reflexivity.
Qed.

Lemma regenerate_order_independent_witness :
  Regenerate.regenerate_requirement
    (Regenerate.mkRequirement
       "package" ["b"; "a"]
       [mkSpecifier OpLess "3"; mkSpecifier OpGreaterEqual "1.0"] None None)
    None None None None None false
  = Regenerate.regenerate_requirement
      (Regenerate.mkRequirement
         "package" ["a"; "b"]
         [mkSpecifier OpGreaterEqual "1.0"; mkSpecifier OpLess "3"] None None)
      None None None None None false.
Proof.
  apply (proj1 regenerate_order_independent
               (Regenerate.mkRequirement
                  "package" ["b"; "a"]
                  [mkSpecifier OpLess "3"; mkSpecifier OpGreaterEqual "1.0"]
                  None None)
               ["a"; "b"]
               [mkSpecifier OpGreaterEqual "1.0"; mkSpecifier OpLess "3"]
               None None None None None false).
  - repeat split; try (repeat constructor; simpl; intuition discriminate);
      simpl; intuition.
  - repeat split; try (repeat constructor; simpl; intuition discriminate);
      simpl; intuition.
  - repeat constructor; simpl; intuition discriminate.
Defined.
